(** * StressVision: stress aggregation, identity matching, alerts and reports

    A shallow embedding of the decision logic of the StressVision core:

    - [core/utils/types.py]                 (records, label sets)
    - [core/services/stress_calculator.py]  (module [Stress])
    - [core/database/database.py]           (module [Store])
    - [core/services/alert_manager.py]      (module [Alerts])
    - [core/services/report_generator.py]   (module [Reports])
    - [core/detectors/face_recognizer.py]   (module [Recognizer])
    - [core/detectors/emotion_analyzer.py], [face_detector.py] and the
      frame loop of [app/main_window.py]    (module [Detectors])
    - the employees table and the report queries
                                            (modules [Directory],
                                             [ReportQueries])
    - the calls made by [app/main_window.py] (modules [App], [Pipeline])

    The modules [Cooldown], [Matching], [Invariants] and [Scoring] hold
    the vocabulary in which the properties are stated, [Scenarios] the
    concrete stores on which the services are run; the theorems follow.

    Conventions of the embedding.

    - Python [float] values that carry measurements (stress levels,
      confidences, the stress index) are exact rationals [Q]; the
      similarity computations of the recognizer, which take square roots,
      are over the reals [R].  Rounding errors of binary floating point
      are therefore outside the model.
    - Wall-clock readings ([time.time()], [datetime.now()]) are integers
      counting microseconds; an ISO timestamp string is the integer it
      denotes, so that the lexicographic comparisons made by SQLite are
      the integer order.
    - Python truthiness is written out: [if s] on an optional string is
      [Py.truthy], [a or b] is [Py.or_int] or [Py.or_str].
    - A [dict] whose iteration order is observed is an association list in
      insertion order; a [dict] only looked up by key is a [gmap]. *)

From Stdlib Require Import ZArith QArith Qround Qabs Lia Lra Reals.
From Stdlib Require Lqa.
From stdpp Require Import base option list strings pretty sorting gmap.

Set Default Proof Using "Type".
Local Open Scope Z_scope.

(** ** Python helpers *)

Module Py.

(** [if s:] for [s : Optional[str]]: [None] and the empty string are
    false. *)
Definition truthy (s : option string) : bool :=
  match s with
  | Some v => negb (String.eqb v "")
  | None => false
  end.

(** [a or b] for [a : Optional[int]]. *)
Definition or_int (a : option Z) (b : Z) : Z :=
  match a with
  | Some v => if v =? 0 then b else v
  | None => b
  end.

(** [a or b] for [a : Optional[str]]. *)
Definition or_str (a : option string) (b : string) : string :=
  match a with
  | Some v => if String.eqb v "" then b else v
  | None => b
  end.

(** [l[start:]] with Python's treatment of negative and out-of-range
    indices. *)
Definition slice_from {A} (start : Z) (l : list A) : list A :=
  let n := Z.of_nat (length l) in
  let s := if start <? 0 then Z.max 0 (start + n) else Z.min start n in
  drop (Z.to_nat s) l.

(** Nearest integer, ties to even: the rounding of [round]. *)
Definition round_half_even (x : Q) : Z :=
  let f := Qfloor x in
  match Qcompare (x - inject_Z f) (1 # 2) with
  | Lt => f
  | Gt => f + 1
  | Eq => if Z.even f then f else f + 1
  end.

(** [round(x, 2)]. *)
Definition round2 (x : Q) : Q :=
  Qmake (round_half_even (x * 100)) 100.

(** [deque(maxlen=n).append(x)]: the oldest element leaves when the
    deque is full. *)
Definition deque_append {A} (maxlen : nat) (x : A) (d : list A) : list A :=
  let d' := d ++ [x] in
  drop (length d' - maxlen)%nat d'.

(** [d.get(k, 0)] on an insertion-ordered dict of counters. *)
Fixpoint dict_get (k : string) (d : list (string * nat)) : nat :=
  match d with
  | [] => 0%nat
  | (k', v) :: d' => if String.eqb k k' then v else dict_get k d'
  end.

(** [d[k] = v]: an existing key keeps its position, a new key goes
    last. *)
Fixpoint dict_set {V} (k : string) (v : V) (d : list (string * V))
  : list (string * V) :=
  match d with
  | [] => [(k, v)]
  | (k', v') :: d' =>
      if String.eqb k k' then (k, v) :: d' else (k', v') :: dict_set k v d'
  end.

(** [d.get(k)] *)
Fixpoint dict_lookup {V} (k : string) (d : list (string * V)) : option V :=
  match d with
  | [] => None
  | (k', v) :: d' => if String.eqb k k' then Some v else dict_lookup k d'
  end.

(** [max(d.items(), key=lambda x: x[1])]: the first item with the
    largest count. *)
Fixpoint max_by_count (best : string * nat) (d : list (string * nat))
  : string * nat :=
  match d with
  | [] => best
  | kv :: d' =>
      if (snd best <? snd kv)%nat then max_by_count kv d'
      else max_by_count best d'
  end.

End Py.

(** ** [core/utils/types.py] *)

Module Types.

Definition NEGATIVE_EMOTIONS : list string :=
  ["angry"; "fear"; "sad"; "disgust"; "stress_high"; "fatigue"].

(** [e in NEGATIVE_EMOTIONS] *)
Definition is_negative (e : string) : bool :=
  existsb (String.eqb e) NEGATIVE_EMOTIONS.

Inductive AlertType := HIGH_STRESS_PROLONGED | FATIGUE_DETECTED | ANOMALY_DETECTED.
Inductive AlertSeverity := LOW | MEDIUM | HIGH.
Inductive AlertStatus := PENDING | ACKNOWLEDGED | RESOLVED.

Definition AlertType_eqb (a b : AlertType) : bool :=
  match a, b with
  | HIGH_STRESS_PROLONGED, HIGH_STRESS_PROLONGED
  | FATIGUE_DETECTED, FATIGUE_DETECTED
  | ANOMALY_DETECTED, ANOMALY_DETECTED => true
  | _, _ => false
  end.

Definition AlertStatus_eqb (a b : AlertStatus) : bool :=
  match a, b with
  | PENDING, PENDING | ACKNOWLEDGED, ACKNOWLEDGED | RESOLVED, RESOLVED => true
  | _, _ => false
  end.

Record StressEvent := {
  se_timestamp : Z;
  se_stress_index : Q;
  se_emotion : string;
  se_person_count : Z;
  se_employee_id : option string
}.

Record Alert := {
  alert_id : Z;
  a_employee_id : option string;
  alert_type : AlertType;
  severity : AlertSeverity;
  a_stress_level : Q;
  a_timestamp : Z;
  status : AlertStatus;
  message : string;
  resolved_at : option Z;
  resolved_by : option string
}.

Record DetectionEvent := {
  detection_id : option Z;
  session_id : option string;
  d_employee_id : option string;
  track_id : option Z;
  d_timestamp : Z;
  d_emotion : option string;
  d_confidence : Q;
  d_stress_level : option Q
}.

End Types.
Import Types.

(** ** [core/services/stress_calculator.py] *)

Module Stress.

(** One entry of a history deque:
    [{'emotion': .., 'timestamp': .., 'confidence': ..}]. *)
Record Sample := {
  emotion : string;
  timestamp : Z;
  confidence : Q
}.

Record StressCalculator := {
  max_history : nat;
  window_size : Z;
  employee_histories : gmap string (list Sample);
  global_history : list Sample;
  stress_events : list StressEvent
}.

(** [StressCalculator(max_history, window_size)] *)
Definition init (max_history : nat) (window_size : Z) : StressCalculator :=
  {| max_history := max_history; window_size := window_size;
     employee_histories := ∅; global_history := []; stress_events := [] |}.

(** [add_emotion]; [now] is the reading of [time.time()]. *)
Definition add_emotion (now : Z) (emotion : string)
    (employee_id : option string) (confidence : Q)
    (c : StressCalculator) : StressCalculator :=
  let entry := {| emotion := emotion; timestamp := now;
                  confidence := confidence |} in
  let g := Py.deque_append (max_history c) entry (global_history c) in
  let hs :=
    match employee_id with
    | Some e =>
        if Py.truthy employee_id then
          let h := default [] (employee_histories c !! e) in
          <[e := Py.deque_append (max_history c) entry h]>
            (employee_histories c)
        else employee_histories c
    | None => employee_histories c
    end in
  {| max_history := max_history c; window_size := window_size c;
     employee_histories := hs; global_history := g;
     stress_events := stress_events c |}.

(** The selection made at the head of [calculate_stress_index],
    [check_stress_threshold] and [get_emotion_distribution]:
    [if employee_id and employee_id in self.employee_histories]. *)
Definition select_history (c : StressCalculator)
    (employee_id : option string) : list Sample :=
  match employee_id with
  | Some e =>
      if Py.truthy employee_id then
        match employee_histories c !! e with
        | Some h => h
        | None => global_history c
        end
      else global_history c
  | None => global_history c
  end.

(** [sum(1 for e in l if e['emotion'] in NEGATIVE_EMOTIONS)] *)
Definition negative_count (l : list Sample) : nat :=
  length (filter (λ e, is_negative (emotion e) = true) l).

(** The tail of [calculate_stress_index], from [recent_emotions] on. *)
Definition index_of_recent (recent_emotions : list Sample) : Q :=
  let total := length recent_emotions in
  if (total =? 0)%nat then 0%Q
  else
    Py.round2
      (inject_Z (Z.of_nat (negative_count recent_emotions))
       / inject_Z (Z.of_nat total) * 100).

(** [history[-window:]] after [window = window or self.window_size]. *)
Definition recent (c : StressCalculator) (window : option Z)
    (history : list Sample) : list Sample :=
  Py.slice_from (- Py.or_int window (window_size c)) history.

Definition calculate_stress_index (c : StressCalculator)
    (employee_id : option string) (window : option Z) : Q :=
  let history := select_history c employee_id in
  if (length history <? 5)%nat then 0%Q
  else index_of_recent (recent c window history).

(** [check_stress_threshold]; [now] is the reading of
    [datetime.now()].  Returns the flag and the calculator with the
    event log possibly extended. *)
Definition check_stress_threshold (now : Z) (threshold : Q)
    (employee_id : option string) (c : StressCalculator)
    : bool * StressCalculator :=
  let stress_index := calculate_stress_index c employee_id None in
  if Qlt_le_dec threshold stress_index then
    let history := select_history c employee_id in
    let last_emotion :=
      match last history with
      | Some e => emotion e
      | None => "unknown"
      end in
    let event := {| se_timestamp := now; se_stress_index := stress_index;
                    se_emotion := last_emotion; se_person_count := 1;
                    se_employee_id := employee_id |} in
    (true,
     {| max_history := max_history c; window_size := window_size c;
        employee_histories := employee_histories c;
        global_history := global_history c;
        stress_events := stress_events c ++ [event] |})
  else (false, c).

(** The counting loop of [get_emotion_distribution]. *)
Definition count_emotions (l : list string) : list (string * nat) :=
  fold_left (λ d e, Py.dict_set e (Py.dict_get e d + 1)%nat d) l [].

(** [get_emotion_distribution]; [now] is the reading of [time.time()]. *)
Definition get_emotion_distribution (now : Z) (c : StressCalculator)
    (employee_id : option string) (hours : Z) : list (string * nat) :=
  let cutoff_time := now - hours * 3600 * 1000000 in
  let history := select_history c employee_id in
  let recent := filter (λ e, cutoff_time ≤ timestamp e) history in
  count_emotions (map emotion recent).

Record Metrics := {
  m_stress_index : Q;
  total_detections : nat;
  m_negative_count : nat;
  negative_percentage : Q;
  predominant_emotion : string;
  emotion_distribution : list (string * nat);
  stress_events_count : nat
}.

(** [e.employee_id == employee_id or employee_id is None] *)
Definition event_matches (employee_id : option string) (e : StressEvent)
    : bool :=
  match employee_id with
  | None => true
  | Some i =>
      match se_employee_id e with
      | Some j => String.eqb j i
      | None => false
      end
  end.

(** [get_metrics]; [now] is the reading of [time.time()] made by
    [get_emotion_distribution] (default [hours = 24]). *)
Definition get_metrics (now : Z) (c : StressCalculator)
    (employee_id : option string) : Metrics :=
  let stress_index := calculate_stress_index c employee_id None in
  let distribution := get_emotion_distribution now c employee_id 24 in
  let total := list_sum (map snd distribution) in
  let neg :=
    list_sum (map (λ e, Py.dict_get e distribution) NEGATIVE_EMOTIONS) in
  let predominant :=
    match distribution with
    | [] => "neutral"
    | kv :: d => fst (Py.max_by_count kv d)
    end in
  {| m_stress_index := stress_index;
     total_detections := total;
     m_negative_count := neg;
     negative_percentage :=
       if (0 <? total)%nat
       then inject_Z (Z.of_nat neg) / inject_Z (Z.of_nat total) * 100
       else 0%Q;
     predominant_emotion := predominant;
     emotion_distribution := distribution;
     stress_events_count :=
       length (filter (λ e, event_matches employee_id e = true)
                      (stress_events c)) |}.

(** [clear_history] *)
Definition clear_history (employee_id : option string)
    (c : StressCalculator) : StressCalculator :=
  match employee_id with
  | Some e =>
      if Py.truthy employee_id then
        {| max_history := max_history c; window_size := window_size c;
           employee_histories :=
             match employee_histories c !! e with
             | Some _ => <[e := []]> (employee_histories c)
             | None => employee_histories c
             end;
           global_history := global_history c;
           stress_events := stress_events c |}
      else
        {| max_history := max_history c; window_size := window_size c;
           employee_histories := ∅; global_history := [];
           stress_events := stress_events c |}
  | None =>
      {| max_history := max_history c; window_size := window_size c;
         employee_histories := ∅; global_history := [];
         stress_events := stress_events c |}
  end.

End Stress.

(** ** [core/database/database.py] *)

Module Store.

(** The per-employee entry of a report's [employee_details]. *)
Record EmployeeDetail := {
  detection_count : nat;
  ed_avg_stress_level : Q;
  ed_predominant_emotion : string
}.

(** The [report_data] dict of [generate_report]. *)
Record Report := {
  r_timestamp : Z;
  period_start : Z;
  period_end : Z;
  r_total_detections : nat;
  employees_detected : nat;
  avg_stress_level : Q;
  r_emotion_distribution : list (string * nat);
  alerts_generated : nat;
  employee_details : list (string * EmployeeDetail)
}.

(** The tables [detection_events], [alerts] and [reports_15min], rows in
    insertion order, with the AUTOINCREMENT counters of the first two. *)
Record Database := {
  detection_events : list DetectionEvent;
  detection_seq : N;
  alerts : list Alert;
  alert_seq : N;
  reports : list Report
}.

Definition empty : Database :=
  {| detection_events := []; detection_seq := 0; alerts := [];
     alert_seq := 0; reports := [] |}.

(** [ORDER BY timestamp DESC]; SQL leaves the order among rows of equal
    timestamp open, here it is whatever the sort makes of it. *)
Definition later_first {A} (ts : A → Z) (a b : A) : Prop := ts b ≤ ts a.

#[global] Instance later_first_dec {A} (ts : A → Z) (a b : A)
  : Decision (later_first ts a b) := decide (ts b ≤ ts a).

Definition order_desc {A} (ts : A → Z) (rows : list A) : list A :=
  merge_sort (later_first ts) rows.

(** [WHERE employee_id = ?]: a NULL column matches nothing. *)
Definition same_employee (col : option string) (e : string) : bool :=
  match col with
  | Some c => String.eqb c e
  | None => false
  end.

(** The [WHERE] clause assembled by [get_detections]. *)
Definition detection_selected (employee_id : option string)
    (start_time end_time : option Z) (d : DetectionEvent) : bool :=
  (match employee_id with
   | Some e => if Py.truthy employee_id then same_employee (d_employee_id d) e
               else true
   | None => true
   end)
  && (match start_time with Some s => s <=? d_timestamp d | None => true end)
  && (match end_time with Some e => d_timestamp d <=? e | None => true end).

Definition get_detections (db : Database) (employee_id : option string)
    (start_time end_time : option Z) (limit : nat) : list DetectionEvent :=
  take limit
    (order_desc d_timestamp
       (filter (λ d, detection_selected employee_id start_time end_time d = true)
               (detection_events db))).

(** [add_detection]: the row gets the next id; the caller's timestamp is
    kept ([now] stands for the [datetime.now()] default, which the
    application never needs). *)
Definition add_detection (d : DetectionEvent) (db : Database)
    : Z * Database :=
  let id := Z.of_N (N.succ (detection_seq db)) in
  (id,
   {| detection_events :=
        detection_events db ++
        [{| detection_id := Some id; session_id := session_id d;
            d_employee_id := d_employee_id d; track_id := track_id d;
            d_timestamp := d_timestamp d; d_emotion := d_emotion d;
            d_confidence := d_confidence d;
            d_stress_level := d_stress_level d |}];
      detection_seq := N.succ (detection_seq db);
      alerts := alerts db; alert_seq := alert_seq db;
      reports := reports db |}).

(** The successful branch of [add_alert]: the INSERT writes seven
    columns, [resolved_at] and [resolved_by] are NULL in the new row. *)
Definition add_alert (a : Alert) (db : Database) : Z * Database :=
  let id := Z.of_N (N.succ (alert_seq db)) in
  (id,
   {| detection_events := detection_events db;
      detection_seq := detection_seq db;
      alerts :=
        alerts db ++
        [{| alert_id := id; a_employee_id := a_employee_id a;
            alert_type := alert_type a; severity := severity a;
            a_stress_level := a_stress_level a;
            a_timestamp := a_timestamp a; status := status a;
            message := message a; resolved_at := None;
            resolved_by := None |}];
      alert_seq := N.succ (alert_seq db);
      reports := reports db |}).

(** The [WHERE] clause assembled by [get_alerts]. *)
Definition alert_selected (st : option AlertStatus)
    (employee_id : option string) (a : Alert) : bool :=
  (match st with Some s => AlertStatus_eqb (status a) s | None => true end)
  && (match employee_id with
      | Some e => if Py.truthy employee_id
                  then same_employee (a_employee_id a) e else true
      | None => true
      end).

Definition get_alerts (db : Database) (st : option AlertStatus)
    (employee_id : option string) (limit : nat) : list Alert :=
  take limit
    (order_desc a_timestamp
       (filter (λ a, alert_selected st employee_id a = true) (alerts db))).

(** The row written by
    [UPDATE alerts SET status = ?, resolved_at = ?, resolved_by = ?]. *)
Definition set_status (st : AlertStatus) (resolved_at : option Z)
    (resolved_by : option string) (a : Alert) : Alert :=
  {| alert_id := alert_id a; a_employee_id := a_employee_id a;
     alert_type := alert_type a; severity := severity a;
     a_stress_level := a_stress_level a; a_timestamp := a_timestamp a;
     status := st; message := message a;
     resolved_at := resolved_at; resolved_by := resolved_by |}.

(** The successful branch of [update_alert_status]; [now] is the reading
    of [datetime.now()], used only when the new status is resolved. *)
Definition update_alert_status (now : Z) (id : Z) (st : AlertStatus)
    (resolved_by : option string) (db : Database) : Database :=
  let resolved_at :=
    if AlertStatus_eqb st RESOLVED then Some now else None in
  {| detection_events := detection_events db;
     detection_seq := detection_seq db;
     alerts :=
       map (λ a, if alert_id a =? id
                 then set_status st resolved_at resolved_by a else a)
           (alerts db);
     alert_seq := alert_seq db;
     reports := reports db |}.

(** The INSERT of [_save_report]. *)
Definition add_report (r : Report) (db : Database) : Database :=
  {| detection_events := detection_events db;
     detection_seq := detection_seq db;
     alerts := alerts db; alert_seq := alert_seq db;
     reports := reports db ++ [r] |}.

End Store.

(** ** The running process

    The services share one [Database] and one [StressCalculator] and read
    one wall clock.  [World] is that shared store together with what the
    environment will do next: [ticks] are the (non-negative) advances of
    the clock before each coming reading, so readings never decrease;
    [faults] tells, for each coming write to SQLite, whether it raises
    ([true]) inside the [try] that guards it.  Both are taken as absent
    faults and absent advances once exhausted. *)

Module Sys.

Import Store Stress.

(** The fields of [AlertManager]. *)
Record AlertManager := {
  alert_threshold : Z;
  alert_window_minutes : Z;
  cooldown_minutes : Z;
  last_alert_times : gmap string Z
}.

Record World := {
  clock : Z;
  ticks : list N;
  faults : list bool;
  db : Database;
  calc : StressCalculator;
  mgr : AlertManager;
  report_interval_minutes : Z
}.

(** A computation returns a value or leaves by an uncaught exception;
    either way the store it reached is kept. *)
Inductive Res (A : Type) : Type :=
| Val (a : A) (w : World)
| Exc (w : World).
Arguments Val {A} a w.
Arguments Exc {A} w.

Definition M (A : Type) : Type := World → Res A.

#[global] Instance M_ret : MRet M := λ A a w, Val a w.

#[global] Instance M_bind : MBind M := λ A B f m w,
  match m w with
  | Val a w' => f a w'
  | Exc w' => Exc w'
  end.

Definition raise {A} : M A := λ w, Exc w.

(** The store reached by a computation. *)
Definition final {A} (r : Res A) : World :=
  match r with
  | Val _ w => w
  | Exc w => w
  end.

(** What the clock shows when it is read next. *)
Definition next_reading (w : World) : Z :=
  clock w + Z.of_N (hd 0%N (ticks w)).

(** [datetime.now()] / [time.time()] *)
Definition read_clock : M Z := λ w,
  let t := next_reading w in
  Val t {| clock := t; ticks := tl (ticks w); faults := faults w;
           db := db w; calc := calc w; mgr := mgr w;
           report_interval_minutes := report_interval_minutes w |}.

(** Does the coming SQLite write raise? *)
Definition next_fault : M bool := λ w,
  Val (hd false (faults w))
      {| clock := clock w; ticks := ticks w; faults := tl (faults w);
         db := db w; calc := calc w; mgr := mgr w;
         report_interval_minutes := report_interval_minutes w |}.

Definition get_db : M Database := λ w, Val (db w) w.
Definition get_calc : M StressCalculator := λ w, Val (calc w) w.
Definition get_mgr : M AlertManager := λ w, Val (mgr w) w.
Definition get_interval : M Z := λ w, Val (report_interval_minutes w) w.

Definition put_db (d : Database) : M unit := λ w,
  Val tt {| clock := clock w; ticks := ticks w; faults := faults w;
            db := d; calc := calc w; mgr := mgr w;
            report_interval_minutes := report_interval_minutes w |}.

Definition put_calc (c : StressCalculator) : M unit := λ w,
  Val tt {| clock := clock w; ticks := ticks w; faults := faults w;
            db := db w; calc := c; mgr := mgr w;
            report_interval_minutes := report_interval_minutes w |}.

(** [self.last_alert_times[alert_key] = t] *)
Definition set_last_alert_time (alert_key : string) (t : Z) : M unit := λ w,
  Val tt {| clock := clock w; ticks := ticks w; faults := faults w;
            db := db w; calc := calc w;
            mgr := {| alert_threshold := alert_threshold (mgr w);
                      alert_window_minutes := alert_window_minutes (mgr w);
                      cooldown_minutes := cooldown_minutes (mgr w);
                      last_alert_times :=
                        <[alert_key := t]> (last_alert_times (mgr w)) |};
            report_interval_minutes := report_interval_minutes w |}.

(** [Database.add_alert]: [None] when the INSERT raised. *)
Definition db_add_alert (a : Alert) : M (option Z) :=
  failed ← next_fault;
  if failed : bool then mret None
  else
    d ← get_db;
    let '(id, d') := Store.add_alert a d in
    _ ← put_db d';
    mret (Some id).

(** [Database.add_detection]: [None] when the INSERT raised. *)
Definition db_add_detection (e : DetectionEvent) : M (option Z) :=
  failed ← next_fault;
  if failed : bool then mret None
  else
    d ← get_db;
    let '(id, d') := Store.add_detection e d in
    _ ← put_db d';
    mret (Some id).

(** [Database.update_alert_status]: [False] when the UPDATE raised. *)
Definition db_update_alert_status (id : Z) (st : AlertStatus)
    (resolved_by : option string) : M bool :=
  failed ← next_fault;
  if failed : bool then mret false
  else
    now ← (if AlertStatus_eqb st RESOLVED then read_clock else mret 0);
    d ← get_db;
    _ ← put_db (Store.update_alert_status now id st resolved_by d);
    mret true.

(** [StressCalculator.add_emotion] on the shared calculator. *)
Definition add_emotion (emotion : string) (employee_id : option string)
    (confidence : Q) : M unit :=
  now ← read_clock;
  c ← get_calc;
  put_calc (Stress.add_emotion now emotion employee_id confidence c).

(** [StressCalculator.check_stress_threshold] on the shared calculator. *)
Definition check_stress_threshold (threshold : Q)
    (employee_id : option string) : M bool :=
  c ← get_calc;
  if Qlt_le_dec threshold (calculate_stress_index c employee_id None) then
    now ← read_clock;
    _ ← put_calc (snd (Stress.check_stress_threshold now threshold employee_id c));
    mret true
  else mret false.

End Sys.

(** ** [core/services/alert_manager.py] *)

Module Alerts.

Import Store Stress Sys.

(** [f"high_stress_{employee_id or 'global'}"] and
    [f"fatigue_{employee_id or 'global'}"]. *)
Definition high_stress_key (employee_id : option string) : string :=
  "high_stress_" +:+ Py.or_str employee_id "global".

Definition fatigue_key (employee_id : option string) : string :=
  "fatigue_" +:+ Py.or_str employee_id "global".

(** [(datetime.now() - last_time).total_seconds() / 60.0] *)
Definition elapsed_minutes (now last_time : Z) : Q :=
  (Qmake (now - last_time) 1000000) / 60.

Definition _can_generate_alert (alert_key : string) : M bool :=
  m ← get_mgr;
  match last_alert_times m !! alert_key with
  | None => mret true
  | Some last_time =>
      now ← read_clock;
      mret (Qle_bool (inject_Z (cooldown_minutes m))
                     (elapsed_minutes now last_time))
  end.

(** [d.stress_level and d.stress_level > 0.7] *)
Definition is_high_stress (d : DetectionEvent) : bool :=
  match d_stress_level d with
  | Some s => negb (Qeq_bool s 0) && negb (Qle_bool s (7 # 10))
  | None => false
  end.

(** [sum(d.stress_level for d in l if d.stress_level)] *)
Definition sum_stress (l : list DetectionEvent) : Q :=
  fold_left
    (λ acc d, match d_stress_level d with
              | Some s => if Qeq_bool s 0 then acc else (acc + s)%Q
              | None => acc
              end) l 0%Q.

Definition classify (avg_stress : Q) : AlertSeverity :=
  if negb (Qle_bool avg_stress (8 # 10)) then HIGH
  else if negb (Qle_bool avg_stress (6 # 10)) then MEDIUM
  else LOW.

(** The division by [len(stress_detections)] raises on the empty list. *)
Definition _create_high_stress_alert (employee_id : option string)
    (stress_detections : list DetectionEvent) : M (option Alert) :=
  if (length stress_detections =? 0)%nat then raise
  else
    let avg_stress :=
      (sum_stress stress_detections
       / inject_Z (Z.of_nat (length stress_detections)))%Q in
    m ← get_mgr;
    let message :=
      match employee_id with
      | Some e =>
          if Py.truthy employee_id
          then "Empleado " +:+ e +:+ " muestra niveles altos de estrés prolongado"
          else "Se detectaron " +:+ pretty (length stress_detections)
               +:+ " eventos de estrés alto en "
               +:+ pretty (alert_window_minutes m) +:+ " minutos"
      | None =>
          "Se detectaron " +:+ pretty (length stress_detections)
          +:+ " eventos de estrés alto en "
          +:+ pretty (alert_window_minutes m) +:+ " minutos"
      end in
    now ← read_clock;
    mret (Some {| alert_id := 0; a_employee_id := employee_id;
                  alert_type := HIGH_STRESS_PROLONGED;
                  severity := classify avg_stress;
                  a_stress_level := avg_stress; a_timestamp := now;
                  status := PENDING; message := message;
                  resolved_at := None; resolved_by := None |}).

(** [alert.alert_id = alert_id] *)
Definition with_id (id : Z) (a : Alert) : Alert :=
  {| alert_id := id; a_employee_id := a_employee_id a;
     alert_type := alert_type a; severity := severity a;
     a_stress_level := a_stress_level a; a_timestamp := a_timestamp a;
     status := status a; message := message a;
     resolved_at := resolved_at a; resolved_by := resolved_by a |}.

Definition _check_fatigue (employee_id : option string)
    : M (option Alert) :=
  now ← read_clock;
  c ← get_calc;
  let distribution := get_emotion_distribution now c employee_id 1 in
  let fatigue_count := Py.dict_get "fatigue" distribution in
  let neutral_count := Py.dict_get "neutral" distribution in
  if (15 <=? fatigue_count)%nat || (20 <=? fatigue_count + neutral_count)%nat
  then
    let alert_key := fatigue_key employee_id in
    ok ← _can_generate_alert alert_key;
    if ok : bool then
      now ← read_clock;
      let alert :=
        {| alert_id := 0; a_employee_id := employee_id;
           alert_type := FATIGUE_DETECTED; severity := MEDIUM;
           a_stress_level := 5 # 10; a_timestamp := now;
           status := PENDING;
           message :=
             "Se detectó fatiga en " +:+
             match employee_id with
             | Some e => if Py.truthy employee_id then "empleado " +:+ e
                         else "múltiples personas"
             | None => "múltiples personas"
             end;
           resolved_at := None; resolved_by := None |} in
      alert_id ← db_add_alert alert;
      match alert_id with
      | Some id =>
          if id =? 0 then mret None
          else
            t ← read_clock;
            _ ← set_last_alert_time alert_key t;
            mret (Some (with_id id alert))
      | None => mret None
      end
    else mret None
  else mret None.

(** The first half of [check_and_generate_alerts]: the detections with
    high stress seen from the reading [now] of the clock. *)
Definition stress_detections_at (d : Database) (m : AlertManager)
    (employee_id : option string) (now : Z) : list DetectionEvent :=
  let window_start := now - alert_window_minutes m * 60 * 1000000 in
  let detections :=
    get_detections d employee_id (Some window_start) None 1000 in
  filter (λ e, is_high_stress e = true) detections.

Definition check_and_generate_alerts (employee_id : option string)
    : M (list Alert) :=
  m ← get_mgr;
  now ← read_clock;
  d ← get_db;
  let stress_detections := stress_detections_at d m employee_id now in
  alerts ←
    (if alert_threshold m <=? Z.of_nat (length stress_detections) then
       let alert_key := high_stress_key employee_id in
       ok ← _can_generate_alert alert_key;
       if ok : bool then
         alert ← _create_high_stress_alert employee_id stress_detections;
         match alert with
         | Some a =>
             alert_id ← db_add_alert a;
             match alert_id with
             | Some id =>
                 if id =? 0 then mret []
                 else
                   t ← read_clock;
                   _ ← set_last_alert_time alert_key t;
                   mret [with_id id a]
             | None => mret []
             end
         | None => mret []
         end
       else mret []
     else mret []);
  fatigue_alert ← _check_fatigue employee_id;
  mret (alerts ++ match fatigue_alert with Some a => [a] | None => [] end).

(** The cooldown key under which an alert row is created, and the ids of
    the rows created under a key: the vocabulary of the cooldown
    properties. *)
Definition key_of_alert (a : Alert) : string :=
  match alert_type a with
  | HIGH_STRESS_PROLONGED => high_stress_key (a_employee_id a)
  | FATIGUE_DETECTED => fatigue_key (a_employee_id a)
  | ANOMALY_DETECTED => "anomaly_" +:+ Py.or_str (a_employee_id a) "global"
  end.

Definition ids_for (key : string) (d : Database) : list Z :=
  map alert_id (filter (λ a, key_of_alert a = key) (alerts d)).

Definition acknowledge_alert (alert_id : Z) (user_id : string) : M bool :=
  db_update_alert_status alert_id ACKNOWLEDGED (Some user_id).

Definition resolve_alert (alert_id : Z) (user_id : string) : M bool :=
  db_update_alert_status alert_id RESOLVED (Some user_id).

Definition get_pending_alerts (limit : nat) : M (list Alert) :=
  d ← get_db;
  mret (get_alerts d (Some PENDING) None limit).

End Alerts.

(** ** [core/services/report_generator.py] *)

Module Reports.

Import Store Stress Sys.

(** [sum(l) / len(l) if l else 0.0] *)
Definition mean_or_zero (l : list Q) : Q :=
  match l with
  | [] => 0%Q
  | _ => (fold_left Qplus l 0 / inject_Z (Z.of_nat (length l)))%Q
  end.

(** [set(d.employee_id for d in detections if d.employee_id)], listed in
    order of first appearance. *)
Definition employees_of (detections : list DetectionEvent) : list string :=
  remove_dups
    (omap (λ d, if Py.truthy (d_employee_id d) then d_employee_id d else None)
          detections).

(** [max(set(emotions), key=emotions.count)], the set listed in order of
    first appearance. *)
Definition most_frequent (emotions : list string) : string :=
  match map (λ e, (e, length (filter (λ x, String.eqb x e = true) emotions)))
            (remove_dups emotions) with
  | [] => "unknown"
  | kv :: d => fst (Py.max_by_count kv d)
  end.

Definition _get_employee_details (employee_ids : list string)
    (detections : list DetectionEvent) : list (string * EmployeeDetail) :=
  omap
    (λ employee_id,
       let employee_detections :=
         filter (λ d, same_employee (d_employee_id d) employee_id = true)
                detections in
       match employee_detections with
       | [] => None
       | _ =>
           let stress_levels :=
             omap (λ d, match d_stress_level d with
                        | Some s => if Qeq_bool s 0 then None else Some s
                        | None => None
                        end) employee_detections in
           let emotions :=
             omap (λ d, if Py.truthy (d_emotion d) then d_emotion d else None)
                  employee_detections in
           Some (employee_id,
                 {| detection_count := length employee_detections;
                    ed_avg_stress_level := mean_or_zero stress_levels;
                    ed_predominant_emotion := most_frequent emotions |})
       end)
    employee_ids.

(** [_save_report]: an INSERT that raises is reported and swallowed. *)
Definition _save_report (report_data : Report) : M unit :=
  failed ← next_fault;
  if failed : bool then mret tt
  else
    d ← get_db;
    put_db (add_report report_data d).

Definition generate_report : M (option Report) :=
  end_time ← read_clock;
  interval ← get_interval;
  let start_time := end_time - interval * 60 * 1000000 in
  d ← get_db;
  let detections :=
    get_detections d None (Some start_time) (Some end_time)
                   (Z.to_nat 10000) in
  match detections with
  | [] => mret None
  | _ =>
      let employees := employees_of detections in
      let stress_levels := omap d_stress_level detections in
      let emotion_distribution :=
        count_emotions
          (map (λ x, Py.or_str (d_emotion x) "unknown") detections) in
      let alerts := get_alerts d None None 1000 in
      let alerts_in_period :=
        filter (λ a, start_time ≤ a_timestamp a ∧ a_timestamp a ≤ end_time)
               alerts in
      let report_data :=
        {| r_timestamp := end_time;
           period_start := start_time;
           period_end := end_time;
           r_total_detections := length detections;
           employees_detected := length employees;
           avg_stress_level := Py.round2 (mean_or_zero stress_levels);
           r_emotion_distribution := emotion_distribution;
           alerts_generated := length alerts_in_period;
           employee_details := _get_employee_details employees detections |} in
      _ ← _save_report report_data;
      mret (Some report_data)
  end.

End Reports.

(** ** [core/detectors/face_recognizer.py]

    Embeddings are lists of reals.  [np.dot] and [np.mean(.., axis=0)]
    raise on operands of different lengths: the functions below return
    [None] for an uncaught exception. *)

Module Recognizer.

Local Open Scope R_scope.

(** The contents of an [*_embedding.json] file. *)
Record EmbeddingData := {
  f_employee_id : option string;
  f_embedding : list R;
  f_quality_score : R;
  f_num_samples : nat
}.

(** [embeddings_cache] in insertion order, and the JSON files of the
    enrollment directory by file name ([None]: not parseable). *)
Record FaceRecognizer := {
  threshold : R;
  embeddings_cache : list (string * list R);
  enrollment_files : list (string * option EmbeddingData)
}.

(** What [enroll_employee] prints before it returns. *)
Inductive Printed :=
| NeedThreeSamples
| NotEnoughEmbeddings
| LowQuality (quality_score : R)
| Enrolled (quality_score : R)
| SaveError.

(** How [with open(json_path, 'w') as f: json.dump(embedding_data, f)]
    ends: the file is written; [open] raises and the directory is as it
    was; or [open] has created or truncated the file and the write
    raises, which leaves a file that does not parse. *)
Inductive JsonWrite :=
| JsonWritten
| OpenFailed
| DumpFailed.

Fixpoint dot (v1 v2 : list R) : R :=
  match v1, v2 with
  | x :: v1', y :: v2' => x * y + dot v1' v2'
  | _, _ => 0
  end.

(** [np.dot(v1, v2)] on one-dimensional arrays. *)
Definition np_dot (v1 v2 : list R) : option R :=
  if (length v1 =? length v2)%nat then Some (dot v1 v2) else None.

(** [np.linalg.norm(v)] *)
Definition norm (v : list R) : R := sqrt (dot v v).

Definition _cosine_similarity (vec1 vec2 : list R) : option R :=
  match np_dot vec1 vec2 with
  | None => None
  | Some dot_product =>
      let norm1 := norm vec1 in
      let norm2 := norm vec2 in
      if Req_dec_T norm1 0 then Some 0
      else if Req_dec_T norm2 0 then Some 0
      else Some (dot_product / (norm1 * norm2))
  end.

(** The loop of [recognize_face] over [embeddings_cache.items()]. *)
Fixpoint scan (query : list R) (cache : list (string * list R))
    (best_match : option string) (best_similarity : R)
    : option (option string * R) :=
  match cache with
  | [] => Some (best_match, best_similarity)
  | (employee_id, stored) :: rest =>
      match _cosine_similarity query stored with
      | None => None
      | Some similarity =>
          if Rlt_dec best_similarity similarity
          then scan query rest (Some employee_id) similarity
          else scan query rest best_match best_similarity
      end
  end.

(** [l[0] + l[1] + ..], componentwise, for [np.mean(l, axis=0)]. *)
Fixpoint vec_add (v1 v2 : list R) : option (list R) :=
  match v1, v2 with
  | [], [] => Some []
  | x :: v1', y :: v2' => cons (x + y) <$> vec_add v1' v2'
  | _, _ => None
  end.

Fixpoint vec_sum (l : list (list R)) : option (list R) :=
  match l with
  | [] => None
  | [v] => Some v
  | v :: l' => match vec_sum l' with
               | Some s => vec_add v s
               | None => None
               end
  end.

(** [np.mean(embeddings, axis=0)] *)
Definition np_mean_axis0 (embeddings : list (list R)) : option (list R) :=
  match vec_sum embeddings with
  | Some s => Some (map (λ x, x / INR (length embeddings)) s)
  | None => None
  end.

(** The double loop over [i < j]. *)
Fixpoint pairwise (embeddings : list (list R)) : option (list R) :=
  match embeddings with
  | [] => Some []
  | e :: rest =>
      match mapM (_cosine_similarity e) rest, pairwise rest with
      | Some here, Some later => Some (here ++ later)
      | _, _ => None
      end
  end.

(** [np.mean(similarities) if similarities else 0.0] *)
Definition mean_or_zero (l : list R) : R :=
  match l with
  | [] => 0
  | _ => fold_right Rplus 0 l / INR (length l)
  end.

(** [_load_embeddings]: the cache is rebuilt from the parseable files
    that carry an id and a non-empty vector. *)
Definition _load_embeddings (r : FaceRecognizer) : FaceRecognizer :=
  {| threshold := threshold r;
     embeddings_cache :=
       fold_left
         (λ cache file,
            match file.2 with
            | Some data =>
                match f_employee_id data with
                | Some id =>
                    if Py.truthy (f_employee_id data)
                       && (0 <? length (f_embedding data))%nat
                    then Py.dict_set id (f_embedding data) cache
                    else cache
                | None => cache
                end
            | None => cache
            end)
         (enrollment_files r) [];
     enrollment_files := enrollment_files r |}.

Section Perception.

(** The embedding extractor is an external collaborator:
    [generate_embedding] returns a vector, or [None] when DeepFace
    raised. *)
Context {Image : Type}.
Variable generate_embedding : Image → option (list R).

Definition recognize_face (r : FaceRecognizer) (face_roi : Image)
    : option (option string * R) :=
  match generate_embedding face_roi with
  | None => Some (None, 0)
  | Some query_embedding =>
      if (length (embeddings_cache r) =? 0)%nat then Some (None, 0)
      else
        match scan query_embedding (embeddings_cache r) None 0 with
        | None => None
        | Some (best_match, best_similarity) =>
            if Rle_dec (threshold r) best_similarity
            then Some (best_match, best_similarity)
            else Some (None, best_similarity)
        end
  end.

(** [enroll_employee]; [json] tells how writing the JSON file ends and
    [samples_ok] whether saving the sample images then goes through.
    The result is the returned flag, the line printed, and the
    recognizer after the call; [None] stands for an exception that
    leaves the call ([np.mean] and [np.dot] are outside the [try]). *)
Definition enroll_employee (json : JsonWrite) (samples_ok : bool)
    (r : FaceRecognizer) (employee_id : string)
    (face_samples : list Image)
    : option (bool * Printed * FaceRecognizer) :=
  if (length face_samples <? 3)%nat then Some (false, NeedThreeSamples, r)
  else
    let embeddings := omap generate_embedding face_samples in
    if (length embeddings <? 3)%nat then Some (false, NotEnoughEmbeddings, r)
    else
      match np_mean_axis0 embeddings with
      | None => None
      | Some avg_embedding =>
          match pairwise embeddings with
          | None => None
          | Some similarities =>
              let quality_score := mean_or_zero similarities in
              if Rlt_dec quality_score (70 / 100)
              then Some (false, LowQuality quality_score, r)
              else
                let embedding_data :=
                  {| f_employee_id := Some employee_id;
                     f_embedding := avg_embedding;
                     f_quality_score := quality_score;
                     f_num_samples := length embeddings |} in
                let json_path := employee_id +:+ "_embedding.json" in
                match json with
                | JsonWritten =>
                    let r' :=
                      {| threshold := threshold r;
                         embeddings_cache :=
                           Py.dict_set employee_id avg_embedding
                                       (embeddings_cache r);
                         enrollment_files :=
                           Py.dict_set json_path (Some embedding_data)
                                       (enrollment_files r) |} in
                    if samples_ok then Some (true, Enrolled quality_score, r')
                    else Some (false, SaveError, r')
                | OpenFailed => Some (false, SaveError, r)
                | DumpFailed =>
                    Some (false, SaveError,
                          {| threshold := threshold r;
                             embeddings_cache := embeddings_cache r;
                             enrollment_files :=
                               Py.dict_set json_path None
                                           (enrollment_files r) |})
                end
          end
      end.

End Perception.

End Recognizer.

(** ** What [app/main_window.py] drives

    The window's timers and callbacks call into the services one after
    the other on the same objects; an exception leaves a callback and the
    next one runs on the store that was reached. *)

Module App.

Import Sys.

Inductive Op :=
| AddEmotion (emotion : string) (employee_id : option string) (confidence : Q)
| AddDetection (d : DetectionEvent)
| CheckThreshold (threshold : Q) (employee_id : option string)
| CheckAlerts (employee_id : option string)
| Acknowledge (alert_id : Z) (user_id : string)
| Resolve (alert_id : Z) (user_id : string)
| GenerateReport.

Definition exec (o : Op) (w : World) : World :=
  match o with
  | AddEmotion e i c => final (Sys.add_emotion e i c w)
  | AddDetection d => final (db_add_detection d w)
  | CheckThreshold t i => final (Sys.check_stress_threshold t i w)
  | CheckAlerts i => final (Alerts.check_and_generate_alerts i w)
  | Acknowledge a u => final (Alerts.acknowledge_alert a u w)
  | Resolve a u => final (Alerts.resolve_alert a u w)
  | GenerateReport => final (Reports.generate_report w)
  end.

Definition run (ops : list Op) (w : World) : World :=
  fold_left (λ w o, exec o w) ops w.

End App.

(** ** Vocabulary of the cooldown properties *)

Module Cooldown.

Import Sys Alerts.

(** Microseconds in a minute. *)
Definition minute : Z := 60000000.

(** A key may fire at reading [t]: it has no entry, or its entry is at
    least [cooldown_minutes] old. *)
Definition eligible (m : AlertManager) (key : string) (t : Z) : Prop :=
  match last_alert_times m !! key with
  | None => True
  | Some last_time => last_time + cooldown_minutes m * minute ≤ t
  end.

Definition same_config (m m' : AlertManager) : Prop :=
  alert_threshold m' = alert_threshold m
  ∧ alert_window_minutes m' = alert_window_minutes m
  ∧ cooldown_minutes m' = cooldown_minutes m.

(** Between [w] and [w'] nothing happened under [key]. *)
Definition untouched (key : string) (w w' : World) : Prop :=
  last_alert_times (mgr w') !! key = last_alert_times (mgr w) !! key
  ∧ ids_for key (db w') = ids_for key (db w).

(** Between [w] and [w'] an alert was created under [key]: the key was
    eligible at a reading [tg] of the clock, rows were added under it,
    and its entry is a later reading [t]. *)
Definition fired (key : string) (w w' : World) : Prop :=
  ∃ tg t,
    clock w ≤ tg ∧ tg ≤ t ∧ t ≤ clock w'
    ∧ eligible (mgr w) key tg
    ∧ last_alert_times (mgr w') !! key = Some t
    ∧ (length (ids_for key (db w)) < length (ids_for key (db w')))%nat.

(** What any activity of the process does to the cooldown state. *)
Definition effect (w w' : World) : Prop :=
  clock w ≤ clock w'
  ∧ same_config (mgr w) (mgr w')
  ∧ ∀ key, untouched key w w' ∨ fired key w w'.

End Cooldown.

(** ** Vocabulary of identity matching *)

Module Matching.

Import Recognizer.

Local Open Scope R_scope.

(** The value of [_cosine_similarity] on vectors of equal length. *)
Definition cosine (v1 v2 : list R) : R :=
  if Req_dec_T (norm v1) 0 then 0
  else if Req_dec_T (norm v2) 0 then 0
  else dot v1 v2 / (norm v1 * norm v2).

(** The matching rule in the words of the specification: the maximum of
    the similarities to the enrolled vectors (the first one on ties),
    reported with its owner when it reaches the threshold and without
    owner otherwise; [(None, 0)] on the empty registry. *)
Fixpoint maximum_from (query : list R) (cache : list (string * list R))
    (best : string * R) : string * R :=
  match cache with
  | [] => best
  | (id, v) :: rest =>
      if Rlt_dec (snd best) (cosine query v)
      then maximum_from query rest (id, cosine query v)
      else maximum_from query rest best
  end.

Definition match_by_spec (threshold : R) (cache : list (string * list R))
    (query : list R) : option string * R :=
  match cache with
  | [] => (None, 0)
  | (id, v) :: rest =>
      let best := maximum_from query rest (id, cosine query v) in
      if Rle_dec threshold (snd best) then (Some (fst best), snd best)
      else (None, snd best)
  end.

(** What the scan of [recognize_face] computes: the largest of 0 and the
    similarities, and the first enrolled subject at a given
    similarity. *)
Definition floored_best (query : list R) (cache : list (string * list R))
    (floor : R) : R :=
  fold_left (λ b e, Rmax b (cosine query e.2)) cache floor.

Fixpoint first_at (query : list R) (s : R) (cache : list (string * list R))
    : option string :=
  match cache with
  | [] => None
  | (id, v) :: rest =>
      if Req_dec_T (cosine query v) s then Some id
      else first_at query s rest
  end.

(** The pairs [(l[i], l[j])] with [i < j], in the order of the double
    loop of [enroll_employee]. *)
Fixpoint unordered_pairs {A} (l : list A) : list (A * A) :=
  match l with
  | [] => []
  | x :: rest => map (λ y, (x, y)) rest ++ unordered_pairs rest
  end.

(** What a file of the enrollment directory contributes to the cache on
    loading: its id and vector, when the file parses and both are
    non-empty. *)
Definition loadable (file : string * option EmbeddingData)
    : option (string * list R) :=
  match file.2 with
  | Some data =>
      match f_employee_id data with
      | Some id =>
          if Py.truthy (Some id) && (0 <? length (f_embedding data))%nat
          then Some (id, f_embedding data) else None
      | None => None
      end
  | None => None
  end.




End Matching.

(** ** [core/database/database.py]: the employees table *)

Module Directory.

Import Sys.

(** [types.Employee] *)
Record Employee := {
  employee_id : string;
  name : string;
  department : string;
  shift : option string;
  embedding : option (list Q);
  consent_given : bool;
  active : bool
}.

(** A row of [employees]: the columns the INSERT writes. *)
Record Row := {
  r_name : string;
  r_department : string;
  r_shift : option string;
  r_consent_given : Z;
  r_active : Z
}.

(** The table, by its primary key [employee_id]. *)
Abbreviation Table := (gmap string Row).

(** The successful branch of [add_employee]: INSERT OR REPLACE. *)
Definition insert_or_replace (e : Employee) (t : Table) : Table :=
  <[employee_id e :=
      {| r_name := name e; r_department := department e;
         r_shift := shift e;
         r_consent_given := if consent_given e then 1 else 0;
         r_active := if active e then 1 else 0 |}]> t.

(** [add_employee]; [failed] tells whether the INSERT raised. *)
Definition add_employee (failed : bool) (e : Employee) (t : Table)
    : bool * Table :=
  if failed then (false, t) else (true, insert_or_replace e t).

(** The [Employee(...)] built from a row; [embedding] keeps its
    default. *)
Definition of_row (id : string) (r : Row) : Employee :=
  {| employee_id := id; name := r_name r; department := r_department r;
     shift := r_shift r; embedding := None;
     consent_given := negb (r_consent_given r =? 0);
     active := negb (r_active r =? 0) |}.

Definition get_employee (id : string) (t : Table) : option Employee :=
  of_row id <$> t !! id.

(** [ORDER BY name] under SQLite's binary collation. *)
Definition by_name (a b : Employee) : Prop :=
  String.leb (name a) (name b) = true.

#[global] Instance by_name_dec (a b : Employee) : Decision (by_name a b) :=
  decide (String.leb (name a) (name b) = true).

(** [get_all_employees]: [WHERE active = 1] is a test on the column. *)
Definition get_all_employees (active_only : bool) (t : Table)
    : list Employee :=
  let rows := map_to_list t in
  let selected :=
    if active_only then filter (λ kr, r_active kr.2 = 1) rows else rows in
  merge_sort by_name (map (λ kr, of_row kr.1 kr.2) selected).

End Directory.

(** ** [core/services/report_generator.py]: reading reports back *)

Module ReportQueries.

Import Store Sys.

(** [get_latest_report]:
    [SELECT report_data FROM reports_15min ORDER BY timestamp DESC LIMIT 1]. *)
Definition get_latest_report : M (option Report) :=
  d ← get_db;
  mret (head (order_desc r_timestamp (reports d))).

(** [should_generate_report], on the generator's [last_report_time]. *)
Definition should_generate_report (last_report_time : option Z)
    : M bool :=
  match last_report_time with
  | None => mret true
  | Some last =>
      now ← read_clock;
      interval ← get_interval;
      mret (Qle_bool (inject_Z interval) (Alerts.elapsed_minutes now last))
  end.

End ReportQueries.

(** ** [core/detectors/emotion_analyzer.py], [face_detector.py] and the
    frame loop of [VideoThread.run]

    DeepFace and MediaPipe are external: what they return is an input
    here. *)

Module Detectors.

(** [types.FaceRegion] *)
Record FaceRegion := {
  x : Z;
  y : Z;
  width : Z;
  height : Z;
  fr_confidence : Q
}.

Definition bbox (f : FaceRegion) : Z * Z * Z * Z :=
  (x f, y f, width f, height f).

(** [(self.x + self.width // 2, self.y + self.height // 2)] *)
Definition center (f : FaceRegion) : Z * Z :=
  (x f + width f / 2, y f + height f / 2).

(** [types.EmotionResult] *)
Record EmotionResult := {
  er_emotion : string;
  er_confidence : Q;
  er_probabilities : list (string * Q);
  er_timestamp : Z
}.

(** [d.get(k, 0)] on a dict of numbers. *)
Definition get_or_zero (k : string) (d : list (string * Q)) : Q :=
  default 0%Q (Py.dict_lookup k d).

(** [emotion_map.get(emotion, 'neutral')] *)
Definition base_emotion (emotion : string) : string :=
  if existsb (String.eqb emotion)
       ["angry"; "fear"; "sad"; "disgust"; "happy"; "surprise"; "neutral"]
  then emotion else "neutral".

Definition stress_score (probabilities : list (string * Q)) : Q :=
  (get_or_zero "angry" probabilities * (4 # 10)
   + get_or_zero "fear" probabilities * (3 # 10)
   + get_or_zero "sad" probabilities * (3 # 10))%Q.

Definition fatigue_score (probabilities : list (string * Q)) : Q :=
  (get_or_zero "neutral" probabilities * (6 # 10)
   + get_or_zero "sad" probabilities * (4 # 10))%Q.

Definition _map_emotion (emotion : string)
    (probabilities : list (string * Q)) : string :=
  if negb (Qle_bool (stress_score probabilities) (6 # 10)) then "stress_high"
  else if negb (Qle_bool (stress_score probabilities) (4 # 10))
       then "stress_low"
  else if negb (Qle_bool (fatigue_score probabilities) (7 # 10))
          && negb (Qle_bool (get_or_zero "neutral" probabilities) (5 # 10))
       then "fatigue"
  else base_emotion emotion.

(** What [DeepFace.analyze] returned, after [analysis[0]] when it is a
    list: the ['emotion'] dict of percentages and the
    ['dominant_emotion'] entry, each possibly missing. *)
Record Analysis := {
  an_emotion : option (list (string * Q));
  an_dominant_emotion : option string
}.

(** [analyze_face]; [analysis] is [None] when DeepFace raised, [now] is
    the reading of [time.time()]. *)
Definition analyze_face (now : Z) (analysis : option Analysis)
    : EmotionResult :=
  match analysis with
  | Some a =>
      let emotions := default [] (an_emotion a) in
      let dominant_emotion := default "neutral" (an_dominant_emotion a) in
      let confidence := (get_or_zero dominant_emotion emotions / 100)%Q in
      let probabilities := map (λ kv, (kv.1, (kv.2 / 100)%Q)) emotions in
      {| er_emotion := _map_emotion dominant_emotion probabilities;
         er_confidence := confidence;
         er_probabilities := probabilities;
         er_timestamp := now |}
  | None =>
      {| er_emotion := "neutral"; er_confidence := 0;
         er_probabilities := []; er_timestamp := now |}
  end.

(** [int(q)]: truncation towards zero. *)
Definition int_of (q : Q) : Z := Z.quot (Qnum q) (Z.pos (Qden q)).

(** One entry of MediaPipe's [results.detections]: the relative bounding
    box and the score. *)
Record RelativeDetection := {
  xmin : Q;
  ymin : Q;
  rel_width : Q;
  rel_height : Q;
  score : Q
}.

(** [_detect_mediapipe] on a frame of [h] rows and [w] columns. *)
Definition _detect_mediapipe (min_face_size : Z) (h w : Z)
    (detections : list RelativeDetection) : list FaceRegion :=
  omap
    (λ d,
       let x := int_of (xmin d * inject_Z w) in
       let y := int_of (ymin d * inject_Z h) in
       let width := int_of (rel_width d * inject_Z w) in
       let height := int_of (rel_height d * inject_Z h) in
       if (min_face_size <=? width) && (min_face_size <=? height)
       then Some {| x := x; y := y; width := width; height := height;
                    fr_confidence := score d |}
       else None)
    detections.

(** The number of indices selected by [a[start:stop]] on an axis of
    length [n]. *)
Definition slice_index (i n : Z) : Z :=
  if i <? 0 then Z.max 0 (i + n) else Z.min i n.

Definition slice_len (start stop n : Z) : Z :=
  Z.max 0 (slice_index stop n - slice_index start n).

(** [frame[y:y+h, x:x+w].size] on a frame of [rows] by [cols] pixels. *)
Definition roi_size (rows cols : Z) (f : FaceRegion) : Z :=
  slice_len (y f) (y f + height f) rows
  * slice_len (x f) (x f + width f) cols.

(** The faces of a frame that [VideoThread.run] hands to the analysers:
    [if face_roi.size > 0]. *)
Definition analysed_faces (rows cols : Z) (faces : list FaceRegion)
    : list FaceRegion :=
  filter (λ f, 0 < roi_size rows cols f) faces.

(** [analyze_multiple_faces]: the corners of the padded ROI. *)
Definition padded_corners (rows cols : Z) (f : FaceRegion)
    : Z * Z * Z * Z :=
  let padding := 10 in
  (Z.max 0 (x f - padding), Z.max 0 (y f - padding),
   Z.min cols (x f + width f + padding),
   Z.min rows (y f + height f + padding)).

End Detectors.

(** ** [MainWindow.process_detections] *)

Module Pipeline.

Import Store Sys Detectors.

(** [types.DetectionResult]; the recognition confidence, age and gender
    play no part below. *)
Record DetectionResult := {
  face_region : FaceRegion;
  emotion : EmotionResult;
  dr_employee_id : option string;
  dr_track_id : option Z
}.

(** The body of the loop for one detection. *)
Definition process_detection (current_session_id : option string)
    (detection : DetectionResult) : M unit :=
  _ ← Sys.add_emotion (er_emotion (emotion detection))
        (dr_employee_id detection) (er_confidence (emotion detection));
  c ← get_calc;
  let stress_level :=
    (Stress.calculate_stress_index c (dr_employee_id detection) None
     / 100)%Q in
  now ← read_clock;
  _ ← db_add_detection
        {| detection_id := None; session_id := current_session_id;
           d_employee_id := dr_employee_id detection;
           track_id := dr_track_id detection;
           d_timestamp := now;
           d_emotion := Some (er_emotion (emotion detection));
           d_confidence := er_confidence (emotion detection);
           d_stress_level := Some stress_level |};
  mret tt.

Fixpoint process_detections (current_session_id : option string)
    (detections : list DetectionResult) : M unit :=
  match detections with
  | [] => mret tt
  | detection :: rest =>
      _ ← process_detection current_session_id detection;
      process_detections current_session_id rest
  end.

End Pipeline.

(** ** Vocabulary of the invariants *)

Module Invariants.

Import Store Stress.

(** No deque is longer than [max_history]. *)
Definition bounded (c : StressCalculator) : Prop :=
  (length (global_history c) ≤ max_history c)%nat
  ∧ ∀ e h, employee_histories c !! e = Some h →
           (length h ≤ max_history c)%nat.

(** [l.count(e)] *)
Definition count_of (e : string) (l : list string) : nat :=
  length (filter (λ x, x = e) l).

(** The ids of the alert rows are distinct, positive and not above the
    AUTOINCREMENT counter. *)
Definition ids_fresh (d : Database) : Prop :=
  NoDup (map alert_id (alerts d))
  ∧ Forall (λ a, 0 < alert_id a ∧ alert_id a ≤ Z.of_N (alert_seq d))
           (alerts d).

(** Between [d] and [d'] the rows [new] were added to the alerts table,
    in this order and with the next ids of the AUTOINCREMENT counter;
    no other alert row changed. *)
Definition appended (d d' : Database) (new : list Alert) : Prop :=
  alerts d' = alerts d ++ new
  ∧ alert_seq d' = (alert_seq d + N.of_nat (length new))%N
  ∧ ∀ i a, new !! i = Some a →
           alert_id a = Z.of_N (alert_seq d) + Z.of_nat i + 1.

(** An alert as the manager creates it for scope [eid]. *)
Definition as_created (eid : option string) (a : Alert) : Prop :=
  status a = PENDING ∧ a_employee_id a = eid ∧ severity a ≠ LOW
  ∧ resolved_at a = None ∧ resolved_by a = None.

(** The condition under which [_check_fatigue] goes on to the cooldown
    test, on the samples of the last hour before the reading [now]. *)
Definition fatigue_due (c : StressCalculator) (eid : option string)
    (now : Z) : Prop :=
  let recent :=
    filter (λ s, now - 1 * 3600 * 1000000 ≤ timestamp s)
           (select_history c eid) in
  let labels := map Stress.emotion recent in
  (15 ≤ count_of "fatigue" labels
   ∨ 20 ≤ count_of "fatigue" labels + count_of "neutral" labels)%nat.

(** Between [w] and [w'] the calculator, the detection and report tables
    and the report interval were left alone. *)
Definition framed (w w' : Sys.World) : Prop :=
  Sys.calc w' = Sys.calc w
  ∧ detection_events (Sys.db w') = detection_events (Sys.db w)
  ∧ detection_seq (Sys.db w') = detection_seq (Sys.db w)
  ∧ reports (Sys.db w') = reports (Sys.db w)
  ∧ Sys.report_interval_minutes w' = Sys.report_interval_minutes w.

End Invariants.

(** ** Vocabulary of the stress index *)

Module Scoring.

Import Stress.

(** The fixed negative-label set of the specification. *)
Definition negative_labels : list string :=
  ["angry"; "fear"; "sad"; "disgust"; "stress_high"; "fatigue"].

(** The number of samples that carry a negative label. *)
Definition negatives (l : list Sample) : nat :=
  length (filter (λ s, emotion s ∈ negative_labels) l).

(** The most recent [n] samples of a history, all of them when it holds
    fewer. *)
Definition most_recent {A} (n : nat) (l : list A) : list A :=
  drop (length l - n) l.

(** The history of a scope: the global one for the global scope, the
    subject's own one for a subject that has one, and the global one for
    a subject without history (and for the empty identifier). *)
Definition scope_history (c : StressCalculator) (scope : option string)
    (h : list Sample) : Prop :=
  (scope = None ∧ h = global_history c)
  ∨ (∃ e, scope = Some e ∧ e ≠ "" ∧ employee_histories c !! e = Some h)
  ∨ (∃ e, scope = Some e ∧ (e = "" ∨ employee_histories c !! e = None)
          ∧ h = global_history c).

(** The window of a call is [n]: the caller's argument when one is given
    and is not 0, the configured size otherwise. *)
Definition effective_window (c : StressCalculator) (window : option Z)
    (n : nat) : Prop :=
  (window = Some (Z.of_nat n) ∧ n ≠ 0%nat)
  ∨ ((window = None ∨ window = Some 0) ∧ window_size c = Z.of_nat n).

(** [v] is [x] rounded to two decimals: a multiple of 0.01 no further
    than 0.005 from [x] (at a tie, either neighbour). *)
Definition rounded_2 (x v : Q) : Prop :=
  ∃ k : Z, v = k # 100 ∧ (Qabs (v - x) <= 1 # 200)%Q.

(** The share of negative samples in [l], as a percentage. *)
Definition negative_share (l : list Sample) : Q :=
  100 * (inject_Z (Z.of_nat (negatives l)) / inject_Z (Z.of_nat (length l))).

(** The stress index of history [h] for a window of [n] samples, in the
    words of the specification. *)
Definition index_of (h : list Sample) (n : nat) (v : Q) : Prop :=
  ((length h < 5)%nat → v = 0%Q)
  ∧ ((5 ≤ length h)%nat → rounded_2 (negative_share (most_recent n h)) v).

End Scoring.

(** * Scenarios

    Concrete stores on which the services are run below. *)

Module Scenarios.

Import Stress.

Definition sample (e : string) : Sample :=
  {| emotion := e; timestamp := 0; confidence := 1 |}.

(** Scope "E1": 31 observations, 16 of the last 30 are negative. *)
Definition history_E1 : list Sample :=
  sample "sad" :: repeat (sample "happy") 14 ++ repeat (sample "angry") 16.

Definition calc_E1 : StressCalculator :=
  {| max_history := 100; window_size := 30;
     employee_histories := {[ "E1" := history_E1 ]};
     global_history := history_E1; stress_events := [] |}.

(** Two scopes: "A" holds four negative samples, "B" holds five samples
    of which one is negative. *)
Definition calc_AB : StressCalculator :=
  {| max_history := 100; window_size := 30;
     employee_histories :=
       {[ "A" := repeat (sample "angry") 4;
          "B" := sample "happy" :: sample "angry" :: repeat (sample "happy") 3 ]};
     global_history := [];
     stress_events := [] |}.

(** Scope "E1" in a calculator configured for a window of 10. *)
Definition calc_narrow : StressCalculator :=
  {| max_history := 100; window_size := 10;
     employee_histories := {[ "E1" := history_E1 ]};
     global_history := []; stress_events := [] |}.

(** Only the global deque is filled; no subject was ever identified. *)
Definition calc_global : StressCalculator :=
  {| max_history := 100; window_size := 30;
     employee_histories := ∅;
     global_history := history_E1; stress_events := [] |}.

(** Ten detections of scope "E1" with stress level 0.8, one per second
    from second 1 on. *)
Definition detection_E1 (second : Z) : DetectionEvent :=
  {| detection_id := Some second; session_id := Some "session";
     d_employee_id := Some "E1"; track_id := None;
     d_timestamp := second * 1000000; d_emotion := Some "angry";
     d_confidence := 9 # 10; d_stress_level := Some (8 # 10) |}.

Definition db_E1 : Store.Database :=
  {| Store.detection_events := map detection_E1 [1; 2; 3; 4; 5; 6; 7; 8; 9; 10];
     Store.detection_seq := 10;
     Store.alerts := []; Store.alert_seq := 0; Store.reports := [] |}.

(** The process one minute after start: thresholds as configured in
    [config.py], no alert fired yet, the clock advancing one second
    before each of its next readings, no write failing. *)
Definition world_E1 : Sys.World :=
  {| Sys.clock := 60 * 1000000;
     Sys.ticks := repeat 1000000%N 40;
     Sys.faults := [];
     Sys.db := db_E1;
     Sys.calc := calc_E1;
     Sys.mgr := {| Sys.alert_threshold := 10;
                   Sys.alert_window_minutes := 15;
                   Sys.cooldown_minutes := 60;
                   Sys.last_alert_times := ∅ |};
     Sys.report_interval_minutes := 15 |}.

(** The same process when the next write to SQLite raises. *)
Definition world_E1_faulty : Sys.World :=
  {| Sys.clock := Sys.clock world_E1; Sys.ticks := Sys.ticks world_E1;
     Sys.faults := [true];
     Sys.db := Sys.db world_E1; Sys.calc := Sys.calc world_E1;
     Sys.mgr := Sys.mgr world_E1;
     Sys.report_interval_minutes := 15 |}.

(** After the first evaluation of scope "E1". *)
Definition world_E1_fired : Sys.World :=
  Sys.final (Alerts.check_and_generate_alerts (Some "E1") world_E1).

(** The alert of scope "E1", resolved by alice at second 70. *)
Definition alert_resolved : Alert :=
  {| alert_id := 1; a_employee_id := Some "E1";
     alert_type := HIGH_STRESS_PROLONGED; severity := MEDIUM;
     a_stress_level := 8 # 10; a_timestamp := 62000000;
     status := RESOLVED;
     message := "Empleado E1 muestra niveles altos de estrés prolongado";
     resolved_at := Some 70000000; resolved_by := Some "alice" |}.

(** The process at second 100, that alert being its only one. *)
Definition world_resolved : Sys.World :=
  {| Sys.clock := 100 * 1000000;
     Sys.ticks := repeat 1000000%N 40;
     Sys.faults := [];
     Sys.db := {| Store.detection_events := Store.detection_events db_E1;
                  Store.detection_seq := 10;
                  Store.alerts := [alert_resolved];
                  Store.alert_seq := 1; Store.reports := [] |};
     Sys.calc := calc_E1;
     Sys.mgr := Sys.mgr world_E1;
     Sys.report_interval_minutes := 15 |}.

(** The process one hour after start: the detections of scope "E1" are
    older than the report interval. *)
Definition world_late : Sys.World :=
  {| Sys.clock := 3600 * 1000000;
     Sys.ticks := repeat 1000000%N 40;
     Sys.faults := [];
     Sys.db := db_E1;
     Sys.calc := calc_E1;
     Sys.mgr := Sys.mgr world_E1;
     Sys.report_interval_minutes := 15 |}.

(** A perception collaborator that hands the embedding over as it is:
    the "image" is its own embedding. *)
Definition extractor (roi : list R) : option (list R) := Some roi.

(** One subject enrolled with the unit vector of dimension one. *)
Definition registry_A : Recognizer.FaceRecognizer :=
  {| Recognizer.threshold := (70 / 100)%R;
     Recognizer.embeddings_cache := [("A", [1%R])];
     Recognizer.enrollment_files := [] |}.

(** An enrollment directory holding one file, whose vector is zero. *)
Definition directory_Z : Recognizer.FaceRecognizer :=
  {| Recognizer.threshold := (70 / 100)%R;
     Recognizer.embeddings_cache := [];
     Recognizer.enrollment_files :=
       [("Z_embedding.json",
         Some {| Recognizer.f_employee_id := Some "Z";
                 Recognizer.f_embedding := [0%R];
                 Recognizer.f_quality_score := 1%R;
                 Recognizer.f_num_samples := 3 |})] |}.

(** The recognizer after [_load_embeddings] on that directory. *)
Definition registry_Z : Recognizer.FaceRecognizer :=
  Recognizer._load_embeddings directory_Z.

End Scenarios.

(** * Verification *)

(** ** Rounding *)

Section Rounding.

Local Open Scope Q_scope.

Lemma round_half_even_proper (x y : Q) :
  x == y → Py.round_half_even x = Py.round_half_even y.
Proof.
  intros E. unfold Py.round_half_even.
  rewrite (Qfloor_comp _ _ E).
  assert (E' : x - inject_Z (Qfloor y) == y - inject_Z (Qfloor y))
    by (rewrite E; reflexivity).
  rewrite (Qcompare_comp _ _ E' (1 # 2) (1 # 2) (Qeq_refl _)). reflexivity.
Qed.

Lemma floor_inject (z : Z) : Qfloor (inject_Z z) = z.
Proof. unfold Qfloor, inject_Z. apply Z.div_1_r. Qed.

Lemma round_half_even_inject (z : Z) : Py.round_half_even (inject_Z z) = z.
Proof.
  unfold Py.round_half_even. rewrite floor_inject.
  assert (E : inject_Z z - inject_Z z == 0) by ring.
  rewrite (Qcompare_comp _ _ E (1 # 2) (1 # 2) (Qeq_refl _)). reflexivity.
Qed.

(** The rounded value is one of the two integers around [x]. *)
Lemma round_half_even_range (x : Q) :
  (Qfloor x ≤ Py.round_half_even x ≤ Qfloor x + 1)%Z.
Proof.
  unfold Py.round_half_even.
  destruct (Qcompare _ _); [destruct (Z.even _)|..]; lia.
Qed.

Lemma round_half_even_mono (x y : Q) :
  x <= y → (Py.round_half_even x ≤ Py.round_half_even y)%Z.
Proof.
  intros L.
  pose proof (Qfloor_resp_le _ _ L) as F.
  destruct (Z.eq_dec (Qfloor x) (Qfloor y)) as [E | N].
  - unfold Py.round_half_even. rewrite E.
    assert (L' : x - inject_Z (Qfloor y) <= y - inject_Z (Qfloor y)).
    { apply Qplus_le_l. exact L. }
    destruct (Qcompare (x - inject_Z (Qfloor y)) (1 # 2)) eqn:Cx;
      destruct (Qcompare (y - inject_Z (Qfloor y)) (1 # 2)) eqn:Cy;
      try (destruct (Z.even (Qfloor y)); lia); try lia.
    + apply Qeq_alt in Cx. apply Qlt_alt in Cy.
      exfalso. rewrite Cx in L'. apply (Qlt_irrefl (1 # 2)).
      eapply Qle_lt_trans; eassumption.
    + apply Qgt_alt in Cx. apply Qeq_alt in Cy.
      exfalso. rewrite Cy in L'. apply (Qlt_irrefl (1 # 2)).
      eapply Qlt_le_trans; eassumption.
    + apply Qgt_alt in Cx. apply Qlt_alt in Cy.
      exfalso. apply (Qlt_irrefl (1 # 2)).
      eapply Qlt_trans; [exact Cx|]. eapply Qle_lt_trans; eassumption.
  - pose proof (round_half_even_range x). pose proof (round_half_even_range y).
    lia.
Qed.

Lemma round2_proper (x y : Q) : x == y → Py.round2 x = Py.round2 y.
Proof.
  intros E. unfold Py.round2. f_equal.
  apply round_half_even_proper. rewrite E. reflexivity.
Qed.

Lemma round2_mono (x y : Q) : x <= y → Py.round2 x <= Py.round2 y.
Proof.
  intros L. unfold Py.round2, Qle. simpl.
  apply Z.mul_le_mono_nonneg_r; [lia|].
  apply round_half_even_mono. apply Qmult_le_compat_r; [exact L | discriminate].
Qed.

Lemma round2_bounds (x : Q) :
  0 <= x → x <= 100 → 0 <= Py.round2 x ∧ Py.round2 x <= 100.
Proof.
  intros L U.
  assert (Z0 : Py.round2 0 = 0 # 100) by reflexivity.
  assert (Z100 : Py.round2 100 = 10000 # 100) by reflexivity.
  split.
  - apply Qle_trans with (Py.round2 0); [rewrite Z0; discriminate|].
    apply round2_mono, L.
  - apply Qle_trans with (Py.round2 100); [|rewrite Z100; discriminate].
    apply round2_mono, U.
Qed.

End Rounding.

(** ** The stress index *)

Section StressIndex.

Import Stress.

Lemma negative_count_le (l : list Sample) :
  (negative_count l ≤ length l)%nat.
Proof. unfold negative_count. apply length_filter. Qed.

Lemma select_history_global (c : StressCalculator) :
  select_history c None = global_history c.
Proof. reflexivity. Qed.

Lemma select_history_known (c : StressCalculator) (e : string) h :
  e ≠ "" → employee_histories c !! e = Some h →
  select_history c (Some e) = h.
Proof.
  intros Hne Hh. unfold select_history, Py.truthy.
  destruct (String.eqb_spec e ""); [contradiction|]. simpl. now rewrite Hh.
Qed.

Lemma select_history_unknown (c : StressCalculator) (e : string) :
  employee_histories c !! e = None →
  select_history c (Some e) = global_history c.
Proof.
  intros Hh. unfold select_history.
  destruct (Py.truthy (Some e)); [now rewrite Hh | reflexivity].
Qed.

(** The value before rounding lies between 0 and 100. *)
Lemma ratio_bounds (n t : nat) :
  (n ≤ t)%nat → (0 < t)%nat →
  (0 <= inject_Z (Z.of_nat n) / inject_Z (Z.of_nat t) * 100
   ∧ inject_Z (Z.of_nat n) / inject_Z (Z.of_nat t) * 100 <= 100)%Q.
Proof.
  intros Hn Ht.
  assert (Hpos : (0 < inject_Z (Z.of_nat t))%Q).
  { rewrite <- (Zlt_Qlt 0). lia. }
  split.
  - apply Qmult_le_0_compat; [|discriminate].
    apply Qle_shift_div_l; [exact Hpos|].
    rewrite Qmult_0_l, <- (Zle_Qle 0). lia.
  - apply Qle_trans with (1 * 100)%Q; [|discriminate].
    apply Qmult_le_compat_r; [|discriminate].
    apply Qle_shift_div_r; [exact Hpos|].
    rewrite Qmult_1_l, <- Zle_Qle. lia.
Qed.

Lemma ratio_mono (n1 n2 t : nat) :
  (n2 ≤ n1)%nat → (0 < t)%nat →
  (inject_Z (Z.of_nat n2) / inject_Z (Z.of_nat t) * 100
   <= inject_Z (Z.of_nat n1) / inject_Z (Z.of_nat t) * 100)%Q.
Proof.
  intros Hn Ht.
  assert (Hpos : (0 < inject_Z (Z.of_nat t))%Q).
  { rewrite <- (Zlt_Qlt 0). lia. }
  apply Qmult_le_compat_r; [|discriminate].
  unfold Qdiv. apply Qmult_le_compat_r.
  - rewrite <- Zle_Qle. lia.
  - apply Qlt_le_weak, Qinv_lt_0_compat, Hpos.
Qed.

Lemma index_of_recent_bounds (l : list Sample) :
  (0 <= index_of_recent l ∧ index_of_recent l <= 100)%Q.
Proof.
  unfold index_of_recent.
  destruct (Nat.eqb_spec (length l) 0) as [_ | Hne].
  - split; discriminate.
  - apply round2_bounds; apply ratio_bounds;
      auto using negative_count_le with lia.
Qed.

Lemma index_of_recent_mono (l1 l2 : list Sample) :
  length l1 = length l2 →
  (negative_count l2 ≤ negative_count l1)%nat →
  (index_of_recent l2 <= index_of_recent l1)%Q.
Proof.
  intros Hlen Hneg. unfold index_of_recent. rewrite Hlen.
  destruct (Nat.eqb_spec (length l2) 0) as [_ | Hne].
  - apply Qle_refl.
  - apply round2_mono, ratio_mono; [exact Hneg | lia].
Qed.

(** C5, as stated, fails: scope "A" holds four samples, all negative,
    scope "B" five samples with one negative among its last four; the
    two windows of size 4 have equal sample counts and A's has more
    negatives, yet A's index is 0.0 (fewer than 5 samples in its
    history) and B's is 25.0. *)
Lemma monotonicity_needs_five_samples :
  ¬ (∀ c1 e1 w1 c2 e2 w2,
       length (recent c1 w1 (select_history c1 e1))
       = length (recent c2 w2 (select_history c2 e2)) →
       (negative_count (recent c2 w2 (select_history c2 e2))
        ≤ negative_count (recent c1 w1 (select_history c1 e1)))%nat →
       (calculate_stress_index c2 e2 w2
        <= calculate_stress_index c1 e1 w1)%Q).
Proof.
  intros H.
  specialize (H Scenarios.calc_AB (Some "A") (Some 4)
                Scenarios.calc_AB (Some "B") (Some 4)).
  assert (E1 : calculate_stress_index Scenarios.calc_AB (Some "A") (Some 4)
               = 0%Q) by reflexivity.
  assert (E2 : calculate_stress_index Scenarios.calc_AB (Some "B") (Some 4)
               = 2500 # 100) by reflexivity.
  rewrite E1, E2 in H.
  assert (L : (2500 # 100 <= 0)%Q).
  { apply H; vm_compute; [reflexivity | lia]. }
  revert L. vm_compute. intros L. now apply L.
Qed.

(** C5, amended.  The stress index lies in [0,100] for every scope and
    every window argument; and for two windows of equal sample count, the
    first holding at least as many negative-labelled samples as the
    second, the index of the first is at least that of the second
    provided the history the first window is cut from holds at least 5
    samples. *)
Theorem stress_index_bounds_and_monotone :
  (∀ c e w, (0 <= calculate_stress_index c e w
             ∧ calculate_stress_index c e w <= 100)%Q)
  ∧ (∀ c1 e1 w1 c2 e2 w2,
       length (recent c1 w1 (select_history c1 e1))
       = length (recent c2 w2 (select_history c2 e2)) →
       (negative_count (recent c2 w2 (select_history c2 e2))
        ≤ negative_count (recent c1 w1 (select_history c1 e1)))%nat →
       (5 ≤ length (select_history c1 e1))%nat →
       (calculate_stress_index c2 e2 w2
        <= calculate_stress_index c1 e1 w1)%Q).
Proof.
  split.
  - intros c e w. unfold calculate_stress_index.
    destruct (_ <? _)%nat; [split; discriminate|].
    apply index_of_recent_bounds.
  - intros c1 e1 w1 c2 e2 w2 Hlen Hneg H5.
    unfold calculate_stress_index.
    destruct (Nat.ltb_spec (length (select_history c1 e1)) 5); [lia|].
    destruct (_ <? _)%nat.
    + apply index_of_recent_bounds.
    + now apply index_of_recent_mono.
Qed.

Lemma stress_index_bounds_and_monotone_witness :
  Qle (calculate_stress_index Scenarios.calc_AB (Some "B") (Some 4))
      (calculate_stress_index Scenarios.calc_E1 (Some "E1") (Some 4)).
Proof.
  apply (proj2 stress_index_bounds_and_monotone
           Scenarios.calc_E1 (Some "E1") (Some 4)
           Scenarios.calc_AB (Some "B") (Some 4));
    vm_compute; first [reflexivity | lia].
Defined.

End StressIndex.

(** Running a computation of [Sys.M] one layer at a time. *)
Ltac run_m :=
  repeat (progress
    (unfold mbind, Sys.M_bind, mret, Sys.M_ret, Sys.get_mgr, Sys.get_db,
       Sys.get_calc, Sys.get_interval, Sys.put_db, Sys.put_calc, Sys.raise,
       Sys.read_clock, Sys.next_fault, Sys.set_last_alert_time;
     cbn [Sys.clock Sys.ticks Sys.faults Sys.db Sys.calc Sys.mgr
          Sys.report_interval_minutes Sys.final
          Sys.alert_threshold Sys.alert_window_minutes Sys.cooldown_minutes
          Sys.last_alert_times])).

(** Readings of the clock never go back. *)
Ltac clock_le :=
  unfold Sys.next_reading; cbn [Sys.clock Sys.ticks Sys.final]; lia.

(** ** Cooldown of the alert manager *)

Section CooldownProofs.

Import Store Sys Alerts Cooldown.

Lemma elapsed_spec (cd now T : Z) :
  Qle_bool (inject_Z cd) (elapsed_minutes now T) = (T + cd * minute <=? now).
Proof.
  unfold Qle_bool, elapsed_minutes, minute. simpl.
  apply eq_true_iff_eq. rewrite !Z.leb_le. lia.
Qed.

Lemma effect_refl w : effect w w.
Proof.
  split; [lia|]. split; [done|]. intros key. left. done.
Qed.

Lemma ids_for_length_mono key w w' :
  untouched key w w' ∨ fired key w w' →
  (length (ids_for key (db w)) ≤ length (ids_for key (db w')))%nat.
Proof.
  intros [[_ ->] | (tg & t & _ & _ & _ & _ & _ & H)]; lia.
Qed.

Lemma effect_trans w1 w2 w3 : effect w1 w2 → effect w2 w3 → effect w1 w3.
Proof.
  intros (C1 & (Ca1 & Cb1 & Cc1) & K1) (C2 & (Ca2 & Cb2 & Cc2) & K2).
  split; [lia|]. split; [unfold same_config; repeat split; congruence|].
  intros key.
  destruct (K1 key) as [[L1 I1] | (tg1 & t1 & A1 & B1 & D1 & E1 & F1 & G1)];
    destruct (K2 key) as [[L2 I2] | (tg2 & t2 & A2 & B2 & D2 & E2 & F2 & G2)].
  - left. split; congruence.
  - right. exists tg2, t2. repeat split; try lia; try congruence.
    unfold eligible in *. rewrite <- L1, <- Cc1. exact E2.
  - right. exists tg1, t1. repeat split; try lia; try congruence.
  - right. exists tg1, t2. repeat split; try lia; try congruence.
Qed.

Lemma add_alert_id_nonzero a d : (Store.add_alert a d).1 ≠ 0.
Proof. unfold Store.add_alert. simpl. lia. Qed.

Lemma ids_for_add_alert key a d :
  ids_for key (Store.add_alert a d).2
  = ids_for key d
    ++ (if decide (key_of_alert a = key) then [(Store.add_alert a d).1] else []).
Proof.
  unfold ids_for, Store.add_alert. simpl.
  rewrite filter_app, map_app. f_equal.
  rewrite filter_cons, filter_nil.
  change (key_of_alert _) with (key_of_alert a).
  destruct (decide (key_of_alert a = key)); reflexivity.
Qed.


Lemma next_reading_ge w : clock w ≤ next_reading w.
Proof. unfold next_reading. lia. Qed.

Lemma high_stress_key_of eid a :
  alert_type a = HIGH_STRESS_PROLONGED → a_employee_id a = eid →
  key_of_alert a = high_stress_key eid.
Proof. intros H1 H2. unfold key_of_alert. now rewrite H1, H2. Qed.

Lemma fatigue_key_of eid a :
  alert_type a = FATIGUE_DETECTED → a_employee_id a = eid →
  key_of_alert a = fatigue_key eid.
Proof. intros H1 H2. unfold key_of_alert. now rewrite H1, H2. Qed.

Lemma keys_differ e1 e2 : high_stress_key e1 ≠ fatigue_key e2.
Proof. unfold high_stress_key, fatigue_key. simpl. discriminate. Qed.

(** Nothing happened to the manager or to the identity of the alert
    rows. *)
Lemma effect_quiet_ids w w' :
  clock w ≤ clock w' → mgr w' = mgr w →
  (∀ key, ids_for key (db w') = ids_for key (db w)) →
  effect w w' ∧ ∀ key, untouched key w w'.
Proof.
  intros Hc Hm Ha.
  assert (U : ∀ key, untouched key w w').
  { intros key. unfold untouched. now rewrite Hm, Ha. }
  split; [|exact U].
  split; [exact Hc|]. split; [now rewrite Hm|]. intros key. left. apply U.
Qed.

Lemma effect_quiet w w' :
  clock w ≤ clock w' → mgr w' = mgr w → alerts (db w') = alerts (db w) →
  effect w w' ∧ ∀ key, untouched key w w'.
Proof.
  intros Hc Hm Ha. apply effect_quiet_ids; [done..|].
  intros key. unfold ids_for. now rewrite Ha.
Qed.

(** An alert row was inserted under [key] and the entry of [key] set. *)
Lemma effect_fire w w' key a tg t :
  clock w ≤ tg → tg ≤ t → t ≤ clock w' →
  eligible (mgr w) key tg → key_of_alert a = key →
  same_config (mgr w) (mgr w') →
  last_alert_times (mgr w') = <[key := t]> (last_alert_times (mgr w)) →
  db w' = (Store.add_alert a (db w)).2 →
  effect w w' ∧ ∀ key', key' ≠ key → untouched key' w w'.
Proof.
  intros H1 H2 H3 He Hk Hc Hl Hd.
  assert (U : ∀ key', key' ≠ key → untouched key' w w').
  { intros key' Hne. unfold untouched.
    rewrite Hl, Hd, ids_for_add_alert, lookup_insert_ne by congruence.
    destruct (decide _); [congruence|]. now rewrite app_nil_r. }
  split; [|exact U].
  split; [lia|]. split; [exact Hc|]. intros key'.
  destruct (decide (key' = key)) as [-> | Hne]; [right | left; now apply U].
  exists tg, t. repeat split; try assumption.
  - rewrite Hl. apply lookup_insert_eq.
  - rewrite Hd, ids_for_add_alert.
    destruct (decide _); [|congruence]. rewrite length_app. simpl. lia.
Qed.


(** The block of [check_and_generate_alerts] guarded by
    [len(stress_detections) >= self.alert_threshold]. *)
Local Abbreviation high_stress_block eid sd c :=
  (if c then
     let alert_key := high_stress_key eid in
     ok ← _can_generate_alert alert_key;
     if ok : bool then
       alert ← _create_high_stress_alert eid sd;
       match alert with
       | Some a =>
           alert_id ← db_add_alert a;
           match alert_id with
           | Some id =>
               if id =? 0 then mret []
               else
                 t ← read_clock;
                 _ ← set_last_alert_time alert_key t;
                 mret [with_id id a]
           | None => mret []
           end
       | None => mret []
       end
     else mret []
   else mret []).

Lemma check_and_generate_alerts_unfold eid w :
  check_and_generate_alerts eid w
  = match high_stress_block eid
            (stress_detections_at (db w) (mgr w) eid (next_reading w))
            (alert_threshold (mgr w)
             <=? Z.of_nat (length (stress_detections_at (db w) (mgr w) eid
                                     (next_reading w))))
            (final (read_clock w)) with
    | Val alerts w2 =>
        match _check_fatigue eid w2 with
        | Val fatigue_alert w3 =>
            Val (alerts ++ match fatigue_alert with
                           | Some a => [a]
                           | None => []
                           end) w3
        | Exc w3 => Exc w3
        end
    | Exc w2 => Exc w2
    end.
Proof. reflexivity. Qed.

Lemma high_stress_block_effect eid sd (c : bool) w :
  let r := high_stress_block eid sd c w in
  effect w (final r)
  ∧ (∀ key, key ≠ high_stress_key eid → untouched key w (final r))
  ∧ (r = Exc (final r) ∨ r = Val [] (final r)
     ∨ ∃ a, r = Val [a] (final r)
            ∧ alert_type a = HIGH_STRESS_PROLONGED ∧ a_employee_id a = eid
            ∧ ids_for (high_stress_key eid) (db (final r))
              = ids_for (high_stress_key eid) (db w) ++ [alert_id a]).
Proof.
  assert (Q : ∀ w1, clock w ≤ clock w1 → mgr w1 = mgr w →
              alerts (db w1) = alerts (db w) →
              effect w w1 ∧ ∀ key, key ≠ high_stress_key eid → untouched key w w1).
  { intros w1 H1 H2 H3. destruct (effect_quiet w w1 H1 H2 H3). auto. }
  assert (Quiet : ∀ (r : Res (list Alert)),
             (r = Exc (final r) ∨ r = Val [] (final r)) →
             clock w ≤ clock (final r) → mgr (final r) = mgr w →
             alerts (db (final r)) = alerts (db w) →
             effect w (final r)
             ∧ (∀ key, key ≠ high_stress_key eid → untouched key w (final r))
             ∧ (r = Exc (final r) ∨ r = Val [] (final r)
                ∨ ∃ a, r = Val [a] (final r)
                       ∧ alert_type a = HIGH_STRESS_PROLONGED
                       ∧ a_employee_id a = eid
                       ∧ ids_for (high_stress_key eid) (db (final r))
                         = ids_for (high_stress_key eid) (db w) ++ [alert_id a])).
  { intros r Hr H1 H2 H3. destruct (Q _ H1 H2 H3) as [E U].
    split_and!; [exact E | exact U | tauto]. }
  assert (Fire : ∀ a tg w1,
             alert_type a = HIGH_STRESS_PROLONGED → a_employee_id a = eid →
             alert_id a = 0 →
             clock w ≤ tg → tg ≤ clock w1 →
             eligible (mgr w) (high_stress_key eid) tg →
             same_config (mgr w) (mgr w1) →
             last_alert_times (mgr w1)
             = <[high_stress_key eid := clock w1]> (last_alert_times (mgr w)) →
             db w1 = (Store.add_alert a (db w)).2 →
             let r := Val [with_id (Store.add_alert a (db w)).1 a] w1 in
             effect w (final r)
             ∧ (∀ key, key ≠ high_stress_key eid → untouched key w (final r))
             ∧ (r = Exc (final r) ∨ r = Val [] (final r)
                ∨ ∃ a, r = Val [a] (final r)
                       ∧ alert_type a = HIGH_STRESS_PROLONGED
                       ∧ a_employee_id a = eid
                       ∧ ids_for (high_stress_key eid) (db (final r))
                         = ids_for (high_stress_key eid) (db w) ++ [alert_id a])).
  { intros a tg w1 Ha1 Ha2 Ha3 H1 H2 H3 H4 H5 H6. cbn [final].
    pose proof (high_stress_key_of eid a Ha1 Ha2) as Hk.
    destruct (effect_fire w w1 (high_stress_key eid) a tg (clock w1))
      as [E U]; try assumption; [lia|].
    split_and!; [exact E | exact U |]. right. right.
    eexists. split; [reflexivity|]. cbn [with_id alert_type a_employee_id alert_id].
    split_and!; [assumption..|].
    rewrite H6, ids_for_add_alert, decide_True by exact Hk. reflexivity. }
  destruct c; cbv beta zeta;
    [|refine (Quiet (Val [] _) _ _ _ _); [right; reflexivity | run_m; lia | reflexivity..]].
  unfold _can_generate_alert. run_m.
  destruct (last_alert_times (mgr w) !! high_stress_key eid) as [T|] eqn:HT;
    run_m; [rewrite elapsed_spec;
            destruct (Z.leb_spec (T + cooldown_minutes (mgr w) * minute)
                                 (next_reading w)) as [Hel | Hel] |];
    try (run_m; refine (Quiet (Val [] _) _ _ _ _);
         [right; reflexivity | solve [clock_le | reflexivity]..]).
  all: unfold _create_high_stress_alert;
    (destruct (length sd =? 0)%nat;
      [run_m; refine (Quiet (Exc _) _ _ _ _);
       [left; reflexivity | solve [clock_le | reflexivity]..]|]);
    unfold db_add_alert; run_m;
    match goal with |- context [Store.add_alert ?x _] => set (a := x) end;
    (destruct (hd false (faults w));
      [run_m; refine (Quiet (Val [] _) _ _ _ _);
       [right; reflexivity | solve [clock_le | reflexivity]..]|]);
    run_m; pose proof (add_alert_id_nonzero a (db w)) as Hid;
    pose proof (λ tg, Fire a tg) as F;
    destruct (Store.add_alert a (db w)) as [id d'] eqn:Hadd; run_m;
    simpl in Hid; (destruct (Z.eqb_spec id 0); [contradiction|]); run_m.
  - refine (F (next_reading w) _ _ _ _ _ _ _ _ _ _);
      try solve [clock_le | reflexivity | split_and!; reflexivity].
    unfold eligible. rewrite HT. lia.
  - refine (F (clock w) _ _ _ _ _ _ _ _ _ _);
      try solve [clock_le | reflexivity | split_and!; reflexivity].
    unfold eligible. now rewrite HT.
Qed.

(** A write that raises leaves the block without a trace. *)
Lemma high_stress_block_fault eid sd (c : bool) w :
  hd false (faults w) = true →
  ∃ w', (high_stress_block eid sd c w = Val [] w'
         ∨ high_stress_block eid sd c w = Exc w')
        ∧ clock w ≤ clock w' ∧ mgr w' = mgr w ∧ db w' = db w
        ∧ calc w' = calc w
        ∧ (faults w' = faults w ∨ faults w' = tail (faults w)).
Proof.
  intros Hf.
  destruct c; cbv beta zeta; [|exists w; run_m; auto 10 with lia].
  unfold _can_generate_alert. run_m.
  destruct (last_alert_times (mgr w) !! high_stress_key eid) as [T|] eqn:HT;
    run_m; [destruct (Qle_bool _ _)|];
    try (eexists; split; [left; reflexivity|];
         split_and!; solve [clock_le | auto]).
  all: unfold _create_high_stress_alert;
    (destruct (length sd =? 0)%nat;
      [run_m; eexists; split; [right; reflexivity|];
       split_and!; solve [clock_le | auto]|]);
    unfold db_add_alert; run_m; rewrite Hf; run_m;
    eexists; (split; [left; reflexivity|]);
    split_and!; solve [clock_le | auto].
Qed.

(** The block creates the alert when the threshold is met, the key is
    eligible and the write goes through. *)
Lemma high_stress_block_fires eid sd (c : bool) w :
  c = true →
  sd ≠ [] → eligible (mgr w) (high_stress_key eid) (clock w) →
  hd false (faults w) = false →
  ∃ a w',
    high_stress_block eid sd c w = Val [a] w'
    ∧ alert_type a = HIGH_STRESS_PROLONGED ∧ a_employee_id a = eid
    ∧ status a = PENDING ∧ alert_id a ≠ 0
    ∧ clock w ≤ a_timestamp a ∧ a_timestamp a ≤ clock w'
    ∧ last_alert_times (mgr w') !! high_stress_key eid = Some (clock w')
    ∧ ids_for (high_stress_key eid) (db w')
      = ids_for (high_stress_key eid) (db w) ++ [alert_id a].
Proof.
  intros -> Hsd Hel Hf. cbv beta zeta.
  assert (Hlen : (length sd =? 0)%nat = false).
  { destruct sd; [contradiction | reflexivity]. }
  unfold eligible in Hel.
  unfold _can_generate_alert. run_m.
  destruct (last_alert_times (mgr w) !! high_stress_key eid) as [T|] eqn:HT;
    run_m.
  - rewrite elapsed_spec.
    destruct (Z.leb_spec (T + cooldown_minutes (mgr w) * minute)
                         (next_reading w)) as [_ | Hlt];
      [|pose proof (next_reading_ge w); unfold minute in *; lia].
    unfold _create_high_stress_alert. rewrite Hlen.
    unfold db_add_alert. run_m. rewrite Hf. run_m.
    match goal with |- context [Store.add_alert ?x _] => set (a := x) end.
    pose proof (add_alert_id_nonzero a (db w)) as Hid.
    pose proof (ids_for_add_alert (high_stress_key eid) a (db w)) as Hids.
    destruct (Store.add_alert a (db w)) as [id d'] eqn:Hadd. run_m.
    simpl in Hid, Hids. destruct (Z.eqb_spec id 0); [contradiction|]. run_m.
    rewrite decide_True in Hids by reflexivity. subst a.
    eexists _, _. split; [reflexivity|].
    cbn [with_id alert_type a_employee_id status alert_id a_timestamp
         clock mgr db last_alert_times].
    split_and!; try solve [clock_le | assumption | reflexivity].
    apply lookup_insert_eq.
  - unfold _create_high_stress_alert. rewrite Hlen.
    unfold db_add_alert. run_m. rewrite Hf. run_m.
    match goal with |- context [Store.add_alert ?x _] => set (a := x) end.
    pose proof (add_alert_id_nonzero a (db w)) as Hid.
    pose proof (ids_for_add_alert (high_stress_key eid) a (db w)) as Hids.
    destruct (Store.add_alert a (db w)) as [id d'] eqn:Hadd. run_m.
    simpl in Hid, Hids. destruct (Z.eqb_spec id 0); [contradiction|]. run_m.
    rewrite decide_True in Hids by reflexivity. subst a.
    eexists _, _. split; [reflexivity|].
    cbn [with_id alert_type a_employee_id status alert_id a_timestamp
         clock mgr db last_alert_times].
    split_and!; try solve [clock_le | assumption | reflexivity].
    apply lookup_insert_eq.
Qed.

Lemma untouched_trans key w1 w2 w3 :
  untouched key w1 w2 → untouched key w2 w3 → untouched key w1 w3.
Proof. intros [A B] [C D]. split; congruence. Qed.

(** [_check_fatigue] always returns; it acts under the fatigue key only,
    and what it returns is a fatigue alert. *)
Lemma check_fatigue_effect eid w :
  ∃ f w', _check_fatigue eid w = Val f w'
          ∧ effect w w'
          ∧ (∀ key, key ≠ fatigue_key eid → untouched key w w')
          ∧ (∀ a, f = Some a →
                  alert_type a = FATIGUE_DETECTED ∧ a_employee_id a = eid
                  ∧ ids_for (fatigue_key eid) (db w')
                    = ids_for (fatigue_key eid) (db w) ++ [alert_id a]).
Proof.
  assert (Q : ∀ w1, clock w ≤ clock w1 → mgr w1 = mgr w →
              alerts (db w1) = alerts (db w) →
              effect w w1
              ∧ (∀ key, key ≠ fatigue_key eid → untouched key w w1)
              ∧ (∀ a : Alert, None = Some a →
                   alert_type a = FATIGUE_DETECTED ∧ a_employee_id a = eid
                   ∧ ids_for (fatigue_key eid) (db w1)
                     = ids_for (fatigue_key eid) (db w) ++ [alert_id a])).
  { intros w1 H1 H2 H3. destruct (effect_quiet w w1 H1 H2 H3).
    split_and!; [done | auto | discriminate]. }
  unfold _check_fatigue. run_m.
  destruct (_ || _);
    [|eexists _, _; split; [reflexivity|];
      apply Q; solve [clock_le | reflexivity]].
  cbv zeta. unfold _can_generate_alert. run_m.
  destruct (last_alert_times (mgr w) !! fatigue_key eid) as [T|] eqn:HT;
    run_m; [rewrite elapsed_spec;
            match goal with |- context [?a <=? ?b] =>
              destruct (Z.leb_spec a b) as [Hel | Hel] end |];
    try (eexists _, _; split; [reflexivity|];
         apply Q; solve [clock_le | reflexivity]).
  all: unfold db_add_alert; run_m;
    match goal with |- context [Store.add_alert ?x _] => set (a := x) end;
    (destruct (hd false (faults w));
      [run_m; eexists _, _; split; [reflexivity|];
       apply Q; solve [clock_le | reflexivity]|]);
    run_m; pose proof (add_alert_id_nonzero a (db w)) as Hid;
    pose proof (ids_for_add_alert (fatigue_key eid) a (db w)) as Hids;
    rewrite decide_True in Hids by reflexivity;
    destruct (Store.add_alert a (db w)) as [id d'] eqn:Hadd; run_m;
    simpl in Hid, Hids; (destruct (Z.eqb_spec id 0); [contradiction|]); run_m;
    eexists _, _; (split; [reflexivity|]).
  - match type of Hel with _ ≤ ?tg => match goal with |- effect _ ?W ∧ _ =>
      edestruct (effect_fire w W (fatigue_key eid) a tg (clock W)) as [E U]
    end end; [..| split_and!; [exact E | exact U |]];
    try solve [clock_le | reflexivity | split_and!; reflexivity].
    + unfold eligible. rewrite HT. exact Hel.
    + cbn [db]. now rewrite Hadd.
    + intros ? [= <-]. split_and!; [reflexivity..|exact Hids].
  - match goal with |- effect _ ?W ∧ _ =>
      edestruct (effect_fire w W (fatigue_key eid) a (clock w) (clock W))
        as [E U]
    end; [..| split_and!; [exact E | exact U |]];
    try solve [clock_le | reflexivity | split_and!; reflexivity].
    + unfold eligible. now rewrite HT.
    + cbn [db]. now rewrite Hadd.
    + intros ? [= <-]. split_and!; [reflexivity..|exact Hids].
Qed.

Lemma check_fatigue_fault eid w :
  hd false (faults w) = true →
  ∃ w', _check_fatigue eid w = Val None w'
        ∧ clock w ≤ clock w' ∧ mgr w' = mgr w ∧ db w' = db w.
Proof.
  intros Hf. unfold _check_fatigue. run_m.
  destruct (_ || _);
    [|eexists; split; [reflexivity|]; split_and!; solve [clock_le | auto]].
  cbv zeta. unfold _can_generate_alert. run_m.
  destruct (last_alert_times (mgr w) !! fatigue_key eid) as [T|] eqn:HT;
    run_m; [destruct (Qle_bool _ _)|];
    try (eexists; split; [reflexivity|];
         split_and!; solve [clock_le | auto]).
  all: unfold db_add_alert; run_m; rewrite Hf; run_m;
    eexists; (split; [reflexivity|]);
    split_and!; solve [clock_le | auto].
Qed.

Lemma read_clock_effect w :
  effect w (final (read_clock w))
  ∧ ∀ key, untouched key w (final (read_clock w)).
Proof. apply effect_quiet; [unfold read_clock; clock_le | reflexivity..]. Qed.

(** One evaluation: its effect on the cooldown state, the keys it can
    act under, and what it returns. *)
Lemma check_alerts_effect eid w :
  let r := check_and_generate_alerts eid w in
  effect w (final r)
  ∧ (∀ key, key ≠ high_stress_key eid → key ≠ fatigue_key eid →
            untouched key w (final r))
  ∧ (∀ l w', r = Val l w' → ∀ a, a ∈ l →
       length (ids_for (key_of_alert a) (db w))
       < length (ids_for (key_of_alert a) (db w')))%nat.
Proof.
  cbv zeta. rewrite check_and_generate_alerts_unfold.
  set (w1 := final (read_clock w)).
  set (sd := stress_detections_at _ _ _ _).
  set (c := _ <=? _).
  destruct (read_clock_effect w) as [E1 U1]. fold w1 in E1, U1.
  destruct (high_stress_block_effect eid sd c w1) as (E2 & U2 & R2).
  set (r2 := high_stress_block eid sd c w1) in *.
  destruct r2 as [alerts w2 | w2] eqn:Hr2; cbn [final] in *.
  - destruct (check_fatigue_effect eid w2) as (f & w3 & -> & E3 & U3 & R3).
    cbn [final]. split_and!.
    + eauto using effect_trans.
    + intros key H1 H2. eauto using untouched_trans.
    + intros l w' [= <- <-] a Ha.
      apply elem_of_app in Ha as [Ha | Ha].
      * destruct R2 as [? | [? | (a' & [= ->] & T1 & T2 & I2)]];
          try discriminate; [simplify_eq; by apply not_elem_of_nil in Ha|].
        apply list_elem_of_singleton in Ha as ->.
        rewrite (high_stress_key_of eid a' T1 T2).
        destruct (U1 (high_stress_key eid)) as [_ HU].
        pose proof (ids_for_length_mono (high_stress_key eid) w2 w3
                      (proj2 (proj2 E3) _)) as L.
        rewrite I2, HU, length_app in L. simpl in L. lia.
      * destruct f as [a'|]; [|by apply not_elem_of_nil in Ha].
        apply list_elem_of_singleton in Ha as ->.
        destruct (R3 a' eq_refl) as (T1 & T2 & I3).
        rewrite (fatigue_key_of eid a' T1 T2), I3, length_app. simpl.
        destruct (U1 (fatigue_key eid)) as [_ HU].
        pose proof (ids_for_length_mono (fatigue_key eid) w1 w2
                      (proj2 (proj2 E2) _)) as L.
        rewrite HU in L. lia.
  - split_and!.
    + eauto using effect_trans.
    + intros key H1 H2. eauto using untouched_trans.
    + intros l w' [=].
Qed.

Lemma ids_for_update_alert_status key now id st by_ d :
  ids_for key (Store.update_alert_status now id st by_ d) = ids_for key d.
Proof.
  unfold ids_for, Store.update_alert_status. cbn [alerts].
  induction (alerts d) as [|a l IH]; [reflexivity|].
  rewrite map_cons, !filter_cons.
  assert (K : key_of_alert (if alert_id a =? id
                            then set_status st
                                   (if AlertStatus_eqb st RESOLVED
                                    then Some now else None) by_ a
                            else a) = key_of_alert a)
    by (destruct (_ =? _); reflexivity).
  rewrite K. destruct (decide (key_of_alert a = key)); [|exact IH].
  rewrite !map_cons, IH. f_equal. destruct (_ =? _); reflexivity.
Qed.

Lemma update_alert_status_effect id st by_ w :
  effect w (final (db_update_alert_status id st by_ w)).
Proof.
  unfold db_update_alert_status. run_m.
  destruct (hd false (faults w)); run_m;
    [apply effect_quiet; solve [clock_le | reflexivity]|].
  destruct (AlertStatus_eqb st RESOLVED); run_m;
    apply effect_quiet_ids;
    solve [clock_le | reflexivity
           | intros; cbn [db]; apply ids_for_update_alert_status].
Qed.

Lemma exec_effect o w : effect w (App.exec o w).
Proof.
  destruct o; cbn [App.exec].
  - unfold Sys.add_emotion. run_m.
    apply effect_quiet; solve [clock_le | reflexivity].
  - unfold db_add_detection. run_m.
    destruct (hd false (faults w)); run_m;
      apply effect_quiet; solve [clock_le | reflexivity].
  - unfold Sys.check_stress_threshold. run_m.
    destruct (Qlt_le_dec _ _); run_m;
      apply effect_quiet; solve [clock_le | reflexivity].
  - apply check_alerts_effect.
  - apply update_alert_status_effect.
  - apply update_alert_status_effect.
  - unfold Reports.generate_report. run_m.
    destruct (Store.get_detections _ _ _ _ _); run_m;
      [apply effect_quiet; solve [clock_le | reflexivity]|].
    unfold Reports._save_report. run_m.
    destruct (hd false (faults w)); run_m;
      apply effect_quiet; solve [clock_le | reflexivity].
Qed.

Lemma run_effect ops w : effect w (App.run ops w).
Proof.
  revert w. induction ops as [|o ops IH]; intros w; cbn.
  - apply effect_refl.
  - eapply effect_trans; [apply exec_effect | apply IH].
Qed.

(** A key with an entry younger than the cooldown is left alone. *)
Lemma effect_suppresses w w' key T :
  effect w w' →
  last_alert_times (mgr w) !! key = Some T →
  clock w' < T + cooldown_minutes (mgr w) * minute →
  untouched key w w'.
Proof.
  intros (_ & _ & K) HT Hlt.
  destruct (K key) as [U | (tg & t & _ & A & B & El & _)]; [exact U|].
  unfold eligible in El. rewrite HT in El. lia.
Qed.

Lemma can_generate_alert_spec key w :
  ∃ b w', _can_generate_alert key w = Val b w'
          ∧ clock w ≤ clock w' ∧ mgr w' = mgr w
          ∧ (b = true ↔ eligible (mgr w) key (clock w')).
Proof.
  unfold _can_generate_alert, eligible. run_m.
  destruct (last_alert_times (mgr w) !! key) as [T|]; run_m.
  - eexists _, _. split; [reflexivity|]. cbn [clock mgr].
    split_and!; [clock_le | reflexivity |].
    rewrite elapsed_spec. apply Z.leb_le.
  - eexists _, _. split; [reflexivity|]. split_and!; [lia | done | tauto].
Qed.
(** The scenario of the specification: ten detections of scope "E1" with
    stress level above 0.7 inside the window, threshold 10, no prior
    alert.  The evaluation creates exactly one alert; an evaluation right
    after it creates none. *)
Example first_evaluation_fires :
  ∃ a w', check_and_generate_alerts (Some "E1") Scenarios.world_E1
          = Val [a] w'
          ∧ alert_type a = HIGH_STRESS_PROLONGED ∧ status a = PENDING
          ∧ w' = Scenarios.world_E1_fired
          ∧ last_alert_times (mgr w') !! high_stress_key (Some "E1")
            = Some 63000000.
Proof.
  eexists _, _. split; [vm_compute; reflexivity|].
  split_and!; vm_compute; reflexivity.
Qed.

Example second_evaluation_is_suppressed :
  ∃ w', check_and_generate_alerts (Some "E1") Scenarios.world_E1_fired
        = Val [] w'.
Proof. eexists. vm_compute. reflexivity. Qed.

(** C1.  Cooldown, per key [alert_key] (the prefix of the alert type
    followed by the scope).  (1) Once a key has the entry [T], whatever
    the process does next -- any sequence of evaluations, detections,
    acknowledgements, resolutions and reports -- as long as the clock
    stays below [T + cooldown_minutes] the entry stays [T] and no alert
    row is created under that key; (2) an evaluation that ends before
    [T + cooldown_minutes] returns no alert of that key.  (3) The check
    [_can_generate_alert] answers yes for a key without entry, and for
    a key with entry [T] exactly when the clock it reads shows at least
    [T + cooldown_minutes].  (4) An evaluation that starts at or after
    [T + cooldown_minutes], or with no entry for the key, with the
    threshold of high-stress detections met and the write going through,
    creates and returns a pending high-stress alert for the scope. *)
Theorem cooldown_between_alerts :
  (∀ ops w key T,
     last_alert_times (mgr w) !! key = Some T →
     clock (App.run ops w) < T + cooldown_minutes (mgr w) * minute →
     last_alert_times (mgr (App.run ops w)) !! key = Some T
     ∧ ids_for key (db (App.run ops w)) = ids_for key (db w))
  ∧ (∀ eid w key T l w',
       last_alert_times (mgr w) !! key = Some T →
       check_and_generate_alerts eid w = Val l w' →
       clock w' < T + cooldown_minutes (mgr w) * minute →
       ∀ a, a ∈ l → key_of_alert a ≠ key)
  ∧ (∀ key w, ∃ b w',
       _can_generate_alert key w = Val b w'
       ∧ clock w ≤ clock w'
       ∧ (last_alert_times (mgr w) !! key = None → b = true)
       ∧ (∀ T, last_alert_times (mgr w) !! key = Some T →
               (b = true ↔ T + cooldown_minutes (mgr w) * minute ≤ clock w')))
  ∧ (∀ eid w,
       (last_alert_times (mgr w) !! high_stress_key eid = None
        ∨ ∃ T, last_alert_times (mgr w) !! high_stress_key eid = Some T
               ∧ T + cooldown_minutes (mgr w) * minute ≤ clock w) →
       0 < alert_threshold (mgr w) →
       alert_threshold (mgr w)
       ≤ Z.of_nat (length (stress_detections_at (db w) (mgr w) eid
                             (next_reading w))) →
       hd false (faults w) = false →
       ∃ l w' a,
         check_and_generate_alerts eid w = Val l w'
         ∧ a ∈ l
         ∧ alert_type a = HIGH_STRESS_PROLONGED ∧ a_employee_id a = eid
         ∧ status a = PENDING
         ∧ (length (ids_for (high_stress_key eid) (db w))
            < length (ids_for (high_stress_key eid) (db w')))%nat).
Proof.
  split_and!.
  - intros ops w key T HT Hlt.
    destruct (effect_suppresses w _ key T (run_effect ops w) HT Hlt)
      as [L I].
    split; [congruence | exact I].
  - intros eid w key T l w' HT Hr Hlt a Ha Hk.
    destruct (check_alerts_effect eid w) as (E & _ & R).
    cbv zeta in E, R. rewrite Hr in E. cbn [final] in E.
    destruct (effect_suppresses w w' key T E HT Hlt) as [_ I].
    specialize (R l w' Hr a Ha). rewrite Hk, I in R. lia.
  - intros key w.
    destruct (can_generate_alert_spec key w) as (b & w' & Hr & Hc & _ & Hb).
    exists b, w'. split_and!; [exact Hr | exact Hc | |].
    + intros HN. apply Hb. unfold eligible. now rewrite HN.
    + intros T HT. rewrite Hb. unfold eligible. now rewrite HT.
  - intros eid w Hel Hpos Hthr Hf.
    rewrite check_and_generate_alerts_unfold.
    set (sd := stress_detections_at _ _ _ _) in *.
    set (c := _ <=? _).
    assert (Hc : c = true) by (apply Z.leb_le; exact Hthr).
    assert (Hsd : sd ≠ []).
    { intros E. rewrite E in Hthr. simpl in Hthr. lia. }
    destruct (high_stress_block_fires eid sd c (final (read_clock w)))
      as (a & w2 & -> & T1 & T2 & T3 & _ & _ & _ & _ & I2);
      [exact Hc | exact Hsd | | exact Hf |].
    { unfold eligible, read_clock. cbn [final mgr clock].
      pose proof (next_reading_ge w).
      destruct Hel as [-> | (T & -> & HT)]; [trivial | unfold minute in *; lia]. }
    destruct (check_fatigue_effect eid w2) as (f & w3 & -> & E3 & _ & _).
    eexists _, _, a. split; [reflexivity|].
    split_and!; [apply elem_of_app; left; apply list_elem_of_singleton; reflexivity
                | assumption..|].
    pose proof (ids_for_length_mono (high_stress_key eid) w2 w3
                  (proj2 (proj2 E3) _)) as L.
    rewrite I2, length_app in L. simpl in L.
    unfold read_clock in L. cbn [final db] in L. lia.
Qed.

Lemma cooldown_between_alerts_witness :
  last_alert_times (mgr Scenarios.world_E1_fired) !! "high_stress_E1"
  = Some 63000000
  ∧ clock (App.run [App.CheckAlerts (Some "E1")] Scenarios.world_E1_fired)
    < 63000000 + cooldown_minutes (mgr Scenarios.world_E1_fired) * minute
  ∧ ids_for "high_stress_E1"
      (db (App.run [App.CheckAlerts (Some "E1")] Scenarios.world_E1_fired))
    = [1].
Proof.
  assert (H1 : last_alert_times (mgr Scenarios.world_E1_fired)
                 !! "high_stress_E1" = Some 63000000) by (vm_compute; reflexivity).
  assert (H2 : clock (App.run [App.CheckAlerts (Some "E1")]
                        Scenarios.world_E1_fired)
               < 63000000
                 + cooldown_minutes (mgr Scenarios.world_E1_fired) * minute)
    by (vm_compute; reflexivity).
  split_and!; [exact H1 | exact H2 |].
  rewrite (proj2 (proj1 cooldown_between_alerts
                    [App.CheckAlerts (Some "E1")] Scenarios.world_E1_fired
                    "high_stress_E1" 63000000 H1 H2)).
  vm_compute. reflexivity.
Defined.

(** C7.  A failed alert write leaves the cooldown entry alone.  For one
    evaluation of a scope: (1) an entry of [last_alert_times] changes only
    for a key under which the evaluation inserted an alert row, and then
    to a reading of the clock made during the evaluation; (2) when the
    first write of the evaluation raises, the entry of the high-stress
    key and the rows under it are as before, no high-stress alert is
    returned, and a key that was eligible at some time is still eligible
    at any later time after the evaluation; (3) when both writes raise,
    the manager and the database are as before and no alert is
    returned. *)
Theorem failed_alert_write_keeps_cooldown (eid : option string) (w : World) :
  let r := check_and_generate_alerts eid w in
  (∀ key,
     last_alert_times (mgr (final r)) !! key
     ≠ last_alert_times (mgr w) !! key →
     (length (ids_for key (db w)) < length (ids_for key (db (final r))))%nat
     ∧ ∃ t, last_alert_times (mgr (final r)) !! key = Some t
            ∧ clock w ≤ t ∧ t ≤ clock (final r))
  ∧ (hd false (faults w) = true →
       last_alert_times (mgr (final r)) !! high_stress_key eid
       = last_alert_times (mgr w) !! high_stress_key eid
       ∧ ids_for (high_stress_key eid) (db (final r))
         = ids_for (high_stress_key eid) (db w)
       ∧ (∀ l w', r = Val l w' →
            ∀ a, a ∈ l → alert_type a ≠ HIGH_STRESS_PROLONGED)
       ∧ (∀ t t', eligible (mgr w) (high_stress_key eid) t → t ≤ t' →
                  eligible (mgr (final r)) (high_stress_key eid) t'))
  ∧ (hd false (faults w) = true → hd false (tail (faults w)) = true →
       mgr (final r) = mgr w ∧ db (final r) = db w
       ∧ (r = Val [] (final r) ∨ r = Exc (final r))).
Proof.
  cbv zeta. split_and!.
  - intros key Hne.
    destruct (check_alerts_effect eid w) as ((_ & _ & K) & _ & _).
    destruct (K key) as [[U _] | (tg & t & A & B & C & _ & L & I)];
      [contradiction|].
    split; [exact I|]. exists t. split_and!; [exact L | lia | lia].
  - intros Hf.
    rewrite check_and_generate_alerts_unfold.
    set (sd := stress_detections_at _ _ _ _).
    set (c := _ <=? _).
    destruct (high_stress_block_fault eid sd c (final (read_clock w)) Hf)
      as (w2 & Hr2 & _ & M2 & D2 & _ & _).
    assert (U2 : untouched (high_stress_key eid) w w2).
    { unfold untouched. rewrite M2, D2. split; reflexivity. }
    destruct Hr2 as [-> | ->]; cbn [final].
    + destruct (check_fatigue_effect eid w2) as (f & w3 & -> & E3 & U3 & R3).
      cbn [final].
      pose proof (untouched_trans _ _ _ _ U2
                    (U3 _ (keys_differ eid eid))) as [L I].
      split_and!; [exact L | exact I | |].
      * intros l w' [= <- <-] a Ha. simpl in Ha.
        destruct f as [a'|]; [|by apply not_elem_of_nil in Ha].
        apply list_elem_of_singleton in Ha as ->.
        destruct (R3 a' eq_refl) as (-> & _). discriminate.
      * intros t t' El Ht. unfold eligible in *.
        destruct E3 as (_ & (_ & _ & Cd) & _).
        rewrite L, Cd, M2. cbn [mgr final read_clock].
        destruct (last_alert_times (mgr w) !! high_stress_key eid); [lia | trivial].
    + destruct U2 as [L I]. split_and!; [exact L | exact I | discriminate |].
      intros t t' El Ht. unfold eligible in *.
      rewrite L, M2. cbn [mgr final read_clock].
      destruct (last_alert_times (mgr w) !! high_stress_key eid); [lia | trivial].
  - intros Hf Hf'.
    rewrite check_and_generate_alerts_unfold.
    set (sd := stress_detections_at _ _ _ _).
    set (c := _ <=? _).
    destruct (high_stress_block_fault eid sd c (final (read_clock w)) Hf)
      as (w2 & Hr2 & _ & M2 & D2 & _ & F2).
    unfold read_clock in M2, D2, F2. cbn [final mgr db faults] in M2, D2, F2.
    destruct Hr2 as [-> | ->]; cbn [final];
      [|split_and!; [exact M2 | exact D2 | right; reflexivity]].
    destruct (check_fatigue_fault eid w2) as (w3 & -> & _ & M3 & D3).
    { destruct F2 as [-> | ->]; assumption. }
    cbn [final]. split_and!; [congruence | congruence | left; reflexivity].
Qed.

Lemma failed_alert_write_keeps_cooldown_witness :
  hd false (faults Scenarios.world_E1_faulty) = true
  ∧ last_alert_times
      (mgr (final (check_and_generate_alerts (Some "E1")
                     Scenarios.world_E1_faulty)))
      !! high_stress_key (Some "E1")
    = None.
Proof.
  split; [reflexivity|].
  rewrite (proj1 (proj1 (proj2 (failed_alert_write_keeps_cooldown
                                  (Some "E1") Scenarios.world_E1_faulty))
                        eq_refl)).
  reflexivity.
Defined.
End CooldownProofs.

(** ** Acknowledging and resolving alerts *)

Section Lifecycle.

Import Store Sys Alerts.

(** C3, as stated, fails: the alert with id 1 is resolved (by alice, at
    second 70); acknowledging it succeeds and moves it back to
    acknowledged with [resolved_at] cleared, and resolving it once more
    succeeds and overwrites [resolved_at] and [resolved_by]. *)
Lemma resolved_alert_is_not_terminal :
  status Scenarios.alert_resolved = RESOLVED
  ∧ alerts (db Scenarios.world_resolved) = [Scenarios.alert_resolved]
  ∧ (∃ w', acknowledge_alert 1 "bob" Scenarios.world_resolved = Val true w'
           ∧ map (λ a, (status a, resolved_at a, resolved_by a))
                 (alerts (db w'))
             = [(ACKNOWLEDGED, None, Some "bob")])
  ∧ (∃ w', resolve_alert 1 "bob" Scenarios.world_resolved = Val true w'
           ∧ alerts (db w') ≠ alerts (db Scenarios.world_resolved)
           ∧ map (λ a, (status a, resolved_at a, resolved_by a))
                 (alerts (db w'))
             = [(RESOLVED, Some 101000000, Some "bob")]).
Proof.
  split_and!; [reflexivity | reflexivity | |].
  - eexists. split; [vm_compute; reflexivity|]. vm_compute. reflexivity.
  - eexists. split; [vm_compute; reflexivity|].
    split; [vm_compute; discriminate | vm_compute; reflexivity].
Qed.

(** C3, amended.  [acknowledge] and [resolve] are unguarded updates:
    when the write goes through, every row with the given id gets status
    acknowledged (with [resolved_at] cleared and the actor stored in
    [resolved_by]), respectively status resolved with [resolved_at] the
    reading of the clock and [resolved_by] the actor, whatever status the
    row had; all other rows, and the id and key of the updated rows, are
    unchanged and no row is deleted.  When the write raises the call
    returns false and the database is unchanged.  So pending→acknowledged,
    pending→resolved and acknowledged→resolved happen as described, and
    resolving a resolved alert succeeds and leaves it resolved, with a
    fresh [resolved_at] and [resolved_by]. *)
Theorem alert_status_updates (w : World) (id : Z) (user : string) :
  (hd false (faults w) = false →
     (∃ w', acknowledge_alert id user w = Val true w'
            ∧ alerts (db w')
              = map (λ a, if alert_id a =? id
                          then set_status ACKNOWLEDGED None (Some user) a
                          else a)
                    (alerts (db w)))
     ∧ (∃ w', resolve_alert id user w = Val true w'
              ∧ alerts (db w')
                = map (λ a, if alert_id a =? id
                            then set_status RESOLVED (Some (next_reading w))
                                            (Some user) a
                            else a)
                      (alerts (db w))))
  ∧ (hd false (faults w) = true →
       (∃ w', acknowledge_alert id user w = Val false w' ∧ db w' = db w)
       ∧ (∃ w', resolve_alert id user w = Val false w' ∧ db w' = db w))
  ∧ (∀ a st at_ by_,
       status (set_status st at_ by_ a) = st
       ∧ resolved_at (set_status st at_ by_ a) = at_
       ∧ resolved_by (set_status st at_ by_ a) = by_
       ∧ alert_id (set_status st at_ by_ a) = alert_id a
       ∧ key_of_alert (set_status st at_ by_ a) = key_of_alert a).
Proof.
  unfold acknowledge_alert, resolve_alert, db_update_alert_status.
  split_and!.
  - intros Hf. run_m. rewrite Hf. run_m. cbn [AlertStatus_eqb]. run_m.
    split; eexists; (split; [reflexivity|]); reflexivity.
  - intros Hf. run_m. rewrite Hf. run_m.
    split; eexists; (split; [reflexivity|]); reflexivity.
  - intros a st at_ by_. split_and!; reflexivity.
Qed.

Lemma alert_status_updates_witness :
  hd false (faults Scenarios.world_resolved) = false
  ∧ ∃ w', resolve_alert 1 "bob" Scenarios.world_resolved = Val true w'
          ∧ map status (alerts (db w')) = [RESOLVED].
Proof.
  split; [reflexivity|].
  destruct (proj2 (proj1 (alert_status_updates Scenarios.world_resolved 1 "bob")
                     eq_refl)) as (w' & Hr & Ha).
  exists w'. split; [exact Hr|]. rewrite Ha. reflexivity.
Defined.

End Lifecycle.

(** ** The report generator *)

Section ReportProofs.

Import Store Sys Reports.

Lemma order_desc_elem {A} (ts : A → Z) (l : list A) x :
  x ∈ order_desc ts l ↔ x ∈ l.
Proof. unfold order_desc. now rewrite merge_sort_Permutation. Qed.

Lemma get_detections_elem d e s t n x :
  x ∈ get_detections d e s t n →
  x ∈ detection_events d ∧ detection_selected e s t x = true.
Proof.
  unfold get_detections. intros H.
  apply subseteq_take in H. apply order_desc_elem in H.
  apply list_elem_of_filter in H. tauto.
Qed.

Lemma get_detections_nil d e s t n :
  (∀ x, x ∈ detection_events d → detection_selected e s t x = false) →
  get_detections d e s t n = [].
Proof.
  intros H. unfold get_detections.
  assert (E : filter (λ x, detection_selected e s t x = true)
                     (detection_events d) = []).
  { induction (detection_events d) as [|x l IH]; [reflexivity|].
    rewrite filter_cons. rewrite (H x) by apply list_elem_of_here.
    destruct (decide (false = true)); [discriminate|].
    apply IH. intros y Hy. apply H. now apply list_elem_of_further. }
  rewrite E. unfold order_desc. apply take_nil.
Qed.

Lemma period_selected (s t : Z) x :
  detection_selected None (Some s) (Some t) x = true
  ↔ s ≤ d_timestamp x ∧ d_timestamp x ≤ t.
Proof.
  unfold detection_selected. cbn.
  rewrite andb_true_iff, !Z.leb_le. tauto.
Qed.

(** C9.  With [end_time] the reading of the clock made by
    [generate_report] and [start_time] the report interval before it:
    when no detection event has its timestamp in
    [[start_time, end_time]], the call returns [None] and the database is
    unchanged; a report row is written, or a report returned, only when
    some detection event lies in that period, and a returned report
    covers exactly that period, counts at least one detection, and is the
    one row appended (unless the INSERT raised, which is swallowed). *)
Theorem report_needs_detections (w : World) :
  let end_time := next_reading w in
  let start_time := end_time - report_interval_minutes w * 60 * 1000000 in
  ((∀ d, d ∈ detection_events (db w) →
         ¬ (start_time ≤ d_timestamp d ∧ d_timestamp d ≤ end_time)) →
     ∃ w', generate_report w = Val None w'
           ∧ db w' = db w ∧ clock w' = end_time)
  ∧ (reports (db (final (generate_report w))) ≠ reports (db w) →
       ∃ d, d ∈ detection_events (db w)
            ∧ start_time ≤ d_timestamp d ∧ d_timestamp d ≤ end_time)
  ∧ (∀ r w', generate_report w = Val (Some r) w' →
       (∃ d, d ∈ detection_events (db w)
             ∧ start_time ≤ d_timestamp d ∧ d_timestamp d ≤ end_time)
       ∧ period_start r = start_time ∧ period_end r = end_time
       ∧ (0 < r_total_detections r)%nat
       ∧ (reports (db w') = reports (db w) ++ [r]
          ∨ reports (db w') = reports (db w))).
Proof.
  intros end_time start_time.
  unfold generate_report. run_m. fold end_time. fold start_time.
  destruct (get_detections (db w) None (Some start_time) (Some end_time)
              (Z.to_nat 10000)) as [|d0 ds] eqn:Hd.
  - split_and!.
    + intros _. eexists. split; [reflexivity|]. split; reflexivity.
    + cbn [final db]. congruence.
    + intros r w' [=].
  - assert (Hex : ∃ d, d ∈ detection_events (db w)
                       ∧ start_time ≤ d_timestamp d ∧ d_timestamp d ≤ end_time).
    { exists d0.
      destruct (get_detections_elem (db w) None (Some start_time)
                  (Some end_time) (Z.to_nat 10000) d0) as [H1 H2].
      - rewrite Hd. apply list_elem_of_here.
      - apply period_selected in H2. tauto. }
    split_and!.
    + intros Hnone. exfalso. destruct Hex as (d & H1 & H2). exact (Hnone d H1 H2).
    + intros _. exact Hex.
    + intros r w'. unfold _save_report. run_m.
      destruct (hd false (faults w)); run_m; intros [= <- <-];
        (split; [exact Hex|]); cbn [period_start period_end r_total_detections
                                     db reports add_report length];
        (split_and!; [reflexivity | reflexivity | lia |]); auto.
Qed.

Lemma report_needs_detections_witness :
  ∃ w', generate_report Scenarios.world_late = Val None w'
        ∧ db w' = db Scenarios.world_late.
Proof.
  destruct (proj1 (report_needs_detections Scenarios.world_late))
    as (w' & Hr & Hdb & _).
  - intros d Hd. vm_compute in Hd.
    repeat (apply elem_of_cons in Hd as [-> | Hd];
            [vm_compute; intros [H _]; apply H; reflexivity|]).
    by apply not_elem_of_nil in Hd.
  - exists w'. split; assumption.
Defined.
End ReportProofs.

(** ** Identity matching *)

Section RecognizerProofs.

Import Recognizer Matching.
Local Open Scope R_scope.

Lemma dot_self_nonneg (v : list R) : 0 <= dot v v.
Proof. induction v as [|x v IH]; simpl; nra. Qed.

Lemma dot_comm (a b : list R) : dot a b = dot b a.
Proof.
  revert b. induction a as [|x a IH]; intros [|y b]; simpl; try reflexivity.
  rewrite IH. ring.
Qed.

Lemma norm_nonneg (v : list R) : 0 <= norm v.
Proof. apply sqrt_pos. Qed.

Lemma norm_sqr (v : list R) : norm v * norm v = dot v v.
Proof. apply sqrt_sqrt, dot_self_nonneg. Qed.

Lemma cosine_similarity_total (v1 v2 : list R) :
  length v1 = length v2 →
  _cosine_similarity v1 v2 = Some (cosine v1 v2).
Proof.
  intros Hlen. unfold _cosine_similarity, np_dot, cosine.
  rewrite Hlen, Nat.eqb_refl.
  destruct (Req_dec_T (norm v1) 0); [reflexivity|].
  destruct (Req_dec_T (norm v2) 0); reflexivity.
Qed.

Lemma cosine_self (v : list R) : norm v ≠ 0 → cosine v v = 1.
Proof.
  intros N. unfold cosine.
  destruct (Req_dec_T (norm v) 0); [contradiction|].
  rewrite norm_sqr. apply Rdiv_diag.
  rewrite <- norm_sqr. nra.
Qed.

Lemma cosine_zero_norm (v w : list R) : norm v = 0 → cosine v w = 0.
Proof. intros N. unfold cosine. destruct (Req_dec_T (norm v) 0); [reflexivity | contradiction]. Qed.

Lemma floored_best_cons (q : list R) e cache b :
  floored_best q (e :: cache) b
  = floored_best q cache (Rmax b (cosine q e.2)).
Proof. reflexivity. Qed.

Lemma floored_best_ge (q : list R) cache b : b <= floored_best q cache b.
Proof.
  revert b. induction cache as [|e cache IH]; intros b.
  - cbn. lra.
  - rewrite floored_best_cons.
    eapply Rle_trans; [apply Rmax_l | apply IH].
Qed.

Lemma floored_best_bounds (q : list R) cache b e :
  e ∈ cache → cosine q e.2 <= floored_best q cache b.
Proof.
  revert b. induction cache as [|e' cache IH]; intros b He.
  - by apply not_elem_of_nil in He.
  - rewrite floored_best_cons. apply elem_of_cons in He as [-> | He].
    + eapply Rle_trans; [apply Rmax_r | apply floored_best_ge].
    + now apply IH.
Qed.

Lemma floored_best_attained (q : list R) cache b :
  floored_best q cache b = b
  ∨ ∃ e, e ∈ cache ∧ cosine q e.2 = floored_best q cache b.
Proof.
  revert b. induction cache as [|e cache IH]; intros b; [now left|].
  rewrite floored_best_cons.
  destruct (IH (Rmax b (cosine q e.2))) as [E | (e' & He & E)].
  - rewrite E. unfold Rmax. destruct (Rle_dec b (cosine q e.2)).
    + right. exists e. split; [apply list_elem_of_here | reflexivity].
    + now left.
  - right. exists e'. split; [now apply list_elem_of_further | exact E].
Qed.

Lemma floored_best_upper (q : list R) cache b u :
  b <= u → (∀ e, e ∈ cache → cosine q e.2 <= u) →
  floored_best q cache b <= u.
Proof.
  intros Hb Hu.
  destruct (floored_best_attained q cache b) as [-> | (e & He & <-)]; auto.
Qed.

Lemma first_at_elem (q : list R) s cache id :
  first_at q s cache = Some id → ∃ v, (id, v) ∈ cache ∧ cosine q v = s.
Proof.
  induction cache as [|[id' v] cache IH]; cbn; [discriminate|].
  destruct (Req_dec_T (cosine q v) s) as [E | N].
  - intros [= <-]. exists v. split; [apply list_elem_of_here | exact E].
  - intros H. destruct (IH H) as (v' & Hv & E).
    exists v'. split; [now apply list_elem_of_further | exact E].
Qed.

Lemma first_at_some (q : list R) s cache e :
  e ∈ cache → cosine q e.2 = s → is_Some (first_at q s cache).
Proof.
  induction cache as [|[id' v] cache IH]; intros He E.
  - by apply not_elem_of_nil in He.
  - cbn. destruct (Req_dec_T (cosine q v) s); [by eexists|].
    apply elem_of_cons in He as [-> | He]; [contradiction | now apply IH].
Qed.

(** The loop of [recognize_face] in closed form. *)
Lemma scan_spec (q : list R) cache bm bs :
  Forall (λ e, length e.2 = length q) cache →
  scan q cache bm bs
  = Some (if Rlt_dec bs (floored_best q cache bs)
          then first_at q (floored_best q cache bs) cache else bm,
          floored_best q cache bs).
Proof.
  revert bm bs. induction cache as [|[id v] cache IH]; intros bm bs Hs.
  - cbn. destruct (Rlt_dec bs bs); [lra | reflexivity].
  - apply Forall_cons in Hs as [Hv Hs]. cbn in Hv.
    rewrite floored_best_cons. cbn [scan first_at snd].
    rewrite cosine_similarity_total by congruence.
    pose proof (floored_best_ge q cache (Rmax bs (cosine q v))) as G.
    destruct (Rlt_dec bs (cosine q v)) as [L | NL].
    + rewrite IH by exact Hs.
      rewrite Rmax_right in * by lra.
      destruct (Rlt_dec bs (floored_best q cache (cosine q v))); [|lra].
      destruct (Rlt_dec (cosine q v) (floored_best q cache (cosine q v))) as [L2 | NL2].
      * destruct (Req_dec_T _ _); [lra | reflexivity].
      * destruct (Req_dec_T _ _); [reflexivity | lra].
    + rewrite IH by exact Hs.
      rewrite Rmax_left in * by lra.
      destruct (Rlt_dec bs (floored_best q cache bs)); [|reflexivity].
      destruct (Req_dec_T _ _); [lra | reflexivity].
Qed.

Context {Image : Type}.
Variable generate_embedding : Image → option (list R).

Lemma recognize_face_eq (r : FaceRecognizer) (roi : Image) (q : list R) :
  generate_embedding roi = Some q →
  Forall (λ e, length e.2 = length q) (embeddings_cache r) →
  let s := floored_best q (embeddings_cache r) 0 in
  recognize_face generate_embedding r roi
  = Some (if Rle_dec (threshold r) s
          then (if Rlt_dec 0 s then first_at q s (embeddings_cache r)
                else None)
          else None, s).
Proof.
  intros Hq Hs s. unfold recognize_face. rewrite Hq.
  destruct (embeddings_cache r) as [|e cache] eqn:Hc.
  - cbn. subst s. cbn. destruct (Rle_dec _ _); [|reflexivity].
    destruct (Rlt_dec 0 0); [lra | reflexivity].
  - cbn [length Nat.eqb]. rewrite scan_spec by exact Hs. fold s.
    destruct (Rle_dec (threshold r) s); reflexivity.
Qed.


(** C4, amended.  [match] returns [(None, 0.0)] on an empty registry (and
    when no embedding could be extracted); this is a result, not an
    error.  For a query [q] of the dimension of the enrolled vectors it
    computes the cosine similarity to every enrolled vector and reports
    [s], the largest of 0.0 and those similarities (the scan starts from
    0.0, so a negative maximum is reported as 0.0).  When [s] reaches
    the threshold and is positive, the result is the first enrolled
    subject whose similarity is [s], together with [s]; when [s] reaches
    the threshold but no similarity is positive, and when [s] is below
    the threshold, the result is no subject together with [s]. *)
Theorem recognize_face_spec (r : FaceRecognizer) (roi : Image) :
  (embeddings_cache r = [] →
     recognize_face generate_embedding r roi = Some (None, 0))
  ∧ (generate_embedding roi = None →
       recognize_face generate_embedding r roi = Some (None, 0))
  ∧ (∀ q, generate_embedding roi = Some q →
       Forall (λ e, length e.2 = length q) (embeddings_cache r) →
       let s := floored_best q (embeddings_cache r) 0 in
       (∀ e, e ∈ embeddings_cache r →
             _cosine_similarity q e.2 = Some (cosine q e.2)
             ∧ cosine q e.2 <= s)
       ∧ 0 <= s
       ∧ (s = 0 ∨ ∃ e, e ∈ embeddings_cache r ∧ cosine q e.2 = s)
       ∧ (threshold r <= s → 0 < s →
            ∃ id v, recognize_face generate_embedding r roi = Some (Some id, s)
                    ∧ (id, v) ∈ embeddings_cache r ∧ cosine q v = s
                    ∧ first_at q s (embeddings_cache r) = Some id)
       ∧ (threshold r <= s → s = 0 →
            recognize_face generate_embedding r roi = Some (None, 0))
       ∧ (s < threshold r →
            recognize_face generate_embedding r roi = Some (None, s))).
Proof.
  split_and!.
  - intros Hc. unfold recognize_face. rewrite Hc.
    destruct (generate_embedding roi); reflexivity.
  - intros Hq. unfold recognize_face. now rewrite Hq.
  - intros q Hq Hs s.
    pose proof (recognize_face_eq r roi q Hq Hs) as Heq. cbv zeta in Heq.
    fold s in Heq.
    assert (H0 : 0 <= s) by apply floored_best_ge.
    split_and!.
    + intros e He. split.
      * apply cosine_similarity_total. symmetry.
        exact (proj1 (Forall_forall _ _) Hs e He).
      * now apply floored_best_bounds.
    + exact H0.
    + apply floored_best_attained.
    + intros Ht Hpos. rewrite Heq.
      destruct (Rle_dec (threshold r) s); [|lra].
      destruct (Rlt_dec 0 s); [|lra].
      destruct (floored_best_attained q (embeddings_cache r) 0)
        as [E | (e & He & E)]; [fold s in E; lra|].
      destruct (first_at_some q s (embeddings_cache r) e He E) as [id Hid].
      destruct (first_at_elem q s _ id Hid) as (v & Hv & Ev).
      exists id, v. rewrite Hid. auto.
    + intros Ht Hz. rewrite Heq, Hz.
      destruct (Rle_dec (threshold r) 0); [|reflexivity].
      destruct (Rlt_dec 0 0); [lra | reflexivity].
    + intros Hlt. rewrite Heq.
      destruct (Rle_dec (threshold r) s); [lra | reflexivity].
Qed.

(** C8, amended.  A vector of norm zero has similarity 0.0 with every
    vector of its dimension, itself included, so the similarity of an
    enrolled vector with itself is not always 1.0.  Querying [match]
    with an enrolled vector [v], all enrolled vectors having the
    dimension of [v], reports a best similarity that is at least the
    similarity of [v] with itself and at least 0.0; it yields a match,
    the first enrolled subject whose similarity to [v] is that best
    similarity, whenever the threshold is at most the similarity of [v]
    with itself and that similarity is positive; when [v] has norm zero
    it yields no subject and similarity 0.0.  A query whose reported
    best similarity (the largest of 0.0 and the similarities) is
    strictly below the threshold yields no subject and that best
    similarity, which bounds every similarity to an enrolled vector. *)
Theorem self_similarity_and_match :
  (∀ v w, length v = length w → norm v = 0 →
     _cosine_similarity v w = Some 0 ∧ _cosine_similarity w v = Some 0)
  ∧ (∀ (r : FaceRecognizer) (roi : Image) id v,
       generate_embedding roi = Some v →
       (id, v) ∈ embeddings_cache r →
       Forall (λ e, length e.2 = length v) (embeddings_cache r) →
       ∃ self who best,
         _cosine_similarity v v = Some self
         ∧ recognize_face generate_embedding r roi = Some (who, best)
         ∧ self <= best ∧ 0 <= best
         ∧ (threshold r <= self → 0 < self →
              ∃ id' v', who = Some id' ∧ (id', v') ∈ embeddings_cache r
                        ∧ _cosine_similarity v v' = Some best
                        ∧ first_at v best (embeddings_cache r) = Some id')
         ∧ (best < threshold r → who = None)
         ∧ (norm v = 0 → self = 0 ∧ best = 0 ∧ who = None))
  ∧ (∀ (r : FaceRecognizer) (roi : Image) q,
       generate_embedding roi = Some q →
       Forall (λ e, length e.2 = length q) (embeddings_cache r) →
       floored_best q (embeddings_cache r) 0 < threshold r →
       recognize_face generate_embedding r roi
       = Some (None, floored_best q (embeddings_cache r) 0)
       ∧ ∀ e, e ∈ embeddings_cache r →
              _cosine_similarity q e.2 = Some (cosine q e.2)
              ∧ cosine q e.2 <= floored_best q (embeddings_cache r) 0).
Proof.
  split_and!.
  - intros v w Hlen Hv.
    rewrite !cosine_similarity_total by congruence.
    rewrite (cosine_zero_norm v w Hv). split; [reflexivity|].
    unfold cosine. destruct (Req_dec_T (norm w) 0); [reflexivity|].
    destruct (Req_dec_T (norm v) 0); [reflexivity | contradiction].
  - intros r roi id v Hq Hin Hs.
    set (best := floored_best v (embeddings_cache r) 0).
    assert (Hself : cosine v v <= best)
      by exact (floored_best_bounds v (embeddings_cache r) 0 (id, v) Hin).
    assert (H0 : 0 <= best) by apply floored_best_ge.
    pose proof (recognize_face_eq r roi v Hq Hs) as E.
    cbv zeta in E. fold best in E.
    eexists (cosine v v), _, best.
    split_and!; [now apply cosine_similarity_total | exact E | exact Hself
                | exact H0 | | |].
    + intros Ht Hpos.
      destruct (Rle_dec (threshold r) best); [|lra].
      destruct (Rlt_dec 0 best); [|lra].
      destruct (floored_best_attained v (embeddings_cache r) 0)
        as [E0 | (e & He & Ee)]; [fold best in E0; lra|].
      fold best in Ee.
      destruct (first_at_some v best (embeddings_cache r) e He Ee)
        as [id' Hid].
      destruct (first_at_elem v best _ id' Hid) as (v' & Hv' & Ev).
      exists id', v'. split_and!; [exact Hid | exact Hv' | | exact Hid].
      rewrite cosine_similarity_total, Ev; [reflexivity|].
      symmetry. exact (proj1 (Forall_forall _ _) Hs (id', v') Hv').
    + intros Hlt. destruct (Rle_dec (threshold r) best); [lra | reflexivity].
    + intros Hz.
      assert (Hb : best = 0).
      { apply Rle_antisym; [|exact H0].
        apply floored_best_upper; [lra|].
        intros e _. rewrite (cosine_zero_norm v e.2 Hz). lra. }
      split_and!; [now apply cosine_zero_norm | exact Hb |].
      destruct (Rle_dec (threshold r) best); [|reflexivity].
      destruct (Rlt_dec 0 best); [lra | reflexivity].
  - intros r roi q Hq Hs Hlt. split.
    + rewrite (recognize_face_eq r roi q Hq Hs). cbv zeta.
      destruct (Rle_dec _ _); [lra | reflexivity].
    + intros e He. split; [|now apply floored_best_bounds].
      apply cosine_similarity_total. symmetry.
      exact (proj1 (Forall_forall _ _) Hs e He).
Qed.

End RecognizerProofs.

Section RecognizerExamples.
Import Recognizer Matching.
Local Open Scope R_scope.

Lemma norm_unit : norm [1] = 1.
Proof. unfold norm. simpl. replace (1 * 1 + 0) with 1 by ring. apply sqrt_1. Qed.

Lemma norm_minus_unit : norm [-1] = 1.
Proof.
  unfold norm. simpl. replace (-1 * -1 + 0) with 1 by ring. apply sqrt_1.
Qed.

Lemma norm_zero : norm [0] = 0.
Proof. unfold norm. simpl. replace (0 * 0 + 0) with 0 by ring. apply sqrt_0. Qed.

Lemma cosine_opposite : cosine [-1] [1] = -1.
Proof.
  unfold cosine. rewrite norm_unit, norm_minus_unit.
  destruct (Req_dec_T 1 0); [lra|]. simpl. field.
Qed.

(** C4, as stated, fails: with the unit vector enrolled and the opposite
    vector as query, the maximum of the similarities is -1.0, which the
    rule of the specification reports, while [recognize_face] reports
    0.0. *)
Lemma negative_similarity_is_not_reported :
  _cosine_similarity [-1] [1] = Some (-1)
  ∧ match_by_spec (threshold Scenarios.registry_A)
                  (embeddings_cache Scenarios.registry_A) [-1]
    = (None, -1)
  ∧ recognize_face Scenarios.extractor Scenarios.registry_A [-1]
    = Some (None, 0)
  ∧ recognize_face Scenarios.extractor Scenarios.registry_A [-1]
    ≠ Some (match_by_spec (threshold Scenarios.registry_A)
                          (embeddings_cache Scenarios.registry_A) [-1]).
Proof.
  assert (C : _cosine_similarity [-1] [1] = Some (-1)).
  { rewrite cosine_similarity_total by reflexivity. now rewrite cosine_opposite. }
  assert (S : match_by_spec (threshold Scenarios.registry_A)
                (embeddings_cache Scenarios.registry_A) [-1] = (None, -1)).
  { unfold match_by_spec. simpl. rewrite cosine_opposite.
    destruct (Rle_dec _ _); [lra | reflexivity]. }
  assert (M : recognize_face Scenarios.extractor Scenarios.registry_A [-1]
              = Some (None, 0)).
  { unfold recognize_face. simpl. rewrite C.
    destruct (Rlt_dec 0 (-1)); [lra|].
    destruct (Rle_dec _ _); [lra | reflexivity]. }
  split_and!; [exact C | exact S | exact M |].
  rewrite M, S. intros [= H]. lra.
Qed.

Lemma recognize_face_spec_witness :
  recognize_face Scenarios.extractor Scenarios.registry_A [-1]
  = Some (None, floored_best [-1] (embeddings_cache Scenarios.registry_A) 0).
Proof.
  apply (proj2 (proj2 (recognize_face_spec Scenarios.extractor
                         Scenarios.registry_A [-1])) [-1] eq_refl).
  - repeat constructor.
  - unfold floored_best. simpl. rewrite cosine_opposite.
    rewrite Rmax_left by lra. lra.
Defined.

(** C8, as stated, fails: [_load_embeddings] enrols the zero vector found
    in the enrollment directory; its similarity with itself is 0.0, not
    1.0, and querying with it yields no match although the threshold is
    below 1.0.  Also, for the query opposite to the enrolled unit vector
    the best similarity is -1.0, below the threshold, and the value
    reported is 0.0. *)
Lemma zero_vector_is_not_similar_to_itself :
  embeddings_cache Scenarios.registry_Z = [("Z", [0])]
  ∧ _cosine_similarity [0] [0] = Some 0
  ∧ threshold Scenarios.registry_Z <= 1
  ∧ recognize_face Scenarios.extractor Scenarios.registry_Z [0]
    = Some (None, 0)
  ∧ cosine [-1] [1] = -1
  ∧ recognize_face Scenarios.extractor Scenarios.registry_A [-1]
    = Some (None, 0).
Proof.
  assert (C : _cosine_similarity [0] [0] = Some 0).
  { rewrite cosine_similarity_total by reflexivity.
    now rewrite cosine_zero_norm by apply norm_zero. }
  split_and!; [reflexivity | exact C | simpl; lra | | apply cosine_opposite |].
  - unfold recognize_face. simpl. rewrite C.
    destruct (Rlt_dec 0 0); [lra|].
    destruct (Rle_dec _ _); [lra | reflexivity].
  - unfold recognize_face. simpl.
    rewrite cosine_similarity_total, cosine_opposite by reflexivity.
    destruct (Rlt_dec 0 (-1)); [lra|].
    destruct (Rle_dec _ _); [lra | reflexivity].
Qed.

Lemma self_similarity_and_match_witness :
  recognize_face Scenarios.extractor Scenarios.registry_A [1]
  = Some (Some "A", 1).
Proof.
  assert (Hin : ("A", [1]) ∈ embeddings_cache Scenarios.registry_A)
    by apply list_elem_of_here.
  assert (Hs : Forall (λ e : string * list R, length e.2 = length [1])
                 (embeddings_cache Scenarios.registry_A))
    by (repeat constructor).
  destruct (proj1 (proj2 (self_similarity_and_match Scenarios.extractor))
              Scenarios.registry_A [1] "A" [1] eq_refl Hin Hs)
    as (self & who & best & Hself & Hres & _ & _ & Hmatch & _ & _).
  clear Hin Hs.
  assert (E1 : _cosine_similarity [1] [1] = Some 1).
  { rewrite cosine_similarity_total by reflexivity.
    now rewrite cosine_self by (rewrite norm_unit; lra). }
  assert (Es : self = 1) by congruence.
  destruct Hmatch as (id' & v' & -> & Hin & Hbest & _).
  - rewrite Es. cbn. lra.
  - rewrite Es. lra.
  - apply list_elem_of_singleton in Hin. injection Hin as -> ->.
    rewrite Hres. f_equal. f_equal. congruence.
Defined.

End RecognizerExamples.

(** ** Enrollment *)

Section EnrollmentProofs.

Import Recognizer Matching.
Local Open Scope R_scope.

Lemma dict_lookup_set_eq {V} (k : string) (v : V) d :
  Py.dict_lookup k (Py.dict_set k v d) = Some v.
Proof.
  induction d as [|[k' v'] d IH]; cbn.
  - now rewrite String.eqb_refl.
  - destruct (String.eqb_spec k k') as [<- | N]; cbn.
    + now rewrite String.eqb_refl.
    + destruct (String.eqb_spec k k'); [contradiction | exact IH].
Qed.

Lemma dict_lookup_set_ne {V} (k k' : string) (v : V) d :
  k' ≠ k → Py.dict_lookup k' (Py.dict_set k v d) = Py.dict_lookup k' d.
Proof.
  intros N. induction d as [|[k0 v0] d IH]; cbn.
  - destruct (String.eqb_spec k' k); [contradiction | reflexivity].
  - destruct (String.eqb_spec k k0) as [<- | N0]; cbn.
    + destruct (String.eqb_spec k' k); [contradiction | reflexivity].
    + destruct (String.eqb_spec k' k0); [reflexivity | exact IH].
Qed.

Lemma dict_set_keys {V} k (v : V) d :
  map fst (Py.dict_set k v d)
  = if decide (k ∈ map fst d) then map fst d else map fst d ++ [k].
Proof.
  induction d as [|[k' v'] d IH]; cbn.
  - rewrite decide_False by apply not_elem_of_nil. reflexivity.
  - destruct (String.eqb_spec k k') as [<- | N]; cbn.
    + rewrite decide_True by apply list_elem_of_here. reflexivity.
    + rewrite IH. destruct (decide (k ∈ map fst d)) as [H | H].
      * rewrite decide_True by (now apply list_elem_of_further). reflexivity.
      * rewrite decide_False; [reflexivity|].
        intros H'. apply elem_of_cons in H' as [-> | H']; contradiction.
Qed.






Lemma mapM_cosine (e : list R) (rest : list (list R)) (n : nat) :
  length e = n → Forall (λ v, length v = n) rest →
  mapM (_cosine_similarity e) rest = Some (map (cosine e) rest).
Proof.
  intros He. induction 1 as [|v rest Hv Hs IH]; [reflexivity|].
  cbn. rewrite cosine_similarity_total by congruence. cbn.
  rewrite IH. reflexivity.
Qed.

(** The double loop computes the similarity of every unordered pair. *)
Lemma pairwise_spec (l : list (list R)) (n : nat) :
  Forall (λ v, length v = n) l →
  pairwise l = Some (map (λ p, cosine p.1 p.2) (unordered_pairs l)).
Proof.
  induction 1 as [|e rest He Hs IH]; [reflexivity|].
  cbn [pairwise unordered_pairs].
  rewrite (mapM_cosine e rest n He Hs), IH.
  rewrite map_app, map_map. reflexivity.
Qed.





Context {Image : Type}.
Variable generate_embedding : Image → option (list R).


End EnrollmentProofs.

Section EnrollmentExamples.
Import Recognizer Matching.
Local Open Scope R_scope.







End EnrollmentExamples.

(** ** The history deques and the statistics read from them *)

Section StressExtras.
Import Stress Invariants.

Lemma deque_append_length {A} (m : nat) (x : A) (d : list A) :
  (length d ≤ m)%nat → (length (Py.deque_append m x d) ≤ m)%nat.
Proof.
  intros H. unfold Py.deque_append. rewrite length_drop, length_app. simpl. lia.
Qed.

Lemma deque_append_room {A} (m : nat) (x : A) (d : list A) :
  (length d < m)%nat → Py.deque_append m x d = d ++ [x].
Proof.
  intros H. unfold Py.deque_append. rewrite length_app. simpl.
  replace (length d + 1 - m)%nat with 0%nat by lia. reflexivity.
Qed.

Lemma deque_append_full {A} (m : nat) (x : A) (d : list A) :
  length d = m → (0 < m)%nat → Py.deque_append m x d = drop 1 d ++ [x].
Proof.
  intros H Hm. unfold Py.deque_append. rewrite length_app. simpl.
  replace (length d + 1 - m)%nat with 1%nat by lia.
  destruct d; [simpl in H; lia | reflexivity].
Qed.

Lemma add_emotion_bounded now em eid conf c :
  bounded c → bounded (add_emotion now em eid conf c).
Proof.
  intros [Hg He]. unfold bounded, add_emotion. cbn.
  split; [now apply deque_append_length|].
  intros e h. destruct eid as [i|]; [|apply He].
  destruct (Py.truthy (Some i)); [|apply He].
  destruct (decide (e = i)) as [-> | Hne].
  - rewrite lookup_insert_eq. intros [= <-].
    apply deque_append_length.
    destruct (employee_histories c !! i) as [h0|] eqn:E; cbn; [eauto | lia].
  - rewrite lookup_insert_ne by congruence. apply He.
Qed.

Lemma clear_history_bounded eid c :
  bounded c → bounded (clear_history eid c).
Proof.
  intros [Hg He]. unfold bounded, clear_history.
  assert (Hall : bounded {| max_history := max_history c;
                            window_size := window_size c;
                            employee_histories := ∅; global_history := [];
                            stress_events := stress_events c |}).
  { split; cbn; [lia|]. intros e h. rewrite lookup_empty. discriminate. }
  destruct eid as [i|]; [|exact Hall].
  destruct (Py.truthy (Some i)); [|exact Hall].
  cbn. split; [exact Hg|]. intros e h.
  destruct (employee_histories c !! i) eqn:E; [|apply He].
  destruct (decide (e = i)) as [-> | Hne].
  - rewrite lookup_insert_eq. intros [= <-]. cbn. lia.
  - rewrite lookup_insert_ne by congruence. apply He.
Qed.

Lemma check_stress_threshold_frame now thr eid c :
  let c' := (check_stress_threshold now thr eid c).2 in
  max_history c' = max_history c ∧ window_size c' = window_size c
  ∧ employee_histories c' = employee_histories c
  ∧ global_history c' = global_history c.
Proof.
  unfold check_stress_threshold. destruct (Qlt_le_dec _ _); cbn; auto.
Qed.

(** X2.  [add_emotion] is a FIFO push: on deques within [max_history > 0]
    the new entry goes last on the global deque and, for a non-empty
    subject id, on that subject's deque (created empty when missing);
    the oldest entry leaves exactly when the deque was full.  Every other
    deque and the event log are left alone, and without a subject id
    (absent or empty) no subject deque changes. *)
Theorem add_emotion_is_fifo (now : Z) (em : string)
    (eid : option string) (conf : Q) (c : StressCalculator) :
  let entry := {| emotion := em; timestamp := now; confidence := conf |} in
  let c' := add_emotion now em eid conf c in
  let push (d : list Sample) :=
    if decide (length d < max_history c)%nat then d ++ [entry]
    else drop 1 d ++ [entry] in
  bounded c → (0 < max_history c)%nat →
  global_history c' = push (global_history c)
  ∧ last (global_history c') = Some entry
  ∧ (∀ e, eid = Some e → e ≠ "" →
       employee_histories c' !! e
       = Some (push (default [] (employee_histories c !! e)))
       ∧ ∀ e', e' ≠ e →
           employee_histories c' !! e' = employee_histories c !! e')
  ∧ (eid = None ∨ eid = Some "" →
       employee_histories c' = employee_histories c)
  ∧ stress_events c' = stress_events c.
Proof.
  intros entry c' push [Hg He] Hm.
  assert (Hpush : ∀ d, (length d ≤ max_history c)%nat →
                       Py.deque_append (max_history c) entry d = push d).
  { intros d Hd. unfold push. destruct (decide _).
    - now apply deque_append_room.
    - apply deque_append_full; lia. }
  assert (Hlast : ∀ d, last (push d) = Some entry).
  { intros d. unfold push. destruct (decide _); apply last_snoc. }
  split_and!.
  - unfold c', add_emotion. cbn. now apply Hpush.
  - unfold c', add_emotion. cbn. rewrite Hpush by exact Hg. apply Hlast.
  - intros e -> Hne. unfold c', add_emotion, Py.truthy. cbn.
    destruct (String.eqb_spec e ""); [contradiction|]. cbn. split.
    + rewrite lookup_insert_eq. f_equal. apply Hpush.
      destruct (employee_histories c !! e) eqn:E; cbn; [eauto | lia].
    + intros e' Hne'. now rewrite lookup_insert_ne by congruence.
  - intros [-> | ->]; reflexivity.
  - reflexivity.
Qed.

Lemma add_emotion_is_fifo_witness :
  bounded Scenarios.calc_global ∧ (0 < max_history Scenarios.calc_global)%nat
  ∧ last (global_history (add_emotion 5 "sad" None 1 Scenarios.calc_global))
    = Some {| emotion := "sad"; timestamp := 5; confidence := 1 |}.
Proof.
  assert (H : bounded Scenarios.calc_global).
  { split; [vm_compute; lia|]. intros e h. cbn. rewrite lookup_empty.
    discriminate. }
  assert (Hm : (0 < max_history Scenarios.calc_global)%nat) by (cbn; lia).
  split_and!; [exact H | exact Hm |].
  exact (proj1 (proj2 (add_emotion_is_fifo 5 "sad" None 1
                         Scenarios.calc_global H Hm))).
Defined.

(** X3.  [clear_history] for a known subject empties that subject's
    deque and nothing else, after which the subject's stress index is 0.0
    for every window and its distribution is empty (the empty deque is
    used, not the global one); for an unknown subject it changes no
    deque; without a subject it empties every deque.  The event log is
    never cleared. *)
Theorem cleared_subject_reads_zero (c : StressCalculator) (e : string) :
  e ≠ "" →
  (is_Some (employee_histories c !! e) →
     let c' := clear_history (Some e) c in
     employee_histories c' !! e = Some []
     ∧ (∀ w, calculate_stress_index c' (Some e) w = 0%Q)
     ∧ (∀ now hours, get_emotion_distribution now c' (Some e) hours = [])
     ∧ global_history c' = global_history c
     ∧ stress_events c' = stress_events c
     ∧ ∀ e', e' ≠ e →
         employee_histories c' !! e' = employee_histories c !! e')
  ∧ (employee_histories c !! e = None →
       employee_histories (clear_history (Some e) c) = employee_histories c
       ∧ global_history (clear_history (Some e) c) = global_history c)
  ∧ (let c' := clear_history None c in
     global_history c' = [] ∧ employee_histories c' = ∅
     ∧ stress_events c' = stress_events c
     ∧ ∀ eid w, calculate_stress_index c' eid w = 0%Q).
Proof.
  intros Hne.
  assert (Ht : Py.truthy (Some e) = true).
  { unfold Py.truthy. destruct (String.eqb_spec e ""); [contradiction | done]. }
  split_and!.
  - intros [h Hh] c'.
    assert (Hl : employee_histories c' !! e = Some []).
    { unfold c', clear_history. rewrite Ht. cbn. rewrite Hh.
      apply lookup_insert_eq. }
    assert (Hs : select_history c' (Some e) = []).
    { unfold select_history. now rewrite Ht, Hl. }
    split_and!; try reflexivity.
    + exact Hl.
    + intros w. unfold calculate_stress_index. now rewrite Hs.
    + intros now hours. unfold get_emotion_distribution. now rewrite Hs.
    + unfold c', clear_history. now rewrite Ht.
    + unfold c', clear_history. now rewrite Ht.
    + intros e' Hne'. unfold c', clear_history. rewrite Ht. cbn. rewrite Hh.
      now rewrite lookup_insert_ne by congruence.
  - intros Hn. unfold clear_history. rewrite Ht. cbn. now rewrite Hn.
  - cbv zeta. split_and!; try reflexivity.
    intros eid w. unfold calculate_stress_index.
    assert (Hs : select_history (clear_history None c) eid = []).
    { unfold select_history. cbn. destruct eid as [i|]; [|reflexivity].
      destruct (Py.truthy (Some i)); [|reflexivity].
      now rewrite lookup_empty. }
    now rewrite Hs.
Qed.

Lemma cleared_subject_reads_zero_witness :
  "E1" ≠ "" ∧ is_Some (employee_histories Scenarios.calc_E1 !! "E1")
  ∧ calculate_stress_index (clear_history (Some "E1") Scenarios.calc_E1)
      (Some "E1") None = 0%Q.
Proof.
  assert (H1 : "E1" ≠ "") by discriminate.
  assert (H2 : is_Some (employee_histories Scenarios.calc_E1 !! "E1"))
    by (eexists; reflexivity).
  split_and!; [exact H1 | exact H2 |].
  exact (proj1 (proj2 (proj1 (cleared_subject_reads_zero Scenarios.calc_E1
                                "E1" H1) H2)) None).
Defined.

(** *** Counting with an insertion-ordered dict *)

Lemma dict_get_set_eq k v d : Py.dict_get k (Py.dict_set k v d) = v.
Proof.
  induction d as [|[k' v'] d IH]; cbn.
  - now rewrite String.eqb_refl.
  - destruct (String.eqb_spec k k') as [<- | N]; cbn.
    + now rewrite String.eqb_refl.
    + destruct (String.eqb_spec k k'); [contradiction | exact IH].
Qed.

Lemma dict_get_set_ne k k' v d :
  k' ≠ k → Py.dict_get k' (Py.dict_set k v d) = Py.dict_get k' d.
Proof.
  intros N. induction d as [|[k0 v0] d IH]; cbn.
  - destruct (String.eqb_spec k' k); [contradiction | reflexivity].
  - destruct (String.eqb_spec k k0) as [<- | N0]; cbn.
    + destruct (String.eqb_spec k' k); [contradiction | reflexivity].
    + destruct (String.eqb_spec k' k0); [reflexivity | exact IH].
Qed.

Lemma dict_set_sum k v d :
  (list_sum (map snd (Py.dict_set k v d)) + Py.dict_get k d
   = list_sum (map snd d) + v)%nat.
Proof.
  induction d as [|[k' v'] d IH]; cbn; [lia|].
  destruct (String.eqb_spec k k') as [<- | N]; cbn; [lia|].
  unfold list_sum in IH. lia.
Qed.

Lemma dict_get_absent k d : k ∉ map fst d → Py.dict_get k d = 0%nat.
Proof.
  induction d as [|[k' v'] d IH]; cbn; [reflexivity|].
  intros H. destruct (String.eqb_spec k k') as [-> | N].
  - exfalso. apply H. apply list_elem_of_here.
  - apply IH. intros H'. apply H. now apply list_elem_of_further.
Qed.

Lemma count_of_cons e x l :
  count_of e (x :: l) = ((if decide (x = e) then 1 else 0) + count_of e l)%nat.
Proof.
  unfold count_of. rewrite filter_cons. destruct (decide (x = e)); reflexivity.
Qed.

(** The counting loop from an arbitrary dict. *)
Lemma count_loop l : ∀ d,
  NoDup (map fst d) →
  let d' := fold_left (λ d e, Py.dict_set e (Py.dict_get e d + 1)%nat d) l d in
  NoDup (map fst d')
  ∧ (∀ e, Py.dict_get e d' = (Py.dict_get e d + count_of e l)%nat)
  ∧ list_sum (map snd d') = (list_sum (map snd d) + length l)%nat
  ∧ (∀ k, k ∈ map fst d' ↔ k ∈ map fst d ∨ k ∈ l).
Proof.
  induction l as [|x l IH]; intros d Hd; cbv zeta; cbn [fold_left length].
  - split_and!; [exact Hd | intros; unfold count_of; cbn; lia | lia |].
    intros k. split; [auto | intros [H | H]; [exact H | by apply not_elem_of_nil in H]].
  - set (d1 := Py.dict_set x (Py.dict_get x d + 1)%nat d).
    assert (Hk : map fst d1
                 = if decide (x ∈ map fst d) then map fst d else map fst d ++ [x])
      by apply dict_set_keys.
    assert (Hd1 : NoDup (map fst d1)).
    { rewrite Hk. destruct (decide _); [exact Hd|].
      apply NoDup_app. split_and!; [exact Hd | | apply NoDup_singleton].
      intros y Hy Hy'. apply list_elem_of_singleton in Hy' as ->. contradiction. }
    destruct (IH d1 Hd1) as (N & G & S & K). cbv zeta in *.
    split_and!.
    + exact N.
    + intros e. rewrite G, count_of_cons. unfold d1.
      destruct (decide (x = e)) as [-> | Hne].
      * rewrite dict_get_set_eq. lia.
      * rewrite dict_get_set_ne by congruence. lia.
    + rewrite S. pose proof (dict_set_sum x (Py.dict_get x d + 1)%nat d).
      fold d1 in H. lia.
    + intros k. rewrite K, Hk. destruct (decide (x ∈ map fst d)).
      * rewrite elem_of_cons. split; [intros [?|?]; auto|].
        intros [?|[->|?]]; auto.
      * rewrite elem_of_app, list_elem_of_singleton, elem_of_cons. tauto.
Qed.

Lemma count_emotions_spec l :
  NoDup (map fst (count_emotions l))
  ∧ (∀ e, Py.dict_get e (count_emotions l) = count_of e l)
  ∧ list_sum (map snd (count_emotions l)) = length l
  ∧ (∀ k, k ∈ map fst (count_emotions l) ↔ k ∈ l).
Proof.
  destruct (count_loop l [] (NoDup_nil_2)) as (N & G & S & K).
  cbv zeta in *. fold (count_emotions l) in *.
  split_and!; [exact N | exact G | exact S |].
  intros k. rewrite K. split; [intros [H|H]; [by apply not_elem_of_nil in H | exact H] | auto].
Qed.

Lemma count_emotions_pos l e n :
  (e, n) ∈ count_emotions l → n = count_of e l ∧ (0 < n)%nat.
Proof.
  destruct (count_emotions_spec l) as (N & G & _ & K).
  intros Hin.
  assert (He : e ∈ map fst (count_emotions l)).
  { apply list_elem_of_fmap. exists (e, n). auto. }
  assert (Hn : Py.dict_get e (count_emotions l) = n).
  { clear -N Hin. induction (count_emotions l) as [|[k v] d IH];
      [by apply not_elem_of_nil in Hin|].
    cbn in *. apply NoDup_cons in N as [Hk N].
    apply elem_of_cons in Hin as [[= <- <-] | Hin].
    - now rewrite String.eqb_refl.
    - destruct (String.eqb_spec e k) as [-> | _]; [|now apply IH].
      exfalso. apply Hk. apply list_elem_of_fmap. exists (k, n). auto. }
  apply K in He. rewrite G in Hn. split; [now rewrite Hn|]. rewrite <- Hn.
  unfold count_of. apply list_elem_of_In, in_split in He as (l1 & l2 & ->).
  rewrite filter_app, filter_cons, decide_True by reflexivity.
  rewrite length_app. cbn. lia.
Qed.

(** X4.  [get_emotion_distribution] counts the labels of the samples of
    the selected deque that are not older than [hours]: the keys are
    distinct, the entry of a label is the number of such samples carrying
    it, the entries add up to the number of such samples, a label is a
    key exactly when some such sample carries it, and no entry is 0. *)
Theorem emotion_distribution_counts (now : Z) (c : StressCalculator)
    (eid : option string) (hours : Z) :
  let cutoff := now - hours * 3600 * 1000000 in
  let recent :=
    filter (λ s, cutoff ≤ timestamp s) (select_history c eid) in
  let d := get_emotion_distribution now c eid hours in
  NoDup (map fst d)
  ∧ (∀ e, Py.dict_get e d = count_of e (map emotion recent))
  ∧ list_sum (map snd d) = length recent
  ∧ (∀ e, e ∈ map fst d ↔ ∃ s, s ∈ recent ∧ emotion s = e)
  ∧ (∀ e n, (e, n) ∈ d → (0 < n)%nat).
Proof.
  intros cutoff recent d.
  destruct (count_emotions_spec (map emotion recent)) as (N & G & S & K).
  change (count_emotions (map emotion recent)) with d in *.
  split_and!; [exact N | exact G | now rewrite S, length_map | |].
  - intros e. rewrite K, list_elem_of_fmap. split.
    + intros (s & -> & Hs). eauto.
    + intros (s & Hs & <-). eauto.
  - intros e n Hin. exact (proj2 (count_emotions_pos _ e n Hin)).
Qed.

Lemma negative_indicator (x : string) :
  list_sum (map (λ e, if decide (x = e) then 1 else 0)%nat NEGATIVE_EMOTIONS)
  = if is_negative x then 1%nat else 0%nat.
Proof.
  unfold is_negative, NEGATIVE_EMOTIONS. cbn [map list_sum existsb foldr].
  repeat match goal with
  | |- context [String.eqb x ?s] =>
      destruct (String.eqb_spec x s) as [-> | ?]; [vm_compute; reflexivity|]
  end.
  rewrite !decide_False by assumption. reflexivity.
Qed.

Lemma negative_sum (l : list string) :
  list_sum (map (λ e, count_of e l) NEGATIVE_EMOTIONS)
  = length (filter (λ x, is_negative x = true) l).
Proof.
  induction l as [|x l IH].
  - reflexivity.
  - rewrite filter_cons.
    assert (E : list_sum (map (λ e, count_of e (x :: l)) NEGATIVE_EMOTIONS)
                = (list_sum (map (λ e, if decide (x = e) then 1 else 0)%nat
                                 NEGATIVE_EMOTIONS)
                   + list_sum (map (λ e, count_of e l) NEGATIVE_EMOTIONS))%nat).
    { clear. induction NEGATIVE_EMOTIONS as [|e L IHL]; [reflexivity|].
      cbn [map list_sum foldr]. unfold list_sum in IHL.
      rewrite IHL, count_of_cons. lia. }
    rewrite E, IH, negative_indicator.
    destruct (is_negative x); reflexivity.
Qed.

Lemma filter_map_emotion (l : list Sample) :
  length (filter (λ x, is_negative x = true) (map emotion l))
  = negative_count l.
Proof.
  unfold negative_count. induction l as [|s l IH]; [reflexivity|].
  cbn [map]. rewrite !filter_cons.
  destruct (decide (is_negative (emotion s) = true));
    cbn [length]; now rewrite IH.
Qed.

Lemma max_by_count_spec d : ∀ best,
  Py.max_by_count best d ∈ best :: d
  ∧ ∀ kv, kv ∈ best :: d → (snd kv ≤ snd (Py.max_by_count best d))%nat.
Proof.
  induction d as [|kv d IH]; intros best; cbn [Py.max_by_count].
  - split; [apply list_elem_of_here|].
    intros kv H. apply list_elem_of_singleton in H as ->. lia.
  - destruct (Nat.ltb_spec (snd best) (snd kv)) as [Hlt | Hge].
    + destruct (IH kv) as [Hin Hmax]. split.
      * now apply list_elem_of_further.
      * intros kv' H. apply elem_of_cons in H as [-> | H]; [|now apply Hmax].
        pose proof (Hmax kv (list_elem_of_here _ _)). lia.
    + destruct (IH best) as [Hin Hmax]. split.
      * apply elem_of_cons in Hin as [-> | Hin];
          [apply list_elem_of_here | do 2 apply list_elem_of_further; exact Hin].
      * intros kv' H. apply elem_of_cons in H as [-> | H];
          [apply Hmax, list_elem_of_here|].
        apply elem_of_cons in H as [-> | H].
        -- pose proof (Hmax best (list_elem_of_here _ _)). lia.
        -- apply Hmax. now apply list_elem_of_further.
Qed.

(** X5.  [get_metrics] is consistent with the deque it reads:
    [total_detections] is the number of samples of the last 24 hours,
    [negative_count] the number of those with a label of
    [NEGATIVE_EMOTIONS], hence at most the total;
    [negative_percentage] lies in [0, 100]; [predominant_emotion] is
    "neutral" when there is no such sample and otherwise a label of the
    distribution whose count no other label exceeds. *)
Theorem metrics_are_consistent (now : Z) (c : StressCalculator)
    (eid : option string) :
  let recent :=
    filter (λ s, now - 24 * 3600 * 1000000 ≤ timestamp s)
           (select_history c eid) in
  let m := get_metrics now c eid in
  total_detections m = length recent
  ∧ m_negative_count m = negative_count recent
  ∧ (m_negative_count m ≤ total_detections m)%nat
  ∧ (0 <= negative_percentage m ∧ negative_percentage m <= 100)%Q
  ∧ (recent = [] → predominant_emotion m = "neutral")
  ∧ (recent ≠ [] →
       ∃ n, (predominant_emotion m, n) ∈ emotion_distribution m
            ∧ (0 < n)%nat
            ∧ ∀ e n', (e, n') ∈ emotion_distribution m → (n' ≤ n)%nat).
Proof.
  intros recent m.
  destruct (count_emotions_spec (map emotion recent)) as (N & G & S & K).
  rewrite length_map in S.
  set (d := get_emotion_distribution now c eid 24).
  change (count_emotions (map emotion recent)) with d in *.
  assert (Ht : total_detections m = length recent) by exact S.
  assert (Hn : m_negative_count m = negative_count recent).
  { unfold m, get_metrics. cbn [m_negative_count]. fold d.
    rewrite <- filter_map_emotion, <- negative_sum.
    f_equal. apply map_ext. intros e. apply G. }
  assert (Hle : (m_negative_count m ≤ total_detections m)%nat).
  { rewrite Hn, Ht. apply length_filter. }
  assert (Hp : (0 <= negative_percentage m ∧ negative_percentage m <= 100)%Q).
  { unfold m, get_metrics in *. cbn [negative_percentage m_negative_count
                                      total_detections] in *. fold d in Hle |- *.
    destruct (Nat.ltb_spec 0 (list_sum (map snd d))).
    + apply ratio_bounds; [exact Hle | assumption].
    + split; discriminate. }
  split; [exact Ht|]. split; [exact Hn|]. split; [exact Hle|].
  split; [exact Hp|]. split.
  - intros Hr. unfold m, get_metrics. cbn [predominant_emotion]. fold d.
    assert (Hd : d = []).
    { destruct d as [|[k v] d']; [reflexivity|]. exfalso.
      assert (Hk : k ∈ map fst ((k, v) :: d')) by apply list_elem_of_here.
      apply K, list_elem_of_fmap in Hk as (s & _ & Hs). rewrite Hr in Hs.
      by apply not_elem_of_nil in Hs. }
    now rewrite Hd.
  - intros Hr. unfold m, get_metrics.
    cbn [predominant_emotion emotion_distribution]. fold d.
    assert (P : ∀ e n, (e, n) ∈ d → (0 < n)%nat).
    { intros e n Hin. exact (proj2 (count_emotions_pos _ e n Hin)). }
    destruct d as [|kv d'] eqn:Hd.
    { exfalso. destruct recent as [|s r]; [contradiction|]. simpl in S.
      discriminate. }
    destruct (max_by_count_spec d' kv) as [Hin Hmax].
    exists (snd (Py.max_by_count kv d')).
    assert (Hpair : (fst (Py.max_by_count kv d'), snd (Py.max_by_count kv d'))
                    = Py.max_by_count kv d')
      by (destruct (Py.max_by_count kv d'); reflexivity).
    split_and!.
    + rewrite Hpair. exact Hin.
    + apply (P (fst (Py.max_by_count kv d'))). rewrite Hpair. exact Hin.
    + intros e n' H. exact (Hmax (e, n') H).
Qed.

(** X6.  [check_stress_threshold] answers whether the stress index of the
    scope (default window) is strictly above the threshold; exactly then
    it appends one event to the log, carrying the scope, the index, the
    reading of the clock and the label of the newest sample of the
    selected deque ("unknown" on an empty one); otherwise the calculator
    is unchanged.  The deques are never touched, and the scope's
    [stress_events_count] grows by one exactly when the answer is yes. *)
Theorem threshold_check_logs_one_event (now : Z) (threshold : Q)
    (eid : option string) (c : StressCalculator) :
  let index := calculate_stress_index c eid None in
  let r := check_stress_threshold now threshold eid c in
  (r.1 = true ↔ (threshold < index)%Q)
  ∧ (r.1 = true →
       ∃ ev, stress_events r.2 = stress_events c ++ [ev]
             ∧ se_employee_id ev = eid ∧ se_stress_index ev = index
             ∧ se_timestamp ev = now
             ∧ se_emotion ev
               = match last (select_history c eid) with
                 | Some s => emotion s
                 | None => "unknown"
                 end)
  ∧ (r.1 = false → r.2 = c)
  ∧ employee_histories r.2 = employee_histories c
  ∧ global_history r.2 = global_history c
  ∧ (∀ t, stress_events_count (get_metrics t r.2 eid)
          = (stress_events_count (get_metrics t c eid)
             + if r.1 then 1 else 0)%nat).
Proof.
  intros index r. unfold r, check_stress_threshold. fold index.
  destruct (Qlt_le_dec threshold index) as [Hlt | Hge]; cbn [fst snd].
  - split_and!; try reflexivity.
    + tauto.
    + intros _. eexists. split; [reflexivity|]. cbn. auto.
    + discriminate.
    + intros t. unfold get_metrics. cbn [stress_events_count stress_events].
      rewrite filter_app, length_app. f_equal.
      rewrite filter_cons, filter_nil.
      assert (E : event_matches eid
                    {| se_timestamp := now; se_stress_index := index;
                       se_emotion := match last (select_history c eid) with
                                     | Some e => emotion e
                                     | None => "unknown"
                                     end;
                       se_person_count := 1; se_employee_id := eid |} = true).
      { unfold event_matches. cbn. destruct eid; [apply String.eqb_refl | reflexivity]. }
      rewrite decide_True by exact E. reflexivity.
  - split_and!; try reflexivity.
    + split; [discriminate|]. intros H. exfalso.
      apply (Qlt_irrefl index). eapply Qle_lt_trans; eassumption.
    + discriminate.
    + intros t. lia.
Qed.

End StressExtras.

(** ** The stress index in the words of the specification *)

Section ScopeProofs.
Import Stress Invariants Scoring.

Lemma negative_label (e : string) :
  is_negative e = true ↔ e ∈ negative_labels.
Proof.
  unfold is_negative, NEGATIVE_EMOTIONS, negative_labels. cbn [existsb].
  repeat match goal with
  | |- context [String.eqb e ?s] =>
      destruct (String.eqb_spec e s) as [-> | ?];
        [cbn; split; [intros _; set_solver | reflexivity]|]
  end.
  cbn. split; [discriminate|]. rewrite !elem_of_cons. intros H.
  repeat (destruct H as [H | H]; [contradiction|]).
  by apply not_elem_of_nil in H.
Qed.

Lemma negative_count_negatives (l : list Sample) :
  negative_count l = negatives l.
Proof.
  unfold negative_count, negatives.
  induction l as [|s l IH]; [reflexivity|].
  rewrite !filter_cons.
  destruct (decide (is_negative (emotion s) = true)) as [H | H];
    destruct (decide (emotion s ∈ negative_labels)) as [H' | H'];
    cbn [length]; rewrite ?IH; try reflexivity; exfalso.
  - apply H', negative_label, H.
  - apply H, negative_label, H'.
Qed.

Lemma round_half_even_near (y : Q) :
  (Qabs (inject_Z (Py.round_half_even y) - y) <= 1 # 2)%Q.
Proof.
  pose proof (Qfloor_le y) as Hl. pose proof (Qlt_floor y) as Hu.
  rewrite inject_Z_plus in Hu. change (inject_Z 1) with 1%Q in Hu.
  apply Qabs_Qle_condition. unfold Py.round_half_even.
  destruct (Qcompare (y - inject_Z (Qfloor y)) (1 # 2)) eqn:C.
  - apply Qeq_alt in C.
    destruct (Z.even (Qfloor y)); rewrite ?inject_Z_plus;
      change (inject_Z 1) with 1%Q; split; Lqa.lra.
  - apply Qlt_alt in C. split; Lqa.lra.
  - apply Qgt_alt in C. rewrite inject_Z_plus.
    change (inject_Z 1) with 1%Q. split; Lqa.lra.
Qed.

Lemma round2_rounded (x : Q) : rounded_2 x (Py.round2 x).
Proof.
  exists (Py.round_half_even (x * 100)). split; [reflexivity|].
  pose proof (round_half_even_near (x * 100)) as H.
  apply Qabs_Qle_condition in H. apply Qabs_Qle_condition.
  assert (E : (Py.round2 x
               == inject_Z (Py.round_half_even (x * 100)) / 100)%Q).
  { unfold Py.round2. rewrite (Qmake_Qdiv _ 100). reflexivity. }
  rewrite E. destruct H as [H1 H2].
  set (k := inject_Z (Py.round_half_even (x * 100))) in *.
  unfold Qdiv. change (/ 100)%Q with (1 # 100)%Q.
  split; Lqa.lra.
Qed.

Lemma scope_history_selected (c : StressCalculator) (scope : option string)
    (h : list Sample) :
  scope_history c scope h → select_history c scope = h.
Proof.
  intros [[-> ->] | [(e & -> & Hne & Hh) | (e & -> & Hu & ->)]].
  - reflexivity.
  - unfold select_history, Py.truthy.
    destruct (String.eqb_spec e ""); [contradiction|]. cbn. now rewrite Hh.
  - unfold select_history, Py.truthy. destruct Hu as [-> | Hu].
    + reflexivity.
    + destruct (negb _); [now rewrite Hu | reflexivity].
Qed.

Lemma effective_window_recent (c : StressCalculator) (window : option Z)
    (n : nat) (h : list Sample) :
  effective_window c window n → (0 < n)%nat →
  recent c window h = most_recent n h.
Proof.
  intros Hw Hn. unfold recent, most_recent.
  assert (E : Py.or_int window (window_size c) = Z.of_nat n).
  { destruct Hw as [[-> Hz] | [[-> | ->] Hs]]; cbn; [|exact Hs..].
    destruct (Z.eqb_spec (Z.of_nat n) 0); [lia | reflexivity]. }
  rewrite E. unfold Py.slice_from.
  destruct (Z.ltb_spec (- Z.of_nat n) 0); [|lia]. f_equal. lia.
Qed.

(** The index that [calculate_stress_index] returns is the index of the
    selected history in the words of the specification. *)
Lemma stress_index_of (c : StressCalculator) (scope : option string)
    (window : option Z) (h : list Sample) (n : nat) :
  scope_history c scope h → effective_window c window n → (0 < n)%nat →
  ((length h < 5)%nat → calculate_stress_index c scope window = 0%Q)
  ∧ ((5 ≤ length h)%nat →
       calculate_stress_index c scope window
       = Py.round2 (inject_Z (Z.of_nat (negatives (most_recent n h)))
                    / inject_Z (Z.of_nat (length (most_recent n h))) * 100)
       ∧ length (most_recent n h) = Nat.min n (length h)).
Proof.
  intros Hs Hw Hn. unfold calculate_stress_index.
  rewrite (scope_history_selected c scope h Hs).
  rewrite (effective_window_recent c window n h Hw Hn).
  assert (Hlen : length (most_recent n h) = Nat.min n (length h)).
  { unfold most_recent. rewrite length_drop. lia. }
  split.
  - intros H5. destruct (Nat.ltb_spec (length h) 5); [reflexivity | lia].
  - intros H5. destruct (Nat.ltb_spec (length h) 5); [lia|].
    split; [|exact Hlen]. unfold index_of_recent.
    destruct (Nat.eqb_spec (length (most_recent n h)) 0); [lia|].
    now rewrite negative_count_negatives.
Qed.

Lemma stress_index_index_of (c : StressCalculator) (scope : option string)
    (window : option Z) (h : list Sample) (n : nat) :
  scope_history c scope h → effective_window c window n → (0 < n)%nat →
  index_of h n (calculate_stress_index c scope window).
Proof.
  intros Hs Hw Hn.
  destruct (stress_index_of c scope window h n Hs Hw Hn) as [H0 H5].
  split; [exact H0|]. intros Hge. destruct (H5 Hge) as [-> _].
  unfold negative_share.
  rewrite (round2_proper _ (100 * (inject_Z (Z.of_nat (negatives (most_recent n h)))
                 / inject_Z (Z.of_nat (length (most_recent n h))))))
    by ring.
  apply round2_rounded.
Qed.

(** C2.  The stress index of a scope whose history is [h] (the global
    history for the global scope, the subject's own history for a
    subject that has one), for a window of [n] samples, [n] positive
    (the caller's [window] when it is given and not 0, the configured
    window size otherwise): it is 0.0 when [h] holds fewer than 5
    samples; otherwise, with [recent] the most recent [n] samples of [h]
    (all of [h] when it holds fewer), it is 100 times the number of
    samples of [recent] with a label in angry, fear, sad, disgust,
    stress_high, fatigue, divided by the number of samples of [recent],
    rounded to two decimals: a multiple of 0.01 no further than 0.005
    from that percentage.  In particular a history of 31 samples whose
    last 30 hold 16 negative ones has index 53.33 for window 30. *)
Theorem stress_index_spec (c : StressCalculator) (scope : option string)
    (window : option Z) (h : list Sample) (n : nat) :
  scope_history c scope h → effective_window c window n → (0 < n)%nat →
  let index := calculate_stress_index c scope window in
  let recent := most_recent n h in
  ((length h < 5)%nat → index = 0%Q)
  ∧ ((5 ≤ length h)%nat →
       length recent = Nat.min n (length h)
       ∧ (∃ older, h = older ++ recent)
       ∧ ∃ k : Z,
           index = k # 100
           ∧ (Qabs (index
                    - 100 * (inject_Z (Z.of_nat (negatives recent))
                             / inject_Z (Z.of_nat (length recent))))
              <= 1 # 200)%Q)
  ∧ (length h = 31%nat → n = 30%nat → negatives recent = 16%nat →
       index = 5333 # 100).
Proof.
  intros Hs Hw Hn index recent.
  destruct (stress_index_of c scope window h n Hs Hw Hn) as [H0 H5].
  destruct (stress_index_index_of c scope window h n Hs Hw Hn) as [_ I5].
  split_and!.
  - exact H0.
  - intros Hge. destruct (H5 Hge) as [_ Hlen].
    split_and!; [exact Hlen | |exact (I5 Hge)].
    exists (take (length h - n) h). symmetry. apply take_drop.
  - intros H31 -> Hneg. destruct (H5 ltac:(lia)) as [E Hlen].
    unfold index. rewrite E. fold recent. rewrite Hneg.
    fold recent in Hlen. rewrite Hlen, H31. reflexivity.
Qed.

Lemma stress_index_spec_witness :
  calculate_stress_index Scenarios.calc_narrow (Some "E1") (Some 30)
  = 5333 # 100
  ∧ calculate_stress_index Scenarios.calc_narrow (Some "E1") None
    = 10000 # 100.
Proof.
  assert (Hs : scope_history Scenarios.calc_narrow (Some "E1")
                 Scenarios.history_E1).
  { right. left. exists "E1". split_and!; [reflexivity | discriminate |].
    reflexivity. }
  assert (Hw : effective_window Scenarios.calc_narrow (Some 30) 30).
  { left. split; [reflexivity | discriminate]. }
  assert (Hn : (0 < 30)%nat) by lia.
  pose proof (stress_index_spec Scenarios.calc_narrow (Some "E1") (Some 30)
                Scenarios.history_E1 30 Hs Hw Hn) as H.
  cbv zeta in H. destruct H as (_ & _ & H30).
  split.
  - apply H30; vm_compute; reflexivity.
  - vm_compute. reflexivity.
Defined.

Lemma dict_get_elem (k : string) (v : nat) (d : list (string * nat)) :
  NoDup (map fst d) → (k, v) ∈ d → Py.dict_get k d = v.
Proof.
  induction d as [|[k' v'] d IH]; intros N Hin;
    [by apply not_elem_of_nil in Hin|].
  cbn in *. apply NoDup_cons in N as [Hk N].
  apply elem_of_cons in Hin as [[= <- <-] | Hin].
  - now rewrite String.eqb_refl.
  - destruct (String.eqb_spec k k') as [-> | _]; [|now apply IH].
    exfalso. apply Hk. apply list_elem_of_fmap. exists (k', v). auto.
Qed.

Lemma dict_get_key (k : string) (d : list (string * nat)) :
  k ∈ map fst d → (k, Py.dict_get k d) ∈ d.
Proof.
  induction d as [|[k' v'] d IH]; cbn; intros Hin;
    [by apply not_elem_of_nil in Hin|].
  destruct (String.eqb_spec k k') as [-> | N]; [apply list_elem_of_here|].
  apply list_elem_of_further, IH.
  apply elem_of_cons in Hin as [-> | Hin]; [contradiction | exact Hin].
Qed.

(** The predominant label of a non-empty distribution is one of its keys,
    and no key has a larger count. *)
Lemma predominant_is_maximal (kv : string * nat) (d : list (string * nat)) :
  NoDup (map fst (kv :: d)) →
  let p := fst (Py.max_by_count kv d) in
  p ∈ map fst (kv :: d)
  ∧ ∀ label, (Py.dict_get label (kv :: d) ≤ Py.dict_get p (kv :: d))%nat.
Proof.
  intros N p. destruct (max_by_count_spec d kv) as [Hin Hmax].
  assert (Hp : (p, snd (Py.max_by_count kv d)) ∈ kv :: d).
  { unfold p. destruct (Py.max_by_count kv d); exact Hin. }
  split.
  - apply list_elem_of_fmap. eexists. split; [|exact Hp]. reflexivity.
  - intros label. rewrite (dict_get_elem p _ _ N Hp).
    destruct (decide (label ∈ map fst (kv :: d))) as [Hl | Hl].
    + exact (Hmax _ (dict_get_key label _ Hl)).
    + rewrite (dict_get_absent label _ Hl). lia.
Qed.

(** C10.  For a subject identifier [e] without an entry in
    [employee_histories], with [g] the global history:
    the stress index is the index of [g] (0.0 when [g] holds fewer than
    5 samples, else the rounded percentage of negative samples among the
    most recent ones of [g]), and equals the index of the global scope;
    the emotion distribution counts, label by label, the samples of [g]
    that are not older than [hours]; the threshold check answers whether
    that index exceeds the threshold and, when it does, logs it with the
    label of the newest sample of [g]; the metrics count the samples of
    [g] of the last 24 hours and the negative ones among them, and their
    predominant emotion is a label of those samples that no other label
    outnumbers. *)
Theorem unseen_subject_uses_global_history (c : StressCalculator)
    (e : string) :
  employee_histories c !! e = None →
  let g := global_history c in
  (∀ window n, effective_window c window n → (0 < n)%nat →
     index_of g n (calculate_stress_index c (Some e) window))
  ∧ (∀ window, calculate_stress_index c (Some e) window
               = calculate_stress_index c None window)
  ∧ (∀ now hours,
       let recent :=
         filter (λ s, now - hours * 3600 * 1000000 ≤ timestamp s) g in
       let d := get_emotion_distribution now c (Some e) hours in
       NoDup (map fst d)
       ∧ (∀ label, Py.dict_get label d = count_of label (map emotion recent))
       ∧ (∀ label, label ∈ map fst d ↔ ∃ s, s ∈ recent ∧ emotion s = label)
       ∧ d = get_emotion_distribution now c None hours)
  ∧ (∀ now thr,
       let index := calculate_stress_index c (Some e) None in
       let r := check_stress_threshold now thr (Some e) c in
       (r.1 = true ↔ (thr < index)%Q)
       ∧ r.1 = (check_stress_threshold now thr None c).1
       ∧ (r.1 = true →
            ∃ ev, stress_events r.2 = stress_events c ++ [ev]
                  ∧ se_stress_index ev = index
                  ∧ se_employee_id ev = Some e
                  ∧ se_emotion ev = match last g with
                                    | Some s => emotion s
                                    | None => "unknown"
                                    end)
       ∧ (r.1 = false → r.2 = c))
  ∧ (∀ now,
       let recent :=
         filter (λ s, now - 24 * 3600 * 1000000 ≤ timestamp s) g in
       let labels := map emotion recent in
       let m := get_metrics now c (Some e) in
       m_stress_index m = calculate_stress_index c (Some e) None
       ∧ emotion_distribution m = get_emotion_distribution now c (Some e) 24
       ∧ total_detections m = length recent
       ∧ m_negative_count m = negatives recent
       ∧ negative_percentage m = negative_percentage (get_metrics now c None)
       ∧ (recent = [] → predominant_emotion m = "neutral")
       ∧ (recent ≠ [] →
            predominant_emotion m ∈ labels
            ∧ ∀ label, (count_of label labels
                        ≤ count_of (predominant_emotion m) labels)%nat)).
Proof.
  intros Hnone g.
  pose proof (select_history_unknown c e Hnone) as Hsel.
  assert (Hidx : ∀ w, calculate_stress_index c (Some e) w
                      = calculate_stress_index c None w).
  { intros w. unfold calculate_stress_index. now rewrite Hsel. }
  assert (Hdist : ∀ now hours,
            get_emotion_distribution now c (Some e) hours
            = count_emotions
                (map emotion
                   (filter (λ s, now - hours * 3600 * 1000000 ≤ timestamp s)
                           g))).
  { intros now hours. unfold get_emotion_distribution. now rewrite Hsel. }
  split_and!.
  - intros window n Hw Hn. apply stress_index_index_of; [|exact Hw | exact Hn].
    right. right. exists e. split_and!; [reflexivity | now right | reflexivity].
  - exact Hidx.
  - intros now hours recent d. unfold d. rewrite Hdist. fold recent.
    destruct (count_emotions_spec (map emotion recent)) as (N & G & _ & K).
    split_and!; [exact N | exact G | | reflexivity].
    intros label. rewrite K, list_elem_of_fmap. split.
    + intros (s & -> & Hs). eauto.
    + intros (s & Hs & <-). eauto.
  - intros now thr index r. unfold r, check_stress_threshold.
    fold index. rewrite <- (Hidx None). fold index. rewrite Hsel.
    destruct (Qlt_le_dec thr index) as [Hlt | Hge]; cbn [fst snd].
    + split_and!; [tauto | reflexivity | | discriminate].
      intros _. eexists. split; [reflexivity|]. cbn. auto.
    + split_and!; [|reflexivity | discriminate | reflexivity].
      split; [discriminate|]. intros H. exfalso.
      apply (Qlt_irrefl index). eapply Qle_lt_trans; eassumption.
  - intros now recent labels m.
    destruct (count_emotions_spec labels) as (N & G & S & K).
    unfold labels in S. rewrite length_map in S. fold labels in S.
    assert (Hd : get_emotion_distribution now c (Some e) 24
                 = count_emotions labels) by apply Hdist.
    assert (Hd0 : get_emotion_distribution now c None 24
                  = count_emotions labels) by reflexivity.
    split_and!.
    + reflexivity.
    + reflexivity.
    + unfold m, get_metrics. cbn [total_detections]. now rewrite Hd.
    + unfold m, get_metrics. cbn [m_negative_count]. rewrite Hd.
      rewrite <- negative_count_negatives, <- filter_map_emotion,
        <- negative_sum.
      f_equal. apply map_ext. intros l. apply G.
    + unfold m, get_metrics. cbn [negative_percentage].
      now rewrite Hd, Hd0.
    + intros Hr. unfold m, get_metrics. cbn [predominant_emotion].
      rewrite Hd. unfold labels. now rewrite Hr.
    + intros Hr. unfold m, get_metrics. cbn [predominant_emotion].
      rewrite Hd.
      destruct (count_emotions labels) as [|kv d'] eqn:Ed.
      { exfalso. apply Hr, nil_length_inv. cbn in S. lia. }
      destruct (predominant_is_maximal kv d' N) as [Hin Hmax].
      cbv zeta in Hin, Hmax. split.
      * now apply K.
      * intros label. rewrite <- !G. apply Hmax.
Qed.

Lemma unseen_subject_uses_global_history_witness :
  employee_histories Scenarios.calc_global !! "E9" = None
  ∧ calculate_stress_index Scenarios.calc_global (Some "E9") None
    = 5333 # 100
  ∧ Py.dict_get "angry"
      (get_emotion_distribution 0 Scenarios.calc_global (Some "E9") 24)
    = 16%nat
  ∧ total_detections (get_metrics 0 Scenarios.calc_global (Some "E9"))
    = 31%nat
  ∧ m_negative_count (get_metrics 0 Scenarios.calc_global (Some "E9"))
    = 17%nat.
Proof.
  assert (Hn : employee_histories Scenarios.calc_global !! "E9" = None)
    by reflexivity.
  pose proof (unseen_subject_uses_global_history Scenarios.calc_global "E9"
                Hn) as H.
  cbv zeta in H. destruct H as (_ & Hi & Hd & _ & Hm).
  destruct (Hd 0 24) as (_ & Hc & _).
  destruct (Hm 0) as (_ & _ & Ht & Hg & _).
  split_and!.
  - exact Hn.
  - rewrite Hi. vm_compute. reflexivity.
  - rewrite Hc. vm_compute. reflexivity.
  - rewrite Ht. vm_compute. reflexivity.
  - rewrite Hg. vm_compute. reflexivity.
Defined.

End ScopeProofs.

(** ** What the alert and report services leave alone *)

Section FrameProofs.
Import Store Sys Alerts Invariants.

Local Abbreviation high_stress_block eid sd c :=
  (if c then
     let alert_key := high_stress_key eid in
     ok ← _can_generate_alert alert_key;
     if ok : bool then
       alert ← _create_high_stress_alert eid sd;
       match alert with
       | Some a =>
           alert_id ← db_add_alert a;
           match alert_id with
           | Some id =>
               if id =? 0 then mret []
               else
                 t ← read_clock;
                 _ ← set_last_alert_time alert_key t;
                 mret [with_id id a]
           | None => mret []
           end
       | None => mret []
       end
     else mret []
   else mret []).

Lemma high_stress_block_framed eid sd (c : bool) w :
  framed w (final (high_stress_block eid sd c w)).
Proof.
  unfold framed.
  destruct c; cbv beta zeta; [|run_m; auto].
  unfold _can_generate_alert. run_m.
  destruct (last_alert_times (mgr w) !! high_stress_key eid) as [T|];
    run_m; [destruct (Qle_bool _ _)|]; run_m; auto.
  all: unfold _create_high_stress_alert;
    (destruct (length sd =? 0)%nat; [run_m; auto|]);
    unfold db_add_alert; run_m;
    (destruct (hd false (faults w)); [run_m; auto|]);
    run_m; unfold Store.add_alert; run_m;
    match goal with |- context [?a =? 0] => destruct (a =? 0) end;
    run_m; cbn; auto.
Qed.

Lemma check_fatigue_framed eid w :
  framed w (final (_check_fatigue eid w)).
Proof.
  unfold framed, _check_fatigue. run_m.
  destruct (_ || _); [|run_m; auto].
  cbv zeta. unfold _can_generate_alert. run_m.
  destruct (last_alert_times (mgr w) !! fatigue_key eid) as [T|];
    run_m; [destruct (Qle_bool _ _)|]; run_m; auto.
  all: unfold db_add_alert; run_m;
    (destruct (hd false (faults w)); [run_m; auto|]);
    run_m; unfold Store.add_alert; run_m;
    match goal with |- context [?a =? 0] => destruct (a =? 0) end;
    run_m; cbn; auto.
Qed.

Lemma framed_trans w1 w2 w3 : framed w1 w2 → framed w2 w3 → framed w1 w3.
Proof.
  unfold framed. intros (A1 & A2 & A3 & A4 & A5) (B1 & B2 & B3 & B4 & B5).
  split_and!; congruence.
Qed.

Lemma check_alerts_framed eid w :
  framed w (final (check_and_generate_alerts eid w)).
Proof.
  rewrite check_and_generate_alerts_unfold.
  set (sd := stress_detections_at _ _ _ _). set (c := _ <=? _).
  pose proof (high_stress_block_framed eid sd c (final (read_clock w))) as F2.
  assert (F1 : framed w (final (read_clock w))) by (unfold framed; cbn; auto).
  destruct (high_stress_block eid sd c (final (read_clock w)))
    as [alerts w2 | w2]; cbn [final] in *;
    [|eauto using framed_trans].
  pose proof (check_fatigue_framed eid w2) as F3.
  destruct (_check_fatigue eid w2) as [f w3 | w3]; cbn [final] in *;
    eauto using framed_trans.
Qed.

Lemma exec_bounded o w :
  bounded (calc w) → bounded (calc (App.exec o w)).
Proof.
  intros Hb. destruct o; cbn [App.exec].
  - unfold Sys.add_emotion. run_m. now apply add_emotion_bounded.
  - unfold db_add_detection. run_m.
    destruct (hd false (faults w)); run_m; exact Hb.
  - unfold Sys.check_stress_threshold. run_m.
    destruct (Qlt_le_dec _ _); run_m; [|exact Hb].
    destruct (check_stress_threshold_frame (next_reading w) threshold
                employee_id (calc w)) as (E1 & _ & E3 & E4).
    cbv zeta in *. destruct Hb as [Hg He].
    split; [now rewrite E1, E4 | intros e h; rewrite E1, E3; apply He].
  - now rewrite (proj1 (check_alerts_framed employee_id w)).
  - unfold acknowledge_alert, db_update_alert_status. run_m.
    destruct (hd false (faults w)); run_m; exact Hb.
  - unfold resolve_alert, db_update_alert_status. run_m.
    destruct (hd false (faults w)); run_m; exact Hb.
  - unfold Reports.generate_report. run_m.
    destruct (Store.get_detections _ _ _ _ _); run_m; [exact Hb|].
    unfold Reports._save_report. run_m.
    destruct (hd false (faults w)); run_m; exact Hb.
Qed.

(** X1.  No deque ever holds more than [max_history] entries: this holds
    of a new calculator, is kept by every operation the window drives
    (adding emotions, storing detections, threshold checks, alert
    evaluations, acknowledging and resolving alerts, reports), in any
    order and whatever writes fail, and is kept by [clear_history]. *)
Theorem histories_stay_bounded :
  (∀ m ws, bounded (Stress.init m ws))
  ∧ (∀ ops w, bounded (calc w) → bounded (calc (App.run ops w)))
  ∧ (∀ eid c, bounded c → bounded (Stress.clear_history eid c)).
Proof.
  split_and!.
  - intros m ws. split; cbn; [lia|]. intros e h. rewrite lookup_empty.
    discriminate.
  - intros ops. induction ops as [|o ops IH]; intros w Hb; cbn; [exact Hb|].
    apply IH. now apply exec_bounded.
  - intros eid c. apply clear_history_bounded.
Qed.

Lemma histories_stay_bounded_witness :
  bounded (calc Scenarios.world_E1)
  ∧ (length (Stress.global_history
               (calc (App.run [App.AddEmotion "sad" (Some "E1") 1]
                              Scenarios.world_E1))) ≤ 100)%nat.
Proof.
  assert (H : bounded (calc Scenarios.world_E1)).
  { split; [vm_compute; lia|]. intros e h.
    cbn. intros Hl. apply lookup_singleton_Some in Hl as [_ <-].
    vm_compute. lia. }
  split; [exact H|].
  exact (proj1 (proj1 (proj2 histories_stay_bounded)
                  [App.AddEmotion "sad" (Some "E1") 1]
                  Scenarios.world_E1 H)).
Defined.
End FrameProofs.

(** ** Alerts: severity, rows stored, the pending list *)

Section AlertExtras.
Import Store Stress Sys Alerts Invariants.

Lemma is_high_stress_level d :
  is_high_stress d = true →
  ∃ s, d_stress_level d = Some s ∧ Qeq_bool s 0 = false ∧ (7 # 10 < s)%Q.
Proof.
  unfold is_high_stress. destruct (d_stress_level d) as [s|]; [|discriminate].
  intros H. apply andb_prop in H as [H1 H2]. exists s.
  apply negb_true_iff in H1, H2. split_and!; [reflexivity | exact H1 |].
  apply Qnot_le_lt. intros Hle. apply Qle_bool_iff in Hle. congruence.
Qed.

Lemma sum_stress_from l : ∀ acc,
  Forall (λ d, is_high_stress d = true) l →
  (acc + (7 # 10) * inject_Z (Z.of_nat (length l))
   <= fold_left
        (λ acc d, match d_stress_level d with
                  | Some s => if Qeq_bool s 0 then acc else (acc + s)%Q
                  | None => acc
                  end) l acc)%Q
  ∧ (l ≠ [] →
     (acc + (7 # 10) * inject_Z (Z.of_nat (length l))
      < fold_left
          (λ acc d, match d_stress_level d with
                    | Some s => if Qeq_bool s 0 then acc else (acc + s)%Q
                    | None => acc
                    end) l acc)%Q).
Proof.
  induction l as [|d l IH]; intros acc Hl.
  - split; [|congruence]. cbn [fold_left length].
    change (inject_Z (Z.of_nat 0)) with 0%Q. Lqa.lra.
  - apply Forall_cons in Hl as [Hd Hl].
    destruct (is_high_stress_level d Hd) as (s & Es & Ez & Hs).
    cbn [fold_left]. rewrite Es, Ez.
    destruct (IH (acc + s)%Q Hl) as [IH1 _].
    assert (E : (inject_Z (Z.of_nat (length (d :: l)))
                 == 1 + inject_Z (Z.of_nat (length l)))%Q).
    { cbn [length]. rewrite Nat2Z.inj_succ, <- Z.add_1_l, inject_Z_plus.
      reflexivity. }
    rewrite E. split; [|intros _]; Lqa.lra.
Qed.

Lemma average_of_high_stress l :
  Forall (λ d, is_high_stress d = true) l → l ≠ [] →
  (7 # 10 < sum_stress l / inject_Z (Z.of_nat (length l)))%Q.
Proof.
  intros Hl Hne. destruct (sum_stress_from l 0%Q Hl) as [_ H].
  specialize (H Hne). fold (sum_stress l) in H.
  assert (Hn : (0 < inject_Z (Z.of_nat (length l)))%Q).
  { destruct l; [congruence|]. unfold Qlt. cbn. lia. }
  apply Qlt_shift_div_l; [exact Hn|]. Lqa.lra.
Qed.

Lemma classify_spec (x : Q) :
  (classify x = HIGH ↔ (8 # 10 < x)%Q)
  ∧ (classify x = MEDIUM ↔ (6 # 10 < x ∧ x <= 8 # 10)%Q)
  ∧ (classify x = LOW ↔ (x <= 6 # 10)%Q).
Proof.
  unfold classify.
  destruct (Qle_bool x (8 # 10)) eqn:E8; destruct (Qle_bool x (6 # 10)) eqn:E6;
    cbn [negb];
    try (apply Qle_bool_iff in E8); try (apply Qle_bool_iff in E6);
    try (assert (¬ (x <= 8 # 10)%Q)
           by (intros H; apply Qle_bool_iff in H; congruence));
    try (assert (¬ (x <= 6 # 10)%Q)
           by (intros H; apply Qle_bool_iff in H; congruence));
    split_and!; split; try discriminate; try reflexivity; intros; Lqa.lra.
Qed.


(** X7.  The evaluation passes to [_create_high_stress_alert] only
    detections that carry a stress level above 0.7.  The call raises on
    an empty list (a division by zero); on a non-empty list of such
    detections it reads the clock once and returns a pending
    HIGH_STRESS_PROLONGED alert for the scope, without id, stamped with
    the reading of the clock, whose stress level is above 0.6, so that
    its severity is medium or high, never low. *)
Theorem high_stress_alert_is_never_low (eid : option string)
    (sd : list DetectionEvent) (w : World) :
  (∀ d m now,
     Forall (λ e, is_high_stress e = true) (stress_detections_at d m eid now))
  ∧ (∀ d, is_high_stress d = true
          ↔ ∃ s, d_stress_level d = Some s ∧ (7 # 10 < s)%Q)
  ∧ (sd = [] → _create_high_stress_alert eid sd w = Exc w)
  ∧ (sd ≠ [] → Forall (λ d, is_high_stress d = true) sd →
       ∃ a, _create_high_stress_alert eid sd w
            = Val (Some a) (final (read_clock w))
            ∧ (6 # 10 < a_stress_level a)%Q
            ∧ severity a ≠ LOW
            ∧ alert_type a = HIGH_STRESS_PROLONGED ∧ status a = PENDING
            ∧ a_employee_id a = eid ∧ a_timestamp a = next_reading w
            ∧ alert_id a = 0
            ∧ resolved_at a = None ∧ resolved_by a = None).
Proof.
  split_and!.
  - intros d m now. unfold stress_detections_at. cbv zeta.
    apply Forall_forall. intros x Hx.
    now apply list_elem_of_filter in Hx as [Hx _].
  - intros d. split.
    + intros H. destruct (is_high_stress_level d H) as (s & Es & _ & Hs).
      eauto.
    + intros (s & Es & Hs). unfold is_high_stress. rewrite Es.
      apply andb_true_intro. split; apply negb_true_iff.
      * destruct (Qeq_bool s 0) eqn:E; [|reflexivity].
        apply Qeq_bool_iff in E. rewrite E in Hs. discriminate.
      * destruct (Qle_bool s (7 # 10)) eqn:E; [|reflexivity].
        apply Qle_bool_iff in E. exfalso. Lqa.lra.
  - intros ->. reflexivity.
  - intros Hne Hl. unfold _create_high_stress_alert.
    destruct (Nat.eqb_spec (length sd) 0) as [E | _];
      [apply nil_length_inv in E; contradiction|].
    run_m. eexists. split; [reflexivity|].
    cbn [a_stress_level severity alert_type status a_employee_id a_timestamp
         alert_id resolved_at resolved_by].
    pose proof (average_of_high_stress sd Hl Hne) as Havg.
    destruct (classify_spec (sum_stress sd / inject_Z (Z.of_nat (length sd))))
      as (_ & _ & CL).
    split_and!; try reflexivity; [Lqa.lra|].
    intros Hlow. apply CL in Hlow. Lqa.lra.
Qed.

Lemma appended_nil d : appended d d [].
Proof.
  split_and!; [now rewrite app_nil_r | cbn; lia |].
  intros i a H. by rewrite lookup_nil in H.
Qed.

Lemma appended_one a d :
  alert_id a = 0 → resolved_at a = None → resolved_by a = None →
  appended d (Store.add_alert a d).2 [with_id (Store.add_alert a d).1 a].
Proof.
  intros H0 H1 H2. unfold appended, Store.add_alert. cbn. split_and!.
  - f_equal. destruct a; cbn in *. now subst.
  - lia.
  - intros [|i] x; cbn; [|destruct i; discriminate].
    intros [= <-]. cbn. lia.
Qed.

Lemma appended_app d0 d1 d2 l1 l2 :
  appended d0 d1 l1 → appended d1 d2 l2 → appended d0 d2 (l1 ++ l2).
Proof.
  intros (A1 & S1 & I1) (A2 & S2 & I2). split_and!.
  - now rewrite A2, A1, app_assoc.
  - rewrite S2, S1, length_app. lia.
  - intros i a H. apply lookup_app_Some in H as [H | [Hi H]].
    + now apply I1.
    + rewrite (I2 _ _ H), S1. lia.
Qed.

Local Abbreviation high_stress_block eid sd c :=
  (if c then
     let alert_key := high_stress_key eid in
     ok ← _can_generate_alert alert_key;
     if ok : bool then
       alert ← _create_high_stress_alert eid sd;
       match alert with
       | Some a =>
           alert_id ← db_add_alert a;
           match alert_id with
           | Some id =>
               if id =? 0 then mret []
               else
                 t ← read_clock;
                 _ ← set_last_alert_time alert_key t;
                 mret [with_id id a]
           | None => mret []
           end
       | None => mret []
       end
     else mret []
   else mret []).

(** What the guarded block stores and returns. *)
Lemma high_stress_block_rows eid sd (c : bool) w :
  Forall (λ d, is_high_stress d = true) sd →
  match high_stress_block eid sd c w with
  | Val al w' =>
      appended (db w) (db w') al
      ∧ (al = [] ∨ ∃ a, al = [a] ∧ alert_type a = HIGH_STRESS_PROLONGED
                        ∧ as_created eid a)
  | Exc w' => c = true ∧ sd = [] ∧ db w' = db w
  end.
Proof.
  intros Hsd.
  destruct c; cbv beta zeta; [|run_m; split; [apply appended_nil | auto]].
  unfold _can_generate_alert. run_m.
  destruct (last_alert_times (mgr w) !! high_stress_key eid) as [T|];
    run_m; [destruct (Qle_bool _ _)|]; run_m;
    try (split; [apply appended_nil | auto]).
  all: unfold _create_high_stress_alert;
    (destruct (Nat.eqb_spec (length sd) 0) as [E | E];
      [run_m; split_and!; [reflexivity | now apply nil_length_inv | reflexivity]|]);
    assert (Hne : sd ≠ []) by (intros ->; now apply E);
    pose proof (average_of_high_stress sd Hsd Hne) as Havg;
    unfold db_add_alert; run_m;
    match goal with |- context [Store.add_alert ?x _] => set (a := x) end;
    (destruct (hd false (faults w));
      [run_m; split; [apply appended_nil | auto]|]);
    run_m; pose proof (add_alert_id_nonzero a (db w)) as Hid;
    pose proof (appended_one a (db w) eq_refl eq_refl eq_refl) as Happ;
    destruct (Store.add_alert a (db w)) as [id d'] eqn:Hadd; run_m;
    simpl in Hid, Happ; (destruct (Z.eqb_spec id 0); [contradiction|]); run_m;
    (split; [exact Happ|]); right; eexists; (split; [reflexivity|]);
    (split; [reflexivity|]);
    unfold as_created; cbn; split_and!; try reflexivity;
    intros Hlow; apply classify_spec in Hlow; Lqa.lra.
Qed.

(** [_check_fatigue] always returns; what it stores and returns. *)
Lemma check_fatigue_rows eid w :
  match _check_fatigue eid w with
  | Val (Some a) w' =>
      appended (db w) (db w') [a]
      ∧ alert_type a = FATIGUE_DETECTED ∧ severity a = MEDIUM
      ∧ (a_stress_level a == 5 # 10)%Q ∧ as_created eid a
  | Val None w' => db w' = db w
  | Exc w' => False
  end.
Proof.
  unfold _check_fatigue. run_m.
  destruct (_ || _); [|run_m; reflexivity].
  cbv zeta. unfold _can_generate_alert. run_m.
  destruct (last_alert_times (mgr w) !! fatigue_key eid) as [T|];
    run_m; [destruct (Qle_bool _ _)|]; run_m; try reflexivity.
  all: unfold db_add_alert; run_m;
    match goal with |- context [Store.add_alert ?x _] => set (a := x) end;
    (destruct (hd false (faults w)); [run_m; reflexivity|]);
    run_m; pose proof (add_alert_id_nonzero a (db w)) as Hid;
    pose proof (appended_one a (db w) eq_refl eq_refl eq_refl) as Happ;
    destruct (Store.add_alert a (db w)) as [id d'] eqn:Hadd; run_m;
    simpl in Hid, Happ; (destruct (Z.eqb_spec id 0); [contradiction|]); run_m;
    (split; [exact Happ|]);
    unfold as_created; cbn; split_and!; try reflexivity; discriminate.
Qed.

(** One evaluation: the rows it stores are the alerts it returns. *)
Lemma check_alerts_rows eid w :
  match check_and_generate_alerts eid w with
  | Val al w' =>
      appended (db w) (db w') al
      ∧ Forall (as_created eid) al
      ∧ sublist (map alert_type al) [HIGH_STRESS_PROLONGED; FATIGUE_DETECTED]
  | Exc w' =>
      alert_threshold (mgr w) ≤ 0
      ∧ stress_detections_at (db w) (mgr w) eid (next_reading w) = []
      ∧ db w' = db w
  end.
Proof.
  rewrite check_and_generate_alerts_unfold.
  set (sd := stress_detections_at _ _ _ _).
  assert (Hsd : Forall (λ d, is_high_stress d = true) sd).
  { apply Forall_forall. intros x Hx. unfold sd, stress_detections_at in Hx.
    now apply list_elem_of_filter in Hx as [Hx _]. }
  set (c := _ <=? _).
  pose proof (high_stress_block_rows eid sd c (final (read_clock w)) Hsd) as B.
  destruct (high_stress_block eid sd c (final (read_clock w)))
    as [al w2 | w2]; cbv beta iota.
  - destruct B as [A1 S1]. change (db (final (read_clock w))) with (db w) in A1.
    pose proof (check_fatigue_rows eid w2) as F.
    destruct (_check_fatigue eid w2) as [[a|] w3 | w3]; cbv beta iota;
      [| |contradiction].
    + destruct F as (A2 & T2 & _ & _ & C2).
      split_and!; [exact (appended_app _ _ _ _ _ A1 A2) | |].
      * destruct S1 as [-> | (a1 & -> & _ & C1)]; cbn [app];
          repeat (apply Forall_cons_2; [assumption|]); apply Forall_nil_2.
      * destruct S1 as [-> | (a1 & -> & T1 & _)]; cbn; rewrite ?T1, T2;
          repeat constructor.
    + rewrite app_nil_r. rewrite F. split_and!; [exact A1 | |].
      * destruct S1 as [-> | (a1 & -> & _ & C1)]; cbn [app];
          repeat (apply Forall_cons_2; [assumption|]); apply Forall_nil_2.
      * destruct S1 as [-> | (a1 & -> & T1 & _)]; cbn; rewrite ?T1;
          repeat constructor.
  - destruct B as (Hc & E & D). unfold c in Hc. apply Z.leb_le in Hc.
    rewrite E in Hc. cbn in Hc. split_and!; [lia | exact E | exact D].
Qed.

(** X8.  One evaluation returns exactly the alert rows it stored: the
    returned list is what was appended to the alerts table, with the
    next ids of the counter; it holds at most one high-stress alert
    followed by at most one fatigue alert, each pending, for the scope
    evaluated, unresolved and of severity medium or high.  The
    calculator, the detections and the reports are left alone.  The
    evaluation raises only when the configured threshold is not positive
    and no detection of the window has high stress (the mean over an
    empty list), and then it stored nothing. *)
Theorem evaluation_returns_the_rows_it_stored (eid : option string)
    (w : World) :
  framed w (final (check_and_generate_alerts eid w))
  ∧ match check_and_generate_alerts eid w with
    | Val al w' =>
        appended (db w) (db w') al
        ∧ Forall (as_created eid) al
        ∧ sublist (map alert_type al)
                  [HIGH_STRESS_PROLONGED; FATIGUE_DETECTED]
    | Exc w' =>
        alert_threshold (mgr w) ≤ 0
        ∧ stress_detections_at (db w) (mgr w) eid (next_reading w) = []
        ∧ db w' = db w
    end.
Proof.
  split; [apply check_alerts_framed | apply check_alerts_rows].
Qed.

(** The cases of [_check_fatigue]. *)
Lemma check_fatigue_cases eid w :
  let due := fatigue_due (calc w) eid (next_reading w) in
  let key := fatigue_key eid in
  match _check_fatigue eid w with
  | Val (Some a) w' =>
      due ∧ hd false (faults w) = false
      ∧ last_alert_times (mgr w') !! key = Some (clock w')
  | Val None w' =>
      (¬ due ∧ w' = final (read_clock w))
      ∨ (due ∧ (is_Some (last_alert_times (mgr w) !! key)
                ∨ hd false (faults w) = true))
  | Exc w' => False
  end.
Proof.
  intros due key.
  assert (G : ∀ e, Py.dict_get e (get_emotion_distribution (next_reading w)
                                    (calc w) eid 1)
                   = count_of e
                       (map Stress.emotion
                          (filter (λ s, next_reading w - 1 * 3600 * 1000000
                                        ≤ timestamp s)
                                  (select_history (calc w) eid)))).
  { intros e. unfold get_emotion_distribution. cbv zeta.
    apply count_emotions_spec. }
  unfold _check_fatigue. run_m. rewrite !G.
  match goal with |- context [?a || ?b] => destruct (a || b) eqn:Hc end.
  - assert (Hd : due).
    { apply orb_true_iff in Hc as [H | H]; apply Nat.leb_le in H;
        [left | right]; exact H. }
    cbv zeta. unfold _can_generate_alert. run_m. fold key.
    destruct (last_alert_times (mgr w) !! key) as [T|] eqn:HT;
      run_m; [destruct (Qle_bool _ _)|]; run_m;
      try (right; split; [exact Hd | left; eauto]).
    all: unfold db_add_alert; run_m;
      match goal with |- context [Store.add_alert ?x _] => set (a := x) end;
      (destruct (hd false (faults w)) eqn:Hf;
        [run_m; right; split; [exact Hd | right; reflexivity]|]);
      run_m; pose proof (add_alert_id_nonzero a (db w)) as Hid;
      destruct (Store.add_alert a (db w)) as [id d'] eqn:Hadd; run_m;
      simpl in Hid; (destruct (Z.eqb_spec id 0); [contradiction|]); run_m;
      split_and!; [exact Hd | reflexivity | apply lookup_insert_eq].
  - run_m. left. split; [|reflexivity].
    apply orb_false_iff in Hc as [H1 H2].
    apply Nat.leb_gt in H1, H2. intros [H | H]; lia.
Qed.

(** X9.  [_check_fatigue] never raises.  It returns an alert only when,
    among the samples of the selected deque of the last hour, at least
    15 carry "fatigue" or at least 20 carry "fatigue" or "neutral" (so
    20 neutral samples alone are enough), and the alert then is a
    fatigue alert of medium severity and stress level 0.5; below these
    counts it returns nothing and only reads the clock.  When the
    counts are reached, the scope has no cooldown entry and the write
    goes through, the alert is returned and stored and the cooldown
    entry is set. *)
Theorem fatigue_alert_needs_fatigue_samples (eid : option string)
    (w : World) :
  let due := fatigue_due (calc w) eid (next_reading w) in
  (∀ w', _check_fatigue eid w ≠ Exc w')
  ∧ (∀ a w', _check_fatigue eid w = Val (Some a) w' →
       due ∧ alert_type a = FATIGUE_DETECTED ∧ severity a = MEDIUM
       ∧ (a_stress_level a == 5 # 10)%Q ∧ last (alerts (db w')) = Some a)
  ∧ (¬ due → _check_fatigue eid w = Val None (final (read_clock w)))
  ∧ (due → last_alert_times (mgr w) !! fatigue_key eid = None →
     hd false (faults w) = false →
     ∃ a w', _check_fatigue eid w = Val (Some a) w'
             ∧ last_alert_times (mgr w') !! fatigue_key eid
               = Some (clock w')).
Proof.
  intros due.
  pose proof (check_fatigue_cases eid w) as C.
  pose proof (check_fatigue_rows eid w) as Rw.
  cbv zeta in C. fold due in C.
  destruct (_check_fatigue eid w) as [[a|] w1 | w1]; [| |contradiction].
  - destruct C as (Hd & Hf & Hl). destruct Rw as ((A & _) & T & S & L & _).
    split_and!.
    + intros w'. discriminate.
    + intros a' w' [= <- <-]. split_and!; try assumption.
      rewrite A. apply last_snoc.
    + intros Hn. contradiction.
    + intros _ _ _. eauto.
  - split_and!.
    + intros w'. discriminate.
    + intros a' w' [=].
    + intros Hn. destruct C as [[_ ->] | [Hd _]]; [reflexivity | contradiction].
    + intros Hd Hl Hf. exfalso. destruct C as [[Hn _] | [_ [Hs | Hf']]].
      * contradiction.
      * rewrite Hl in Hs. by destruct Hs.
      * congruence.
Qed.

Lemma get_alerts_elem d st e n a :
  a ∈ get_alerts d st e n → a ∈ alerts d ∧ alert_selected st e a = true.
Proof.
  unfold get_alerts. intros H. apply subseteq_take in H.
  apply order_desc_elem in H. apply list_elem_of_filter in H. tauto.
Qed.

Lemma get_alerts_complete d st e n a :
  (length (alerts d) ≤ n)%nat →
  a ∈ alerts d → alert_selected st e a = true → a ∈ get_alerts d st e n.
Proof.
  intros Hn Ha Hs. unfold get_alerts. rewrite take_ge.
  - apply order_desc_elem. apply list_elem_of_filter. auto.
  - unfold order_desc. rewrite merge_sort_Permutation.
    etransitivity; [apply length_filter | exact Hn].
Qed.

Lemma pending_selected a :
  alert_selected (Some PENDING) None a = true ↔ status a = PENDING.
Proof.
  unfold alert_selected. rewrite andb_true_r.
  destruct (status a); cbn; split; congruence.
Qed.

Lemma update_alert_status_done id st user w w1 :
  db_update_alert_status id st (Some user) w = Val true w1 →
  st ≠ PENDING →
  hd false (faults w) = false
  ∧ ∃ now,
      alerts (db w1)
      = map (λ a, if alert_id a =? id
                  then set_status st (if AlertStatus_eqb st RESOLVED
                                      then Some now else None)
                                  (Some user) a
                  else a) (alerts (db w)).
Proof.
  unfold db_update_alert_status. run_m.
  destruct (hd false (faults w)); run_m; [discriminate|].
  intros H Hst. split; [reflexivity|].
  destruct (AlertStatus_eqb st RESOLVED) eqn:Er; run_m;
    injection H as <-; [eexists | exists 0]; cbn [db];
    unfold Store.update_alert_status; cbn [alerts]; rewrite Er; reflexivity.
Qed.

(** X10.  [get_pending_alerts] changes nothing and lists at most [limit]
    rows of the alerts table, all of them pending, and every pending row
    when the table holds no more than [limit] rows.  After an
    acknowledgement or a resolution that went through, the alert
    addressed is no longer listed: the list then holds rows that were
    pending before and have another id, and all of them when the table
    holds no more than [limit] rows. *)
Theorem handled_alert_leaves_pending_list (limit : nat) (w : World) :
  (∃ al, get_pending_alerts limit w = Val al w
         ∧ (length al ≤ limit)%nat
         ∧ (∀ a, a ∈ al → status a = PENDING ∧ a ∈ alerts (db w))
         ∧ ((length (alerts (db w)) ≤ limit)%nat →
            ∀ a, a ∈ alerts (db w) → status a = PENDING → a ∈ al))
  ∧ ∀ id user w1,
      acknowledge_alert id user w = Val true w1
      ∨ resolve_alert id user w = Val true w1 →
      ∃ al, get_pending_alerts limit w1 = Val al w1
            ∧ (∀ a, a ∈ al →
                    alert_id a ≠ id ∧ status a = PENDING
                    ∧ a ∈ alerts (db w))
            ∧ ((length (alerts (db w)) ≤ limit)%nat →
               ∀ a, a ∈ alerts (db w) → status a = PENDING →
                    alert_id a ≠ id → a ∈ al).
Proof.
  split.
  - eexists. split; [reflexivity|]. split_and!.
    + unfold get_alerts. rewrite length_take. lia.
    + intros a Ha. apply get_alerts_elem in Ha as [Ha Hs].
      apply pending_selected in Hs. auto.
    + intros Hn a Ha Hs. apply get_alerts_complete; [exact Hn | exact Ha |].
      now apply pending_selected.
  - intros id user w1 H.
    assert (U : ∃ st now, st ≠ PENDING ∧
              alerts (db w1)
              = map (λ a, if alert_id a =? id
                          then set_status st (if AlertStatus_eqb st RESOLVED
                                              then Some now else None)
                                          (Some user) a
                          else a) (alerts (db w))).
    { destruct H as [H | H];
        [exists ACKNOWLEDGED | exists RESOLVED];
        apply update_alert_status_done in H as [_ [now E]];
        try discriminate; exists now; (split; [discriminate | exact E]). }
    destruct U as (st & now & Hst & E).
    eexists. split; [reflexivity|]. split.
    + intros a Ha. apply get_alerts_elem in Ha as [Ha Hs].
      apply pending_selected in Hs. rewrite E in Ha.
      apply list_elem_of_fmap in Ha as (a0 & -> & Ha0).
      destruct (Z.eqb_spec (alert_id a0) id) as [Hid | Hid].
      * cbn in Hs. congruence.
      * auto.
    + intros Hn a Ha Hs Hid. apply get_alerts_complete.
      * rewrite E, length_map. exact Hn.
      * rewrite E. apply list_elem_of_fmap. exists a. split; [|exact Ha].
        destruct (Z.eqb_spec (alert_id a) id); [contradiction | reflexivity].
      * now apply pending_selected.
Qed.

Lemma update_alert_status_absent now id st user d :
  (∀ a, a ∈ alerts d → alert_id a ≠ id) →
  Store.update_alert_status now id st user d = d.
Proof.
  intros H. unfold Store.update_alert_status.
  assert (E : map (λ a, if alert_id a =? id
                        then set_status st (if AlertStatus_eqb st RESOLVED
                                            then Some now else None) user a
                        else a) (alerts d) = alerts d).
  { induction (alerts d) as [|a l IH]; [reflexivity|]. cbn [map].
    destruct (Z.eqb_spec (alert_id a) id) as [Hid | _].
    - exfalso. exact (H a (list_elem_of_here _ _) Hid).
    - f_equal. apply IH. intros x Hx. apply H. now apply list_elem_of_further. }
  rewrite E. destruct d; reflexivity.
Qed.

(** X12.  Acknowledging or resolving an id that no alert row carries
    reports success and changes nothing in the database (the UPDATE
    matches no row, and the number of rows matched is not looked at). *)
Theorem unknown_alert_update_succeeds (id : Z) (user : string) (w : World) :
  (∀ a, a ∈ alerts (db w) → alert_id a ≠ id) →
  hd false (faults w) = false →
  (∃ w', acknowledge_alert id user w = Val true w' ∧ db w' = db w)
  ∧ (∃ w', resolve_alert id user w = Val true w' ∧ db w' = db w).
Proof.
  intros Ha Hf. split.
  - unfold acknowledge_alert, db_update_alert_status. run_m. rewrite Hf.
    run_m. eexists. split; [reflexivity|]. cbn [db].
    now apply update_alert_status_absent.
  - unfold resolve_alert, db_update_alert_status. run_m. rewrite Hf.
    run_m. eexists. split; [reflexivity|]. cbn [db].
    now apply update_alert_status_absent.
Qed.

Lemma unknown_alert_update_succeeds_witness :
  ∃ w', resolve_alert 7 "user" Scenarios.world_E1 = Val true w'
        ∧ db w' = db Scenarios.world_E1.
Proof.
  refine (proj2 (unknown_alert_update_succeeds 7 "user" Scenarios.world_E1
                   _ _)).
  - intros a Ha. cbn in Ha. by apply not_elem_of_nil in Ha.
  - reflexivity.
Defined.

Lemma appended_fresh d d' new :
  appended d d' new → ids_fresh d → ids_fresh d'.
Proof.
  intros (A & S & I) [N F]. unfold ids_fresh. rewrite A, S.
  assert (Hnew : ∀ a, a ∈ new →
            Z.of_N (alert_seq d) < alert_id a
            ∧ alert_id a ≤ Z.of_N (alert_seq d + N.of_nat (length new))).
  { intros a Ha. apply list_elem_of_lookup in Ha as [i Hi].
    pose proof (lookup_lt_Some _ _ _ Hi). rewrite (I _ _ Hi). lia. }
  split.
  - rewrite map_app. apply NoDup_app. split_and!.
    + exact N.
    + intros x Hx Hx'.
      apply list_elem_of_fmap in Hx as (a & -> & Ha).
      apply list_elem_of_fmap in Hx' as (b & Hb & Hb').
      pose proof (proj1 (Forall_forall _ _) F a Ha) as [_ Hle].
      destruct (Hnew b Hb'). lia.
    + apply NoDup_alt. intros i j x Hi Hj.
      rewrite list_lookup_fmap in Hi, Hj.
      destruct (new !! i) as [a|] eqn:Ei; [|discriminate].
      destruct (new !! j) as [b|] eqn:Ej; [|discriminate].
      cbn in Hi, Hj. injection Hi as <-. injection Hj as Hj.
      rewrite (I _ _ Ei), (I _ _ Ej) in Hj. lia.
  - apply Forall_app. split.
    + eapply Forall_impl; [exact F|]. cbn. intros a [? ?]. lia.
    + apply Forall_forall. intros a Ha. destruct (Hnew a Ha).
      pose proof (N2Z.is_nonneg (alert_seq d)). lia.
Qed.

Lemma update_alert_status_fresh now id st user d :
  ids_fresh d → ids_fresh (Store.update_alert_status now id st user d).
Proof.
  intros [N F]. unfold ids_fresh, Store.update_alert_status.
  cbn [alerts alert_seq].
  assert (E : ∀ l, map alert_id
                     (map (λ a, if alert_id a =? id
                                then set_status st
                                       (if AlertStatus_eqb st RESOLVED
                                        then Some now else None) user a
                                else a) l) = map alert_id l).
  { intros l. rewrite map_map. apply map_ext. intros a.
    destruct (alert_id a =? id); reflexivity. }
  split; [now rewrite E|].
  apply Forall_fmap. eapply Forall_impl; [exact F|]. cbn. intros a H.
  destruct (alert_id a =? id); exact H.
Qed.

Lemma exec_fresh o w : ids_fresh (db w) → ids_fresh (db (App.exec o w)).
Proof.
  intros Hf. destruct o; cbn [App.exec].
  - unfold Sys.add_emotion. run_m. exact Hf.
  - unfold db_add_detection. run_m.
    destruct (hd false (faults w)); run_m; exact Hf.
  - unfold Sys.check_stress_threshold. run_m.
    destruct (Qlt_le_dec _ _); run_m; exact Hf.
  - pose proof (check_alerts_rows employee_id w) as Rw.
    destruct (check_and_generate_alerts employee_id w) as [al w' | w'];
      cbn [final].
    + destruct Rw as [A _]. exact (appended_fresh _ _ _ A Hf).
    + destruct Rw as (_ & _ & ->). exact Hf.
  - unfold acknowledge_alert, db_update_alert_status. run_m.
    destruct (hd false (faults w)); run_m; [exact Hf|].
    now apply update_alert_status_fresh.
  - unfold resolve_alert, db_update_alert_status. run_m.
    destruct (hd false (faults w)); run_m; [exact Hf|].
    now apply update_alert_status_fresh.
  - unfold Reports.generate_report. run_m.
    destruct (Store.get_detections _ _ _ _ _); run_m; [exact Hf|].
    unfold Reports._save_report. run_m.
    destruct (hd false (faults w)); run_m; exact Hf.
Qed.

(** X11.  The ids of the alert rows stay distinct, positive and bounded
    by the counter of the table: this holds of the empty database and is
    kept by every operation the window drives, in any order and whatever
    writes fail.  Hence an acknowledgement or a resolution changes at
    most one row. *)
Theorem alert_ids_stay_distinct (ops : list App.Op) (w : World) :
  ids_fresh (db w) →
  ids_fresh (db (App.run ops w))
  ∧ ∀ id a b, a ∈ alerts (db (App.run ops w)) →
              b ∈ alerts (db (App.run ops w)) →
              alert_id a = id → alert_id b = id → a = b.
Proof.
  intros Hf.
  assert (H : ids_fresh (db (App.run ops w))).
  { revert w Hf. induction ops as [|o ops IH]; intros w Hf; cbn; [exact Hf|].
    apply IH. now apply exec_fresh. }
  split; [exact H|]. destruct H as [N _].
  intros id a b Ha Hb Hia Hib.
  apply list_elem_of_lookup in Ha as [i Hi].
  apply list_elem_of_lookup in Hb as [j Hj].
  assert (i = j).
  { apply (NoDup_lookup _ i j id N);
      rewrite list_lookup_fmap; [rewrite Hi | rewrite Hj]; cbn; congruence. }
  subst j. congruence.
Qed.

Lemma alert_ids_stay_distinct_witness :
  ids_fresh (db Scenarios.world_E1)
  ∧ ids_fresh (db (App.run [App.CheckAlerts (Some "E1")] Scenarios.world_E1)).
Proof.
  assert (H : ids_fresh (db Scenarios.world_E1)).
  { split; cbn; [apply NoDup_nil_2 | apply Forall_nil_2]. }
  split; [exact H|].
  exact (proj1 (alert_ids_stay_distinct [App.CheckAlerts (Some "E1")]
                  Scenarios.world_E1 H)).
Defined.

End AlertExtras.

(** ** The tables: queries newest first, the detections stored per frame *)

Section StoreExtras.
Import Store Stress Sys Invariants.

#[local] Instance later_first_trans {A} (ts : A → Z) :
  Transitive (later_first ts).
Proof. intros a b c. unfold later_first. lia. Qed.

#[local] Instance later_first_total {A} (ts : A → Z) : Total (later_first ts).
Proof. intros a b. unfold later_first. lia. Qed.

(** [WHERE .. ORDER BY timestamp DESC LIMIT n] *)
Lemma newest_first {A} (ts : A → Z) (P : A → Prop) `{∀ x, Decision (P x)}
    (rows : list A) (n : nat) :
  let r := take n (order_desc ts (filter P rows)) in
  (length r ≤ n)%nat
  ∧ (∀ x, x ∈ r → x ∈ rows ∧ P x)
  ∧ StronglySorted (later_first ts) r
  ∧ (∀ x y, x ∈ r → y ∈ rows → P y → y ∉ r → ts y ≤ ts x)
  ∧ ((length rows ≤ n)%nat → r ≡ₚ filter P rows).
Proof.
  intros r. subst r. set (l := order_desc ts (filter P rows)).
  assert (Hs : StronglySorted (later_first ts) (take n l ++ drop n l)).
  { rewrite take_drop. apply StronglySorted_merge_sort; apply _. }
  assert (Hl : ∀ x, x ∈ l ↔ x ∈ rows ∧ P x).
  { intros x. unfold l, order_desc. rewrite merge_sort_Permutation.
    rewrite list_elem_of_filter. tauto. }
  split_and!.
  - rewrite length_take. lia.
  - intros x Hx. apply Hl. eapply subseteq_take. exact Hx.
  - eapply StronglySorted_app_1_l. exact Hs.
  - intros x y Hx Hy HP Hn.
    assert (Hy' : y ∈ l) by (apply Hl; auto).
    rewrite <- (take_drop n l) in Hy'. apply elem_of_app in Hy' as [?|Hy'];
      [contradiction|].
    exact (StronglySorted_app_1_elem_of _ _ _ x y Hs Hx Hy').
  - intros Hn. rewrite take_ge.
    + unfold l, order_desc. apply merge_sort_Permutation.
    + unfold l, order_desc. rewrite merge_sort_Permutation.
      etransitivity; [apply length_filter | exact Hn].
Qed.

(** X13.  [get_detections] and [get_alerts] return at most [limit] rows
    of their table, each satisfying the filters given, newest first; the
    rows left out by the limit are not newer than the rows returned; and
    when the table holds no more than [limit] rows, the result is a
    rearrangement of all rows that satisfy the filters. *)
Theorem queries_return_newest_first (d : Database) (limit : nat) :
  (∀ eid s t,
     let r := get_detections d eid s t limit in
     (length r ≤ limit)%nat
     ∧ (∀ x, x ∈ r →
             x ∈ detection_events d ∧ detection_selected eid s t x = true)
     ∧ StronglySorted (later_first d_timestamp) r
     ∧ (∀ x y, x ∈ r → y ∈ detection_events d →
               detection_selected eid s t y = true → y ∉ r →
               d_timestamp y ≤ d_timestamp x)
     ∧ ((length (detection_events d) ≤ limit)%nat →
        r ≡ₚ filter (λ x, detection_selected eid s t x = true)
                    (detection_events d)))
  ∧ (∀ st eid,
       let r := get_alerts d st eid limit in
       (length r ≤ limit)%nat
       ∧ (∀ x, x ∈ r → x ∈ alerts d ∧ alert_selected st eid x = true)
       ∧ StronglySorted (later_first a_timestamp) r
       ∧ (∀ x y, x ∈ r → y ∈ alerts d →
                 alert_selected st eid y = true → y ∉ r →
                 a_timestamp y ≤ a_timestamp x)
       ∧ ((length (alerts d) ≤ limit)%nat →
          r ≡ₚ filter (λ x, alert_selected st eid x = true) (alerts d))).
Proof.
  split.
  - intros eid s t.
    exact (newest_first d_timestamp
             (λ x, detection_selected eid s t x = true)
             (detection_events d) limit).
  - intros st eid.
    exact (newest_first a_timestamp (λ x, alert_selected st eid x = true)
             (alerts d) limit).
Qed.

End StoreExtras.

Section PipelineExtras.
Import Store Stress Sys Detectors Pipeline Invariants.

Lemma stress_index_bounds c eid window :
  (0 <= calculate_stress_index c eid window)%Q
  ∧ (calculate_stress_index c eid window <= 100)%Q.
Proof.
  unfold calculate_stress_index. cbv zeta.
  destruct (_ <? _)%nat; [split; discriminate|].
  apply index_of_recent_bounds.
Qed.

(** The body of the loop: the calculator first, then the row. *)
Lemma process_detection_step sid d w :
  ∃ w1,
    process_detection sid d w = Val tt w1
    ∧ calc w1 = Stress.add_emotion (next_reading w)
                  (er_emotion (Pipeline.emotion d)) (dr_employee_id d)
                  (er_confidence (Pipeline.emotion d)) (calc w)
    ∧ faults w1 = tail (faults w)
    ∧ mgr w1 = mgr w ∧ alerts (db w1) = alerts (db w)
    ∧ reports (db w1) = reports (db w)
    ∧ detection_events (db w1)
      = detection_events (db w)
        ++ (if hd false (faults w) then []
            else [{| detection_id :=
                       Some (Z.of_N (N.succ (detection_seq (db w))));
                     session_id := sid;
                     d_employee_id := dr_employee_id d;
                     track_id := dr_track_id d;
                     d_timestamp := clock w1;
                     d_emotion := Some (er_emotion (Pipeline.emotion d));
                     d_confidence := er_confidence (Pipeline.emotion d);
                     d_stress_level :=
                       Some (calculate_stress_index (calc w1)
                               (dr_employee_id d) None / 100)%Q |}]).
Proof.
  unfold process_detection, Sys.add_emotion, db_add_detection. run_m.
  destruct (hd false (faults w)); run_m; eexists; (split; [reflexivity|]);
    cbn [calc faults mgr db clock alerts reports detection_events
         Store.add_detection fst snd];
    split_and!; try reflexivity.
  now rewrite app_nil_r.
Qed.

(** X14.  [process_detections] never raises.  Every detection of the frame
    enters the calculator, whether or not its row can be written: the
    labels of the global deque afterwards are the last [max_history] of
    the labels before followed by the labels of the frame.  The rows
    added to [detection_events] are those of the detections whose INSERT
    went through, in order; each carries the session id and a stress
    level in [0, 1], the stress index of the detection's scope (computed
    after its own sample was added) divided by 100.  Alerts, reports
    and the alert manager are left alone. *)
Theorem frame_detections_are_recorded (sid : option string)
    (ds : list DetectionResult) (w : World) :
  ∃ w' new,
    process_detections sid ds w = Val tt w'
    ∧ detection_events (db w') = detection_events (db w) ++ new
    ∧ (length new
       + length (filter (λ b, b = true) (take (length ds) (faults w)))
       = length ds)%nat
    ∧ Forall (λ row, session_id row = sid ∧ is_Some (detection_id row)
                     ∧ ∃ s, d_stress_level row = Some s
                            ∧ (0 <= s)%Q ∧ (s <= 1)%Q) new
    ∧ sublist (map (λ r, (d_employee_id r, d_emotion r)) new)
              (map (λ d, (dr_employee_id d,
                          Some (er_emotion (Pipeline.emotion d)))) ds)
    ∧ (ds = [] → w' = w)
    ∧ (ds ≠ [] →
       map Stress.emotion (global_history (calc w'))
       = (let l := map Stress.emotion (global_history (calc w))
                   ++ map (λ d, er_emotion (Pipeline.emotion d)) ds in
          drop (length l - max_history (calc w)) l))
    ∧ max_history (calc w') = max_history (calc w)
    ∧ alerts (db w') = alerts (db w) ∧ reports (db w') = reports (db w)
    ∧ mgr w' = mgr w.
Proof.
  revert w. induction ds as [|d ds IH]; intros w.
  - exists w, []. cbn. split_and!;
      first [reflexivity | now rewrite app_nil_r | apply Forall_nil_2
            | apply sublist_nil | congruence].
  - destruct (process_detection_step sid d w)
      as (w1 & E1 & C1 & F1 & M1 & A1 & R1 & D1).
    destruct (IH w1)
      as (w' & new & E & D & N & Fa & S & G0 & G & X & A & Rp & M).
    set (row := {| detection_id := _ |}) in D1.
    exists w', ((if hd false (faults w) then [] else [row]) ++ new).
    assert (Hmax : max_history (calc w1) = max_history (calc w))
      by (rewrite C1; reflexivity).
    split_and!.
    + cbn [process_detections]. unfold mbind, M_bind. rewrite E1. exact E.
    + rewrite D, D1. now rewrite app_assoc.
    + rewrite F1 in N. destruct (faults w) as [|b fs]; cbn [hd tail] in *.
      * rewrite take_nil in *. cbn in *. lia.
      * cbn [length take]. rewrite filter_cons.
        destruct b; [rewrite decide_True by reflexivity
                    | rewrite decide_False by discriminate];
          cbn [length app]; lia.
    + apply Forall_app. split; [|exact Fa].
      destruct (hd false (faults w)); [apply Forall_nil_2|].
      apply Forall_cons_2; [|apply Forall_nil_2].
      split_and!; [reflexivity | eexists; reflexivity |].
      eexists. split; [reflexivity|].
      destruct (stress_index_bounds (calc w1) (dr_employee_id d) None)
        as [H0 H100].
      split.
      * apply Qle_shift_div_l; [reflexivity | Lqa.lra].
      * apply Qle_shift_div_r; [reflexivity | Lqa.lra].
    + rewrite map_app. cbn [map].
      destruct (hd false (faults w)); cbn [map app].
      * now apply sublist_cons.
      * now apply sublist_skip.
    + discriminate.
    + intros _.
      assert (G1 : map Stress.emotion (global_history (calc w1))
                   = (let l := map Stress.emotion (global_history (calc w))
                               ++ [er_emotion (Pipeline.emotion d)] in
                      drop (length l - max_history (calc w)) l)).
      { rewrite C1. cbn [Stress.add_emotion global_history].
        unfold Py.deque_append. rewrite fmap_drop, fmap_app.
        cbn [fmap list_fmap]. cbv zeta.
        now rewrite !length_app, !length_map. }
      destruct (decide (ds = [])) as [-> | Hne].
      * rewrite (G0 eq_refl). exact G1.
      * rewrite (G Hne). cbv zeta. rewrite Hmax, G1. cbv zeta.
        clear. set (g := map Stress.emotion (global_history (calc w))).
        set (m := max_history (calc w)). cbn [map].
        set (x := er_emotion (Pipeline.emotion d)).
        generalize (map (λ d0, er_emotion (Pipeline.emotion d0)) ds).
        intros tl.
        assert (Hk : (length (g ++ [x]) - m ≤ length (g ++ [x]))%nat) by lia.
        rewrite <- (drop_app_le (g ++ [x]) tl _ Hk), drop_drop.
        replace (g ++ x :: tl) with ((g ++ [x]) ++ tl)
          by (now rewrite <- app_assoc).
        f_equal. rewrite length_app, length_drop, !length_app. cbn. lia.
    + now rewrite X.
    + now rewrite A.
    + now rewrite Rp.
    + now rewrite M.
Qed.

End PipelineExtras.

(** ** The employees table *)

Section DirectoryExtras.
Import Directory.

#[local] Instance by_name_total : Total by_name.
Proof. intros a b. apply String.leb_total. Qed.

Lemma of_row_inserted (e : Employee) :
  of_row (employee_id e)
    {| r_name := name e; r_department := department e; r_shift := shift e;
       r_consent_given := if consent_given e then 1 else 0;
       r_active := if active e then 1 else 0 |}
  = {| employee_id := employee_id e; name := name e;
       department := department e; shift := shift e; embedding := None;
       consent_given := consent_given e; active := active e |}.
Proof.
  unfold of_row. cbn. destruct (consent_given e), (active e); reflexivity.
Qed.

(** X15.  An employee stored by [add_employee] is read back by
    [get_employee] with every column as given, and without the
    embedding, which is not stored; the other employees are read as
    before, and storing under an id already present replaces that row.
    When the INSERT raises, [False] is returned and the table is
    unchanged.  An id without a row reads as [None]. *)
Theorem stored_employee_is_read_back (e : Employee) (t : Table) :
  let t' := (add_employee false e t).2 in
  (add_employee false e t).1 = true
  ∧ get_employee (employee_id e) t'
    = Some {| employee_id := employee_id e; name := name e;
              department := department e; shift := shift e;
              embedding := None; consent_given := consent_given e;
              active := active e |}
  ∧ (∀ id, id ≠ employee_id e → get_employee id t' = get_employee id t)
  ∧ (∀ e2, employee_id e2 = employee_id e →
           (add_employee false e2 t').2 = (add_employee false e2 t).2)
  ∧ add_employee true e t = (false, t)
  ∧ (∀ id, t !! id = None ↔ get_employee id t = None).
Proof.
  cbv zeta. unfold add_employee, get_employee, insert_or_replace.
  cbn [fst snd]. split_and!.
  - reflexivity.
  - rewrite lookup_insert_eq. cbn [fmap option_fmap option_map].
    f_equal. apply of_row_inserted.
  - intros id Hid. now rewrite lookup_insert_ne by congruence.
  - intros e2 He. rewrite He. apply insert_insert_eq.
  - reflexivity.
  - intros id. destruct (t !! id); cbn; split; congruence.
Qed.

Lemma rows_listed (P : string * Row → Prop) (t : Table)
    (rows : list (string * Row)) :
  rows `sublist_of` map_to_list t →
  (∀ kr, kr ∈ rows ↔ P kr ∧ kr ∈ map_to_list t) →
  let l := merge_sort by_name (map (λ kr, of_row kr.1 kr.2) rows) in
  Sorted by_name l
  ∧ NoDup (map employee_id l)
  ∧ ∀ e, e ∈ l ↔ ∃ r, t !! employee_id e = Some r
                      ∧ e = of_row (employee_id e) r ∧ P (employee_id e, r).
Proof.
  intros Hsub Hrows l. subst l.
  assert (Hp : merge_sort by_name (map (λ kr, of_row kr.1 kr.2) rows)
               ≡ₚ map (λ kr, of_row kr.1 kr.2) rows)
    by apply merge_sort_Permutation.
  split_and!.
  - apply Sorted_merge_sort. apply _.
  - rewrite Hp, map_map. cbn.
    change (map (λ x : string * Row, x.1) rows) with (rows.*1).
    apply (sublist_NoDup _ ((map_to_list t).*1));
      [apply (NoDup_fst_map_to_list t)|].
    now apply fmap_sublist.
  - intros e. rewrite Hp, list_elem_of_fmap. split.
    + intros ([k r] & -> & Hin). cbn.
      apply Hrows in Hin as [HP Hin].
      apply elem_of_map_to_list in Hin. exists r. auto.
    + intros (r & Hr & He & HP). exists (employee_id e, r).
      split; [exact He|]. apply Hrows. split; [exact HP|].
      now apply elem_of_map_to_list.
Qed.

(** X16.  [get_all_employees] lists each selected row of the table once,
    as [get_employee] reads it, ordered by name; with [active_only] the
    selected rows are those whose [active] column is 1, so every
    employee listed is active; without it every row is listed. *)
Theorem employees_are_listed_by_name (active_only : bool) (t : Table) :
  let l := get_all_employees active_only t in
  Sorted by_name l
  ∧ NoDup (map employee_id l)
  ∧ (∀ e, e ∈ l ↔
          ∃ r, t !! employee_id e = Some r ∧ e = of_row (employee_id e) r
               ∧ (active_only = true → r_active r = 1))
  ∧ (∀ e, e ∈ l → get_employee (employee_id e) t = Some e)
  ∧ (active_only = true → Forall (λ e, active e = true) l)
  ∧ (active_only = false → length l = size t).
Proof.
  intros l.
  assert (H : Sorted by_name l ∧ NoDup (map employee_id l)
              ∧ ∀ e, e ∈ l ↔
                     ∃ r, t !! employee_id e = Some r
                          ∧ e = of_row (employee_id e) r
                          ∧ (active_only = true → r_active r = 1)).
  { subst l. unfold get_all_employees. destruct active_only; cbv zeta.
    - destruct (rows_listed (λ kr, r_active kr.2 = 1) t
                  (filter (λ kr, r_active kr.2 = 1) (map_to_list t)))
        as (S & N & E);
        [apply sublist_filter
        | intros kr; exact (list_elem_of_filter (λ kr, r_active kr.2 = 1) _ kr) |].
      split_and!; [exact S | exact N |].
      intros e. rewrite E. split; intros (r & ? & ? & ?); exists r; auto.
    - destruct (rows_listed (λ _, True) t (map_to_list t)) as (S & N & E);
        [reflexivity | tauto |].
      split_and!; [exact S | exact N |].
      intros e. rewrite E. split; intros (r & ? & ? & ?); exists r;
        split_and!; auto; discriminate. }
  destruct H as (S & N & E). split_and!; [exact S | exact N | exact E | | |].
  - intros e He. apply E in He as (r & Hr & He & _).
    unfold get_employee. rewrite Hr. cbn. now rewrite <- He.
  - intros Ha. apply Forall_forall. intros e He.
    apply E in He as (r & _ & -> & Hact). cbn. now rewrite (Hact Ha).
  - intros ->. subst l. unfold get_all_employees. cbv zeta.
    rewrite merge_sort_Permutation, length_map.
    apply length_map_to_list.
Qed.

End DirectoryExtras.

(** ** Reports: what a report holds, reading reports back *)

Section ReportExtras.
Import Store Stress Sys Reports ReportQueries Invariants.

Lemma remove_dups_length {A} `{EqDecision A} (l : list A) :
  (length (remove_dups l) ≤ length l)%nat.
Proof.
  induction l as [|x l IH]; cbn; [lia|].
  destruct (decide_rel elem_of x l); cbn; lia.
Qed.

Lemma omap_length_le {A B} (f : A → option B) (l : list A) :
  (length (omap f l) ≤ length l)%nat.
Proof.
  induction l as [|x l IH]; cbn; [lia|]. destruct (f x); cbn; lia.
Qed.

Lemma omap_all_some {A B} (f : A → option B) (g : A → B) (l : list A) :
  (∀ x, x ∈ l → f x = Some (g x)) → omap f l = map g l.
Proof.
  induction l as [|x l IH]; intros H; cbn; [reflexivity|].
  rewrite (H x) by apply list_elem_of_here. f_equal.
  apply IH. intros y Hy. apply H. now apply list_elem_of_further.
Qed.

(** Every id returned by [employees_of] is the id of some detection, so
    the guard [if employee_detections:] never fails. *)
Lemma employee_of_has_detections ds e :
  e ∈ employees_of ds →
  filter (λ d, same_employee (d_employee_id d) e = true) ds ≠ [].
Proof.
  unfold employees_of. rewrite elem_of_remove_dups, list_elem_of_omap.
  intros (d & Hd & He) Hnil.
  assert (Hin : d ∈ filter (λ d, same_employee (d_employee_id d) e = true) ds).
  { apply list_elem_of_filter. split; [|exact Hd].
    destruct (Py.truthy (d_employee_id d)); [|discriminate].
    rewrite He. cbn. apply String.eqb_refl. }
  rewrite Hnil in Hin. by apply not_elem_of_nil in Hin.
Qed.

Lemma employee_details_keys ds :
  map fst (_get_employee_details (employees_of ds) ds) = employees_of ds
  ∧ Forall (λ kv, (0 < detection_count kv.2)%nat
                  ∧ detection_count kv.2
                    = length (filter (λ d, same_employee (d_employee_id d)
                                             kv.1 = true) ds))
           (_get_employee_details (employees_of ds) ds).
Proof.
  unfold _get_employee_details.
  set (f := λ employee_id : string, _).
  set (g := λ e : string,
         let eds := filter (λ d, same_employee (d_employee_id d) e = true)
                           ds in
         (e, {| detection_count := length eds;
                ed_avg_stress_level :=
                  mean_or_zero
                    (omap (λ d, match d_stress_level d with
                                | Some s => if Qeq_bool s 0 then None
                                            else Some s
                                | None => None
                                end) eds);
                ed_predominant_emotion :=
                  most_frequent
                    (omap (λ d, if Py.truthy (d_emotion d) then d_emotion d
                                else None) eds) |})).
  assert (E : omap f (employees_of ds) = map g (employees_of ds)).
  { apply omap_all_some. intros e He.
    pose proof (employee_of_has_detections ds e He) as Hne.
    unfold f, g. cbv zeta.
    destruct (filter _ ds) as [|d0 rest]; [contradiction | reflexivity]. }
  rewrite E. split.
  - rewrite map_map. cbn. apply map_id.
  - apply Forall_fmap, Forall_forall. intros e He. cbn.
    pose proof (employee_of_has_detections ds e He) as Hne.
    split; [|reflexivity].
    destruct (filter _ ds); [contradiction | cbn; lia].
Qed.

(** X17.  A report that [generate_report] returns is consistent with the
    detections of its period: it counts at least one detection, the
    counts of its emotion distribution add up to the number of
    detections, [employees_detected] is the number of entries of
    [employee_details] (one entry per identified employee, each with at
    least one detection) and does not exceed the number of detections,
    and the period ends at the reading of the clock, which is also the
    report's timestamp, one report interval after it starts. *)
Theorem report_is_consistent (w : World) (r : Report) (w' : World) :
  generate_report w = Val (Some r) w' →
  (0 < r_total_detections r)%nat
  ∧ list_sum (map snd (r_emotion_distribution r)) = r_total_detections r
  ∧ NoDup (map fst (r_emotion_distribution r))
  ∧ employees_detected r = length (employee_details r)
  ∧ (employees_detected r ≤ r_total_detections r)%nat
  ∧ NoDup (map fst (employee_details r))
  ∧ Forall (λ kv, (0 < detection_count kv.2)%nat
                  ∧ (detection_count kv.2 ≤ r_total_detections r)%nat)
           (employee_details r)
  ∧ period_end r = next_reading w ∧ r_timestamp r = period_end r
  ∧ period_end r - period_start r
    = report_interval_minutes w * 60 * 1000000.
Proof.
  unfold generate_report. run_m.
  set (ds := get_detections _ _ _ _ _).
  destruct ds as [|d0 rest] eqn:Hds; run_m; [discriminate|].
  assert (Hpos : (0 < length (d0 :: rest))%nat) by (cbn; lia).
  rewrite <- Hds in Hpos |- *. clear Hds.
  unfold _save_report. run_m.
  intros H.
  assert (Hr : r = {| r_timestamp := next_reading w;
                      period_start := next_reading w
                                      - report_interval_minutes w * 60 * 1000000;
                      period_end := next_reading w;
                      r_total_detections := length ds;
                      employees_detected := length (employees_of ds);
                      avg_stress_level :=
                        Py.round2 (mean_or_zero (omap d_stress_level ds));
                      r_emotion_distribution :=
                        count_emotions
                          (map (λ x, Py.or_str (d_emotion x) "unknown") ds);
                      alerts_generated :=
                        length
                          (filter (λ a, next_reading w
                                        - report_interval_minutes w * 60 * 1000000
                                        ≤ a_timestamp a
                                        ∧ a_timestamp a ≤ next_reading w)
                                  (get_alerts (db w) None None 1000));
                      employee_details :=
                        _get_employee_details (employees_of ds) ds |}).
  { destruct (hd false (faults w)); run_m; injection H as <- _; reflexivity. }
  clear H. subst r.
  cbn [r_total_detections r_emotion_distribution employees_detected
       employee_details period_end period_start r_timestamp].
  destruct (count_emotions_spec
              (map (λ x, Py.or_str (d_emotion x) "unknown") ds))
    as (N & _ & Sm & _).
  destruct (employee_details_keys ds) as [K F].
  assert (Hle : (length (employees_of ds) ≤ length ds)%nat).
  { unfold employees_of. etransitivity; [apply remove_dups_length|].
    apply omap_length_le. }
  split_and!.
  - exact Hpos.
  - now rewrite Sm, length_map.
  - exact N.
  - rewrite <- (length_map fst (_get_employee_details _ _)), K. reflexivity.
  - exact Hle.
  - rewrite K. unfold employees_of. apply NoDup_remove_dups.
  - eapply Forall_impl; [exact F|]. cbn. intros kv [Hp Hc].
    split; [exact Hp | rewrite Hc; apply length_filter].
  - reflexivity.
  - reflexivity.
  - lia.
Qed.

Lemma report_is_consistent_witness :
  ∃ r w', generate_report Scenarios.world_E1 = Val (Some r) w'
          ∧ employees_detected r = length (employee_details r).
Proof.
  destruct (generate_report Scenarios.world_E1) as [[r|] w' | w'] eqn:E.
  - exists r, w'. split; [reflexivity|].
    exact (proj1 (proj2 (proj2 (proj2
             (report_is_consistent Scenarios.world_E1 r w' E))))).
  - exfalso. vm_compute in E. discriminate.
  - exfalso. vm_compute in E. discriminate.
Defined.

(** X18.  [get_latest_report] changes nothing; it returns [None] exactly
    when no report is stored, and otherwise a stored report whose
    timestamp no other stored report exceeds. *)
Theorem latest_report_is_newest (w : World) :
  ∃ r, get_latest_report w = Val r w
       ∧ (r = None ↔ reports (db w) = [])
       ∧ ∀ x, r = Some x →
              x ∈ reports (db w)
              ∧ ∀ y, y ∈ reports (db w) → r_timestamp y ≤ r_timestamp x.
Proof.
  eexists. split; [reflexivity|].
  pose proof (merge_sort_Permutation (later_first r_timestamp)
                (reports (db w))) as Hp.
  assert (Hs : StronglySorted (later_first r_timestamp)
                 (order_desc r_timestamp (reports (db w)))).
  { apply StronglySorted_merge_sort.
    - intros a b c. unfold later_first. lia.
    - intros a b. unfold later_first. lia. }
  unfold order_desc in *.
  destruct (merge_sort (later_first r_timestamp) (reports (db w)))
    as [|x l] eqn:E; cbn [head].
  - split.
    + split; [intros _|reflexivity].
      symmetry in Hp. now apply Permutation_nil_r in Hp.
    + intros x [=].
  - split.
    + split; [discriminate|]. intros Hn. rewrite Hn in Hp.
      apply Permutation_nil_r in Hp. discriminate.
    + intros x' [= <-]. split.
      * rewrite <- Hp. apply list_elem_of_here.
      * intros y Hy. rewrite <- Hp in Hy.
        apply StronglySorted_inv in Hs as [_ Hx].
        apply elem_of_cons in Hy as [-> | Hy]; [lia|].
        exact (proj1 (Forall_forall _ _) Hx y Hy).
Qed.

(** X19.  [should_generate_report] is true without a previous report
    time, and otherwise exactly when the reading of the clock is at
    least [report_interval_minutes] after it. *)
Theorem report_is_due_after_the_interval (w : World) :
  should_generate_report None w = Val true w
  ∧ ∀ last,
      should_generate_report (Some last) w
      = Val (last + report_interval_minutes w * 60000000 <=? next_reading w)
            (final (read_clock w)).
Proof.
  split; [reflexivity|]. intros last.
  unfold should_generate_report. run_m. now rewrite elapsed_spec.
Qed.

End ReportExtras.

(** ** The recognizer: range of the similarity, failures of enrollment,
    loading the cache *)

Section RecognizerExtras.
Import Recognizer Matching.
Local Open Scope R_scope.

Lemma cosine_sym (a b : list R) : cosine a b = cosine b a.
Proof.
  unfold cosine.
  destruct (Req_dec_T (norm a) 0), (Req_dec_T (norm b) 0); try reflexivity.
  now rewrite (dot_comm a b), (Rmult_comm (norm a) (norm b)).
Qed.

Lemma cosine_similarity_none (v1 v2 : list R) :
  _cosine_similarity v1 v2 = None ↔ length v1 ≠ length v2.
Proof.
  split.
  - intros H Hlen. rewrite cosine_similarity_total in H by exact Hlen.
    discriminate.
  - intros Hlen. unfold _cosine_similarity, np_dot.
    destruct (Nat.eqb_spec (length v1) (length v2)); [contradiction|].
    reflexivity.
Qed.

(** X20.  [_cosine_similarity] raises exactly when the two vectors differ
    in length; otherwise its value does not depend on the order of the
    arguments, and is 0.0 as soon as one of the vectors has norm
    zero. *)
Theorem cosine_similarity_cases (v1 v2 : list R) :
  (_cosine_similarity v1 v2 = None ↔ length v1 ≠ length v2)
  ∧ (length v1 = length v2 →
     ∃ s, _cosine_similarity v1 v2 = Some s
          ∧ _cosine_similarity v2 v1 = Some s
          ∧ (norm v1 = 0 ∨ norm v2 = 0 → s = 0)).
Proof.
  split; [apply cosine_similarity_none|].
  intros Hlen. exists (cosine v1 v2). split_and!.
  - now apply cosine_similarity_total.
  - rewrite cosine_sym. now apply cosine_similarity_total.
  - intros [H | H]; [now apply cosine_zero_norm|].
    rewrite cosine_sym. now apply cosine_zero_norm.
Qed.

Lemma scan_none (q : list R) cache bm bs :
  scan q cache bm bs = None ↔ ∃ e, e ∈ cache ∧ length e.2 ≠ length q.
Proof.
  revert bm bs. induction cache as [|[id v] cache IH]; intros bm bs.
  - cbn. split; [discriminate|]. intros (e & He & _).
    by apply not_elem_of_nil in He.
  - cbn [scan].
    destruct (_cosine_similarity q v) as [s|] eqn:Es.
    + assert (Hv : length v = length q).
      { destruct (Nat.eq_dec (length q) (length v)) as [E | N]; [now symmetry|].
        apply cosine_similarity_none in N. congruence. }
      assert (R : (∃ e, e ∈ (id, v) :: cache ∧ length e.2 ≠ length q)
                  ↔ ∃ e, e ∈ cache ∧ length e.2 ≠ length q).
      { split; intros (e & He & Hne).
        - apply elem_of_cons in He as [-> | He]; [contradiction|]. eauto.
        - exists e. split; [now apply list_elem_of_further | exact Hne]. }
      rewrite R. destruct (Rlt_dec bs s); apply IH.
    + split; [intros _|reflexivity].
      exists (id, v). split; [apply list_elem_of_here|]. cbn.
      apply cosine_similarity_none in Es. congruence.
Qed.

Context {Image : Type}.
Variable generate_embedding : Image → option (list R).

(** X21.  [recognize_face] raises exactly when an embedding was extracted
    and some enrolled vector differs from it in length.  Otherwise the
    similarity it reports is not negative, and a subject is reported
    only when that similarity is positive and reaches the threshold, and
    the subject then is an enrolled one. *)
Theorem recognition_result_cases (r : FaceRecognizer) (roi : Image) :
  (recognize_face generate_embedding r roi = None ↔
     ∃ q e, generate_embedding roi = Some q ∧ e ∈ embeddings_cache r
            ∧ length e.2 ≠ length q)
  ∧ ∀ who s, recognize_face generate_embedding r roi = Some (who, s) →
             0 <= s
             ∧ ∀ id, who = Some id →
                     threshold r <= s ∧ 0 < s
                     ∧ ∃ v, (id, v) ∈ embeddings_cache r.
Proof.
  assert (Hn : recognize_face generate_embedding r roi = None ↔
               ∃ q e, generate_embedding roi = Some q ∧ e ∈ embeddings_cache r
                      ∧ length e.2 ≠ length q).
  { unfold recognize_face.
    destruct (generate_embedding roi) as [q|];
      [|split; [discriminate | intros (q & e & [=] & _)]].
    destruct (embeddings_cache r) as [|e0 cache] eqn:Hc; cbn [length Nat.eqb].
    - split; [discriminate|]. intros (q' & e & _ & He & _).
      by apply not_elem_of_nil in He.
    - destruct (scan q (e0 :: cache) None 0) as [[bm bs]|] eqn:Es.
      + split; [destruct (Rle_dec _ _); discriminate|].
        intros (q' & e & [= <-] & He & Hne).
        assert (scan q (e0 :: cache) None 0 = None)
          by (apply scan_none; eauto).
        congruence.
      + split; [intros _|reflexivity].
        apply scan_none in Es as (e & He & Hne). eauto. }
  split; [exact Hn|].
  intros who s Hres.
  destruct (generate_embedding roi) as [q|] eqn:Hq.
  - assert (Hs : Forall (λ e, length e.2 = length q) (embeddings_cache r)).
    { apply Forall_forall. intros e He.
      destruct (Nat.eq_dec (length e.2) (length q)) as [E | N]; [exact E|].
      assert (recognize_face generate_embedding r roi = None)
        by (apply Hn; eauto).
      congruence. }
    rewrite (recognize_face_eq generate_embedding r roi q Hq Hs) in Hres.
    cbv zeta in Hres.
    set (b := floored_best q (embeddings_cache r) 0) in *.
    assert (H0 : 0 <= b) by apply floored_best_ge.
    injection Hres as Hw <-. split; [exact H0|].
    intros id ->.
    destruct (Rle_dec (threshold r) b); [|discriminate].
    destruct (Rlt_dec 0 b); [|discriminate].
    split_and!; [assumption..|].
    apply first_at_elem in Hw as (v & Hv & _). eauto.
  - unfold recognize_face in Hres. rewrite Hq in Hres.
    injection Hres as <- <-. split; [lra | discriminate].
Qed.

(** X22.  Failures while [enroll_employee] writes its files.  When
    [open] fails, the call returns [False] and the recognizer is
    unchanged.  When [open] succeeds and the write of the JSON text
    fails, the call returns [False] and the cache is unchanged, but the
    subject's JSON file is left as a file that does not parse, whatever
    it held before; the other files are untouched.  When the JSON file
    is written and saving the sample images fails, the call returns
    [False] as well, but the enrollment has taken effect: the recognizer
    is the one a successful call leaves, with the subject in the cache
    and the JSON file recording the vector of the cache, the subject id,
    a quality not below 0.70 and at least three samples.  The write is
    attempted in exactly the calls that succeed when nothing fails. *)
Theorem enrollment_write_failures (r : FaceRecognizer) (id : string)
    (samples : list Image) :
  (∀ samples_ok b reason r',
     enroll_employee generate_embedding OpenFailed samples_ok r id samples
     = Some (b, reason, r') → b = false ∧ r' = r)
  ∧ (∀ samples_ok b reason r',
       enroll_employee generate_embedding DumpFailed samples_ok r id samples
       = Some (b, reason, r') →
       b = false ∧ threshold r' = threshold r
       ∧ embeddings_cache r' = embeddings_cache r
       ∧ (reason ≠ SaveError → r' = r)
       ∧ (reason = SaveError →
            Py.dict_lookup (id +:+ "_embedding.json") (enrollment_files r')
            = Some None
            ∧ ∀ other, other ≠ id +:+ "_embedding.json" →
                Py.dict_lookup other (enrollment_files r')
                = Py.dict_lookup other (enrollment_files r)))
  ∧ (∀ reason r',
       enroll_employee generate_embedding JsonWritten true r id samples
       = Some (true, reason, r') →
       enroll_employee generate_embedding JsonWritten false r id samples
       = Some (false, SaveError, r')
       ∧ enroll_employee generate_embedding OpenFailed true r id samples
         = Some (false, SaveError, r)
       ∧ (∃ r2, enroll_employee generate_embedding DumpFailed true r id
                  samples = Some (false, SaveError, r2))
       ∧ ∃ data,
           Py.dict_lookup id (embeddings_cache r') = Some (f_embedding data)
           ∧ Py.dict_lookup (id +:+ "_embedding.json") (enrollment_files r')
             = Some (Some data)
           ∧ f_employee_id data = Some id
           ∧ ¬ f_quality_score data < 70 / 100
           ∧ (3 ≤ f_num_samples data)%nat).
Proof.
  split_and!.
  - intros samples_ok b reason r'. unfold enroll_employee.
    destruct (_ <? 3)%nat; [intros [= <- _ <-]; auto|].
    destruct (_ <? 3)%nat; [intros [= <- _ <-]; auto|].
    destruct (np_mean_axis0 _); [|discriminate].
    destruct (pairwise _); [|discriminate].
    destruct (Rlt_dec _ _); intros [= <- _ <-]; auto.
  - intros samples_ok b reason r'. unfold enroll_employee.
    destruct (_ <? 3)%nat;
      [intros [= <- <- <-]; split_and!; auto; discriminate|].
    destruct (_ <? 3)%nat;
      [intros [= <- <- <-]; split_and!; auto; discriminate|].
    destruct (np_mean_axis0 _); [|discriminate].
    destruct (pairwise _); [|discriminate].
    destruct (Rlt_dec _ _);
      [intros [= <- <- <-]; split_and!; auto; discriminate|].
    intros [= <- <- <-]. cbn [threshold embeddings_cache enrollment_files].
    split_and!; try reflexivity; [congruence|]. intros _. split.
    + apply dict_lookup_set_eq.
    + intros other Hne. now apply dict_lookup_set_ne.
  - intros reason r'. unfold enroll_employee.
    destruct (_ <? 3)%nat; [discriminate|].
    destruct (Nat.ltb_spec (length (omap generate_embedding samples)) 3)
      as [|H3]; [discriminate|].
    destruct (np_mean_axis0 _) as [avg|]; [|discriminate].
    destruct (pairwise _) as [sims|]; [|discriminate].
    destruct (Rlt_dec _ _) as [|Hq]; [discriminate|].
    intros [= <- <-]. split_and!; [reflexivity | reflexivity | eauto |].
    eexists. cbn [embeddings_cache enrollment_files].
    rewrite !dict_lookup_set_eq.
    split_and!; cycle 1.
    + reflexivity.
    + reflexivity.
    + cbn [f_quality_score]. exact Hq.
    + cbn [f_num_samples]. lia.
    + reflexivity.
Qed.

End RecognizerExtras.

Section RecognizerScenario.
Import Recognizer Matching.
Local Open Scope R_scope.

Lemma enrollment_write_failures_witness :
  (∃ r',
     enroll_employee Scenarios.extractor JsonWritten false
       Scenarios.registry_A "B" [[1]; [1]; [1]]
     = Some (false, SaveError, r')
     ∧ ∃ data, Py.dict_lookup "B" (embeddings_cache r')
               = Some (f_embedding data))
  ∧ ∃ r2,
      enroll_employee Scenarios.extractor DumpFailed true
        Scenarios.registry_A "B" [[1]; [1]; [1]]
      = Some (false, SaveError, r2)
      ∧ embeddings_cache r2 = embeddings_cache Scenarios.registry_A
      ∧ Py.dict_lookup "B_embedding.json" (enrollment_files r2) = Some None.
Proof.
  assert (E : ∃ reason r',
            enroll_employee Scenarios.extractor JsonWritten true
              Scenarios.registry_A "B" [[1]; [1]; [1]]
            = Some (true, reason, r')).
  { unfold enroll_employee, Scenarios.extractor. cbn [omap list_omap length
      Nat.ltb Nat.leb].
    rewrite (pairwise_spec [[1]; [1]; [1]] 1)
      by (repeat constructor).
    unfold np_mean_axis0. cbn [vec_sum vec_add fmap option_fmap option_map].
    cbn [unordered_pairs map app fst snd].
    rewrite (cosine_self [1]) by (rewrite norm_unit; lra).
    destruct (Rlt_dec _ _) as [H | _]; [|eauto].
    exfalso. cbn in H. lra. }
  destruct E as (reason & r' & E).
  pose proof (enrollment_write_failures Scenarios.extractor
                Scenarios.registry_A "B" [[1]; [1]; [1]]) as (_ & HD & HS).
  destruct (HS reason r' E) as (H1 & _ & (r2 & H2) & data & H3 & _).
  split.
  - exists r'. split; [exact H1 | exists data; exact H3].
  - exists r2. split; [exact H2|].
    destruct (HD true false SaveError r2 H2) as (_ & _ & Hc & _ & Hf).
    split; [exact Hc | exact (proj1 (Hf eq_refl))].
Defined.

End RecognizerScenario.

Section LoadingExtras.
Import Recognizer Matching.

Lemma dict_fold_spec {V} (entries : list (string * V)) : ∀ c,
  NoDup (map fst c) →
  let c' := fold_left (λ c p, Py.dict_set p.1 p.2 c) entries c in
  NoDup (map fst c')
  ∧ ∀ id, Py.dict_lookup id c'
          = match last (filter (λ p, p.1 = id) entries) with
            | Some p => Some p.2
            | None => Py.dict_lookup id c
            end.
Proof.
  induction entries as [|[k v] entries IH]; intros c Hc; cbv zeta.
  - cbn. auto.
  - cbn [fold_left fst snd].
    assert (Hc1 : NoDup (map fst (Py.dict_set k v c))).
    { rewrite dict_set_keys. destruct (decide _); [exact Hc|].
      apply NoDup_app. split_and!; [exact Hc | | apply NoDup_singleton].
      intros y Hy Hy'. apply list_elem_of_singleton in Hy' as ->.
      contradiction. }
    destruct (IH _ Hc1) as [N L]. split; [exact N|].
    intros id. rewrite L, filter_cons. cbn [fst].
    destruct (decide (k = id)) as [-> | Hne].
    + rewrite last_cons, dict_lookup_set_eq.
      destruct (last _); reflexivity.
    + rewrite dict_lookup_set_ne by congruence. reflexivity.
Qed.

Lemma dict_lookup_elem {V} (c : list (string * V)) id v :
  NoDup (map fst c) → (id, v) ∈ c → Py.dict_lookup id c = Some v.
Proof.
  induction c as [|[k x] c IH]; intros N Hin;
    [by apply not_elem_of_nil in Hin|].
  cbn in *. apply NoDup_cons in N as [Hk N].
  apply elem_of_cons in Hin as [[= <- <-] | Hin].
  - now rewrite String.eqb_refl.
  - destruct (String.eqb_spec id k) as [-> | _]; [|now apply IH].
    exfalso. apply Hk. apply list_elem_of_fmap. exists (k, v). auto.
Qed.

Lemma load_fold files : ∀ cache,
  fold_left
    (λ cache (file : string * option EmbeddingData),
       match file.2 with
       | Some data =>
           match f_employee_id data with
           | Some id =>
               if Py.truthy (f_employee_id data)
                  && (0 <? length (f_embedding data))%nat
               then Py.dict_set id (f_embedding data) cache
               else cache
           | None => cache
           end
       | None => cache
       end) files cache
  = fold_left (λ c p, Py.dict_set p.1 p.2 c) (omap loadable files) cache.
Proof.
  induction files as [|[name [data|]] files IH]; intros cache;
    cbn [fold_left omap list_omap snd]; [reflexivity | | apply IH].
  unfold loadable at 1. cbn [snd].
  destruct (f_employee_id data) as [id|] eqn:Ei; [|apply IH].
  destruct (Py.truthy (Some id) && _); [|apply IH].
  cbn [fold_left fst snd]. apply IH.
Qed.

(** X23.  [_load_embeddings] rebuilds the cache from the files alone,
    whatever it held before: the ids of the cache are distinct, each
    belongs to a parseable file with a non-empty id and a non-empty
    vector, and the vector cached for an id is the one of the last such
    file carrying that id.  Threshold and files are unchanged. *)
Theorem loaded_cache_is_from_files (r : FaceRecognizer) :
  let r' := _load_embeddings r in
  let entries := omap loadable (enrollment_files r) in
  NoDup (map fst (embeddings_cache r'))
  ∧ (∀ id, Py.dict_lookup id (embeddings_cache r')
           = snd <$> last (filter (λ p, p.1 = id) entries))
  ∧ (∀ id v, (id, v) ∈ embeddings_cache r' →
             id ≠ "" ∧ v ≠ []
             ∧ ∃ name data, (name, Some data) ∈ enrollment_files r
                            ∧ f_employee_id data = Some id
                            ∧ f_embedding data = v)
  ∧ threshold r' = threshold r
  ∧ enrollment_files r' = enrollment_files r
  ∧ ∀ cache,
      _load_embeddings {| threshold := threshold r;
                          embeddings_cache := cache;
                          enrollment_files := enrollment_files r |} = r'.
Proof.
  intros r' entries.
  assert (Hc : embeddings_cache r'
               = fold_left (λ c p, Py.dict_set p.1 p.2 c) entries [])
    by apply load_fold.
  destruct (dict_fold_spec entries [] (NoDup_nil_2)) as [N L].
  cbv zeta in N, L. rewrite <- Hc in N, L.
  assert (L' : ∀ id, Py.dict_lookup id (embeddings_cache r')
                     = snd <$> last (filter (λ p, p.1 = id) entries)).
  { intros id. rewrite L. destruct (last _); reflexivity. }
  split_and!; [exact N | exact L' | | reflexivity..].
  intros id v Hin. apply (dict_lookup_elem _ _ _ N) in Hin.
  rewrite L' in Hin.
  destruct (last (filter (λ p, p.1 = id) entries)) as [[k x]|] eqn:El;
    [|discriminate].
  cbn in Hin. injection Hin as ->.
  apply last_Some_elem_of, list_elem_of_filter in El as [Hk Hin].
  cbn in Hk. subst k. unfold entries in Hin.
  apply list_elem_of_omap in Hin as ([name file] & Hf & Hl).
  unfold loadable in Hl. cbn [snd] in Hl.
  destruct file as [data|]; [|discriminate].
  destruct (f_employee_id data) as [i|] eqn:Ei; [|discriminate].
  destruct (Py.truthy (Some i) && (0 <? length (f_embedding data))%nat)
    eqn:Ec; [|discriminate].
  injection Hl as -> <-. apply andb_prop in Ec as [Ht Hlen].
  split_and!.
  - intros ->. discriminate.
  - intros Hnil. rewrite Hnil in Hlen. discriminate.
  - exists name, data. auto.
Qed.

End LoadingExtras.

(** ** The detectors: labels, face boxes and the regions cut from a frame *)

Section DetectorExtras.
Import Detectors.

Lemma base_emotion_cases (emotion : string) :
  ((emotion ∈ ["angry"; "fear"; "sad"; "disgust"; "happy"; "surprise";
               "neutral"])
   ∧ base_emotion emotion = emotion)
  ∨ ((emotion ∉ ["angry"; "fear"; "sad"; "disgust"; "happy"; "surprise";
                 "neutral"])
     ∧ base_emotion emotion = "neutral").
Proof.
  unfold base_emotion. cbn [existsb].
  repeat match goal with
  | |- context [String.eqb emotion ?s] =>
      destruct (String.eqb_spec emotion s) as [-> | ?];
        [left; split; [set_solver | reflexivity]|]
  end.
  right. split; [|reflexivity].
  rewrite !elem_of_cons. intros H.
  repeat (destruct H as [H | H]; [contradiction|]).
  by apply not_elem_of_nil in H.
Qed.

(** On probabilities the three derived labels are out of reach. *)
Lemma map_emotion_base (emotion : string) (p : list (string * Q)) :
  (0 <= get_or_zero "angry" p)%Q → (0 <= get_or_zero "fear" p)%Q →
  (0 <= get_or_zero "sad" p)%Q → (0 <= get_or_zero "neutral" p)%Q →
  (get_or_zero "angry" p + get_or_zero "fear" p + get_or_zero "sad" p
   + get_or_zero "neutral" p <= 1)%Q →
  _map_emotion emotion p = base_emotion emotion.
Proof.
  intros Ha Hf Hs Hn Hsum. unfold _map_emotion.
  assert (S6 : Qle_bool (stress_score p) (6 # 10) = true).
  { apply Qle_bool_iff. unfold stress_score. Lqa.lra. }
  assert (S4 : Qle_bool (stress_score p) (4 # 10) = true).
  { apply Qle_bool_iff. unfold stress_score. Lqa.lra. }
  assert (F7 : Qle_bool (fatigue_score p) (7 # 10) = true).
  { apply Qle_bool_iff. unfold fatigue_score. Lqa.lra. }
  rewrite S6, S4, F7. reflexivity.
Qed.

Lemma negative_base_emotion (emotion : string) :
  is_negative (base_emotion emotion) = true
  ↔ emotion ∈ ["angry"; "fear"; "sad"; "disgust"].
Proof.
  unfold base_emotion. cbn [existsb].
  repeat match goal with
  | |- context [String.eqb emotion ?s] =>
      destruct (String.eqb_spec emotion s) as [-> | ?];
        [cbn; split; [intros; set_solver | intros H; first
           [reflexivity
           | exfalso; rewrite !elem_of_cons in H;
             repeat (destruct H as [H | H]; [discriminate|]);
             by apply not_elem_of_nil in H]]|]
  end.
  cbn. split; [discriminate|]. rewrite !elem_of_cons. intros H.
  repeat (destruct H as [H | H]; [contradiction|]).
  by apply not_elem_of_nil in H.
Qed.

(** X24.  When the values that [_map_emotion] reads from the
    probabilities (angry, fear, sad, neutral; a missing key counts 0)
    are non-negative and add up to at most 1, the result is the label
    of the dominant emotion itself, or "neutral" for a label outside the
    seven known ones: "stress_high", "stress_low" and "fatigue" are
    never returned, since the weighted sums stay at or below 0.4 and
    0.6.  The result then is a negative emotion exactly when the
    dominant emotion is angry, fear, sad or disgust. *)
Theorem probabilities_never_map_to_stress (emotion : string)
    (p : list (string * Q)) :
  (0 <= get_or_zero "angry" p)%Q → (0 <= get_or_zero "fear" p)%Q →
  (0 <= get_or_zero "sad" p)%Q → (0 <= get_or_zero "neutral" p)%Q →
  (get_or_zero "angry" p + get_or_zero "fear" p + get_or_zero "sad" p
   + get_or_zero "neutral" p <= 1)%Q →
  _map_emotion emotion p = base_emotion emotion
  ∧ _map_emotion emotion p
    ∈ ["angry"; "fear"; "sad"; "disgust"; "happy"; "surprise"; "neutral"]
  ∧ (emotion ∉ ["angry"; "fear"; "sad"; "disgust"; "happy"; "surprise";
                "neutral"] → _map_emotion emotion p = "neutral")
  ∧ (is_negative (_map_emotion emotion p) = true
     ↔ emotion ∈ ["angry"; "fear"; "sad"; "disgust"]).
Proof.
  intros Ha Hf Hs Hn Hsum.
  rewrite (map_emotion_base emotion p Ha Hf Hs Hn Hsum).
  split_and!.
  - reflexivity.
  - destruct (base_emotion_cases emotion) as [[Hin ->] | [_ ->]];
      [exact Hin | set_solver].
  - intros Hout.
    destruct (base_emotion_cases emotion) as [[Hin _] | [_ ->]];
      [contradiction | reflexivity].
  - apply negative_base_emotion.
Qed.

Lemma probabilities_never_map_to_stress_witness :
  _map_emotion "angry" [("angry", 1 # 2); ("neutral", 1 # 2)] = "angry".
Proof.
  refine (eq_trans
            (proj1 (probabilities_never_map_to_stress "angry"
                      [("angry", 1 # 2); ("neutral", 1 # 2)] _ _ _ _ _))
            eq_refl); vm_compute; discriminate.
Defined.

Lemma get_or_zero_scaled (k : string) (e : list (string * Q)) :
  (get_or_zero k (map (λ kv, (kv.1, (kv.2 / 100)%Q)) e)
   == get_or_zero k e / 100)%Q.
Proof.
  unfold get_or_zero. induction e as [|[k' v] e IH]; cbn.
  - reflexivity.
  - destruct (String.eqb k k'); [reflexivity | exact IH].
Qed.

(** X25.  [analyze_face] on what DeepFace returns: the confidence is the
    percentage of the dominant emotion divided by 100 (0 when the
    emotion dict lacks it), every probability is the percentage divided
    by 100, and the timestamp is the reading of the clock.  When the
    percentages read are non-negative and add up to at most 100, the
    label is the dominant emotion itself ("neutral" when it is missing
    or unknown).  When DeepFace raises, the result is "neutral" with
    confidence 0.0 and no probabilities. *)
Theorem analysis_of_percentages (now : Z) (a : Analysis) :
  let e := default [] (an_emotion a) in
  let dominant := default "neutral" (an_dominant_emotion a) in
  let res := analyze_face now (Some a) in
  (er_confidence res == get_or_zero dominant e / 100)%Q
  ∧ (∀ k, (get_or_zero k (er_probabilities res) == get_or_zero k e / 100)%Q)
  ∧ map fst (er_probabilities res) = map fst e
  ∧ er_timestamp res = now
  ∧ ((0 <= get_or_zero "angry" e)%Q → (0 <= get_or_zero "fear" e)%Q →
     (0 <= get_or_zero "sad" e)%Q → (0 <= get_or_zero "neutral" e)%Q →
     (get_or_zero "angry" e + get_or_zero "fear" e + get_or_zero "sad" e
      + get_or_zero "neutral" e <= 100)%Q →
     er_emotion res = base_emotion dominant)
  ∧ analyze_face now None
    = {| er_emotion := "neutral"; er_confidence := 0;
         er_probabilities := []; er_timestamp := now |}.
Proof.
  intros e dominant res. unfold res, analyze_face. cbv zeta.
  fold e. fold dominant. cbn [er_confidence er_probabilities er_timestamp
                               er_emotion].
  split_and!.
  - reflexivity.
  - intros k. apply get_or_zero_scaled.
  - rewrite map_map. reflexivity.
  - reflexivity.
  - intros Ha Hf Hs Hn Hsum.
    pose proof (get_or_zero_scaled "angry" e) as Ea.
    pose proof (get_or_zero_scaled "fear" e) as Ef.
    pose proof (get_or_zero_scaled "sad" e) as Es.
    pose proof (get_or_zero_scaled "neutral" e) as En.
    apply map_emotion_base; rewrite ?Ea, ?Ef, ?Es, ?En;
      try (apply Qle_shift_div_l; [reflexivity | Lqa.lra]).
    assert (E : (get_or_zero "angry" e / 100 + get_or_zero "fear" e / 100
                 + get_or_zero "sad" e / 100 + get_or_zero "neutral" e / 100
                 == (get_or_zero "angry" e + get_or_zero "fear" e
                     + get_or_zero "sad" e + get_or_zero "neutral" e) / 100)%Q)
      by (unfold Qdiv; ring).
    rewrite E. apply Qle_shift_div_r; [reflexivity | Lqa.lra].
  - reflexivity.
Qed.

(** [int] of a non-negative number rounds down. *)
Lemma int_of_nonneg (q : Q) :
  (0 <= q)%Q → 0 ≤ int_of q ∧ (inject_Z (int_of q) <= q)%Q.
Proof.
  destruct q as [n d]. unfold int_of, Qle. cbn. intros Hn.
  rewrite Z.mul_1_r in Hn.
  rewrite Z.quot_div_nonneg by lia. split.
  - apply Z.div_pos; lia.
  - rewrite Z.mul_1_r, Z.mul_comm. apply Z.mul_div_le. lia.
Qed.

Lemma scaled_box_fits (a b : Q) (n : Z) :
  (0 <= a)%Q → (0 <= b)%Q → (a + b <= 1)%Q → 0 ≤ n →
  0 ≤ int_of (a * inject_Z n)
  ∧ int_of (a * inject_Z n) + int_of (b * inject_Z n) ≤ n.
Proof.
  intros Ha Hb Hab Hn.
  assert (HN : (0 <= inject_Z n)%Q) by (unfold Qle; cbn; lia).
  destruct (int_of_nonneg (a * inject_Z n)%Q) as [A0 A1];
    [now apply Qmult_le_0_compat|].
  destruct (int_of_nonneg (b * inject_Z n)%Q) as [B0 B1];
    [now apply Qmult_le_0_compat|].
  split; [exact A0|].
  rewrite Zle_Qle, inject_Z_plus.
  assert (H : ((a + b) * inject_Z n <= 1 * inject_Z n)%Q)
    by (now apply Qmult_le_compat_r).
  assert (E : ((a + b) * inject_Z n == a * inject_Z n + b * inject_Z n)%Q)
    by ring.
  rewrite E, Qmult_1_l in H.
  eapply Qle_trans; [apply Qplus_le_compat; eassumption | exact H].
Qed.

Lemma slice_len_inside (s len n : Z) :
  0 ≤ s → 0 ≤ len → s + len ≤ n → slice_len s (s + len) n = len.
Proof.
  intros. unfold slice_len, slice_index.
  destruct (Z.ltb_spec s 0), (Z.ltb_spec (s + len) 0); lia.
Qed.

(** X26.  [_detect_mediapipe] keeps, in order, the detections whose pixel
    width and height reach [min_face_size].  When MediaPipe's relative
    boxes lie in the unit square, every face kept lies inside the frame;
    with a positive [min_face_size] the region the frame loop cuts for
    it is then not empty, so no detected face is skipped before the
    analysis. *)
Theorem detected_faces_fit_the_frame (min_face_size h w : Z)
    (ds : list RelativeDetection) :
  let faces := _detect_mediapipe min_face_size h w ds in
  (length faces ≤ length ds)%nat
  ∧ Forall (λ f, min_face_size ≤ width f ∧ min_face_size ≤ height f) faces
  ∧ (0 ≤ h → 0 ≤ w →
     Forall (λ d, (0 <= xmin d)%Q ∧ (0 <= ymin d)%Q
                  ∧ (0 <= rel_width d)%Q ∧ (0 <= rel_height d)%Q
                  ∧ (xmin d + rel_width d <= 1)%Q
                  ∧ (ymin d + rel_height d <= 1)%Q) ds →
     Forall (λ f, 0 ≤ x f ∧ 0 ≤ y f ∧ x f + width f ≤ w
                  ∧ y f + height f ≤ h) faces
     ∧ (0 < min_face_size → analysed_faces h w faces = faces)).
Proof.
  intros faces. subst faces. unfold _detect_mediapipe.
  set (sel := λ d : RelativeDetection, _).
  assert (Hsz : Forall (λ f, min_face_size ≤ width f
                             ∧ min_face_size ≤ height f) (omap sel ds)).
  { apply Forall_forall. intros f Hf.
    apply list_elem_of_omap in Hf as (d & _ & Hd). unfold sel in Hd.
    cbv zeta in Hd.
    destruct (Z.leb_spec min_face_size (int_of (rel_width d * inject_Z w)));
      destruct (Z.leb_spec min_face_size
                  (int_of (rel_height d * inject_Z h)));
      cbn in Hd; try discriminate.
    injection Hd as <-. cbn. lia. }
  split_and!.
  - clear. induction ds as [|d ds IH]; cbn; [lia|].
    destruct (sel d); cbn; lia.
  - exact Hsz.
  - intros Hh Hw Hds.
    assert (Hin : Forall (λ f, 0 ≤ x f ∧ 0 ≤ y f ∧ x f + width f ≤ w
                               ∧ y f + height f ≤ h) (omap sel ds)).
    { apply Forall_forall. intros f Hf.
      apply list_elem_of_omap in Hf as (d & Hd & Hs).
      pose proof (proj1 (Forall_forall _ _) Hds d Hd)
        as (X0 & Y0 & W0 & H0 & XW & YH).
      unfold sel in Hs. cbv zeta in Hs.
      destruct (_ && _); [|discriminate]. injection Hs as <-. cbn.
      destruct (scaled_box_fits (xmin d) (rel_width d) w X0 W0 XW Hw).
      destruct (scaled_box_fits (ymin d) (rel_height d) h Y0 H0 YH Hh).
      lia. }
    split; [exact Hin|]. intros Hmin. unfold analysed_faces.
    induction (omap sel ds) as [|f l IH]; [reflexivity|].
    apply Forall_cons in Hsz as [[Sw Sh] Hsz].
    apply Forall_cons in Hin as [(Fx & Fy & Fw & Fh) Hin].
    rewrite filter_cons, (IH Hsz Hin).
    rewrite decide_True; [reflexivity|].
    unfold roi_size.
    rewrite (slice_len_inside (y f) (height f) h),
            (slice_len_inside (x f) (width f) w) by lia.
    apply Z.mul_pos_pos; lia.
Qed.

(** X27.  The region [frame[y:y+h, x:x+w]] that the frame loop cuts for a
    face box of non-negative size: for a box inside the frame it has
    [h * w] pixels; a box that starts inside the frame is clipped at the
    right and bottom edges; a box that sticks out past the left or the
    top edge (negative start, non-negative end) gives an empty region,
    as the negative start is counted from the far edge, and the face is
    then skipped. *)
Theorem region_cut_for_a_face (rows cols : Z) (f : FaceRegion)
    (faces : list FaceRegion) :
  0 ≤ rows → 0 ≤ cols → 0 ≤ width f → 0 ≤ height f →
  (0 ≤ x f → 0 ≤ y f → x f + width f ≤ cols → y f + height f ≤ rows →
   roi_size rows cols f = height f * width f)
  ∧ (0 ≤ x f → 0 ≤ y f →
     roi_size rows cols f
     = Z.max 0 (Z.min rows (y f + height f) - y f)
       * Z.max 0 (Z.min cols (x f + width f) - x f))
  ∧ (x f < 0 → 0 ≤ x f + width f → width f ≤ cols →
     roi_size rows cols f = 0 ∧ f ∉ analysed_faces rows cols faces)
  ∧ (y f < 0 → 0 ≤ y f + height f → height f ≤ rows →
     roi_size rows cols f = 0 ∧ f ∉ analysed_faces rows cols faces)
  ∧ (f ∈ analysed_faces rows cols faces ↔
     f ∈ faces ∧ 0 < roi_size rows cols f).
Proof.
  intros Hr Hc Hw Hh.
  assert (Hskip : roi_size rows cols f = 0 →
                  f ∉ analysed_faces rows cols faces).
  { intros Hz Hin. unfold analysed_faces in Hin.
    apply list_elem_of_filter in Hin as [Hpos _]. lia. }
  split_and!.
  - intros. unfold roi_size.
    rewrite (slice_len_inside (y f) (height f) rows),
            (slice_len_inside (x f) (width f) cols) by lia.
    reflexivity.
  - intros Hx Hy. unfold roi_size, slice_len, slice_index.
    destruct (Z.ltb_spec (y f) 0), (Z.ltb_spec (y f + height f) 0),
             (Z.ltb_spec (x f) 0), (Z.ltb_spec (x f + width f) 0);
      try lia.
    f_equal; lia.
  - intros Hx Hxw Hwc.
    assert (Hz : roi_size rows cols f = 0).
    { unfold roi_size.
      assert (E : slice_len (x f) (x f + width f) cols = 0).
      { unfold slice_len, slice_index.
        destruct (Z.ltb_spec (x f) 0), (Z.ltb_spec (x f + width f) 0); lia. }
      rewrite E. lia. }
    auto.
  - intros Hy Hyh Hhr.
    assert (Hz : roi_size rows cols f = 0).
    { unfold roi_size.
      assert (E : slice_len (y f) (y f + height f) rows = 0).
      { unfold slice_len, slice_index.
        destruct (Z.ltb_spec (y f) 0), (Z.ltb_spec (y f + height f) 0); lia. }
      rewrite E. lia. }
    auto.
  - unfold analysed_faces. rewrite list_elem_of_filter. tauto.
Qed.

Lemma region_cut_for_a_face_witness :
  roi_size 480 640
    {| x := 10; y := 20; width := 100; height := 120; fr_confidence := 1 |}
  = 120 * 100.
Proof.
  refine (proj1 (region_cut_for_a_face 480 640
                   {| x := 10; y := 20; width := 100; height := 120;
                      fr_confidence := 1 |} [] _ _ _ _) _ _ _ _);
    cbn; lia.
Defined.

(** X28.  The padded region of [analyze_multiple_faces] for a face box
    inside the frame with positive size: its corners stay inside the
    frame, it contains the box, it extends the box by at most 10 pixels
    on each side, and it is not empty, so the face is analysed. *)
Theorem padded_region_contains_the_face (rows cols : Z) (f : FaceRegion) :
  0 ≤ x f → 0 ≤ y f → 0 < width f → 0 < height f →
  x f + width f ≤ cols → y f + height f ≤ rows →
  ∃ x1 y1 x2 y2,
    padded_corners rows cols f = (x1, y1, x2, y2)
    ∧ 0 ≤ x1 ∧ x1 ≤ x f ∧ x f - 10 ≤ x1
    ∧ 0 ≤ y1 ∧ y1 ≤ y f ∧ y f - 10 ≤ y1
    ∧ x f + width f ≤ x2 ∧ x2 ≤ cols ∧ x2 ≤ x f + width f + 10
    ∧ y f + height f ≤ y2 ∧ y2 ≤ rows ∧ y2 ≤ y f + height f + 10
    ∧ 0 < slice_len y1 y2 rows * slice_len x1 x2 cols.
Proof.
  intros Hx Hy Hw Hh Hxc Hyr. unfold padded_corners. cbv zeta.
  eexists _, _, _, _. split; [reflexivity|].
  split_and!; try lia.
  apply Z.mul_pos_pos; unfold slice_len, slice_index.
  - destruct (Z.ltb_spec (Z.max 0 (y f - 10)) 0),
             (Z.ltb_spec (Z.min rows (y f + height f + 10)) 0); lia.
  - destruct (Z.ltb_spec (Z.max 0 (x f - 10)) 0),
             (Z.ltb_spec (Z.min cols (x f + width f + 10)) 0); lia.
Qed.

Lemma padded_region_contains_the_face_witness :
  ∃ x1 y1 x2 y2,
    padded_corners 480 640
      {| x := 5; y := 20; width := 100; height := 120; fr_confidence := 1 |}
    = (x1, y1, x2, y2) ∧ x1 = 0 ∧ x2 = 115.
Proof.
  destruct (padded_region_contains_the_face 480 640
              {| x := 5; y := 20; width := 100; height := 120;
                 fr_confidence := 1 |})
    as (x1 & y1 & x2 & y2 & E & _); try (cbn; lia).
  exists x1, y1, x2, y2. split; [exact E|].
  vm_compute in E. injection E as <- <- <- <-. split; reflexivity.
Defined.

End DetectorExtras.
